(** * Keyword notification bot: store, matcher, fan-out and reconciliation

    A shallow embedding of [database.py], of [process_tweet_notification] in
    [webhook.py], of [GroupMonitor._process_groups] in [monitor.py] and of the
    senders of [bot_handlers.py].  The SQLite file is a record of four
    tables, each a list of rows in rowid order.  Every [Database] method
    opens a connection, runs its statements against the connection's view of
    the file and writes that view back only at [conn.commit()].  A SELECT
    without ORDER BY gives its rows in the order in which SQLite reads them
    for this schema: a table in rowid order, an index in the order of its
    key.  Texts are UTF-8; [str.strip] and [str.lower] work on their code
    points, with the tables of Unicode 14 that CPython 3.11 uses.  The Telegram
    transport, the clock and the MD5 digest are external: they are Section
    variables, so every theorem holds whatever they do.  The locks of the
    [Database] objects are modelled apart, with threads as lists of actions
    that a scheduler interleaves. *)

From Stdlib Require Import String Ascii.
From stdpp Require Import base decidable option list sorting gmap strings pretty.

(** ** Python string primitives *)

(** A Python [str] is a sequence of Unicode code points; it is held here as
    its UTF-8 encoding, the form in which SQLite stores and compares it.
    [split], [in], [startswith] and the comparisons work on the bytes, which
    on UTF-8 gives what they give on the code points; [strip] and [lower]
    work on the code points. *)

Module Py.

(** The code points of a text.  A byte that starts no well-formed sequence
    is kept apart, as the code point U+DC00 + byte, so that [encode] gives
    it back. *)
Definition continuation (b : N) : bool := ((128 <=? b) && (b <=? 191))%N.

Fixpoint decode (s : string) : list N :=
  match s with
  | EmptyString => []
  | String a0 s1 =>
      let b0 := N_of_ascii a0 in
      let undecodable (_ : unit) := (56320 + b0)%N :: decode s1 in
      if (b0 <? 128)%N then b0 :: decode s1
      else
        match s1 with
        | EmptyString => undecodable ()
        | String a1 s2 =>
            let b1 := N_of_ascii a1 in
            if (b0 <? 224)%N then
              let c := ((b0 - 192) * 64 + (b1 - 128))%N in
              if ((192 <=? b0) && continuation b1 && (128 <=? c))%N
              then c :: decode s2 else undecodable ()
            else
              match s2 with
              | EmptyString => undecodable ()
              | String a2 s3 =>
                  let b2 := N_of_ascii a2 in
                  if (b0 <? 240)%N then
                    let c := (((b0 - 224) * 64 + (b1 - 128)) * 64 + (b2 - 128))%N in
                    if (continuation b1 && continuation b2 && (2048 <=? c)
                        && negb ((55296 <=? c) && (c <=? 57343)))%N
                    then c :: decode s3 else undecodable ()
                  else
                    match s3 with
                    | EmptyString => undecodable ()
                    | String a3 s4 =>
                        let b3 := N_of_ascii a3 in
                        let c := ((((b0 - 240) * 64 + (b1 - 128)) * 64
                                   + (b2 - 128)) * 64 + (b3 - 128))%N in
                        if ((b0 <? 248) && continuation b1 && continuation b2
                            && continuation b3 && (65536 <=? c) && (c <=? 1114111))%N
                        then c :: decode s4 else undecodable ()
                    end
              end
        end
  end.

Definition encode_point (c : N) : string :=
  let byte (n : N) (rest : string) := String (ascii_of_N n) rest in
  if (c <? 128)%N then byte c EmptyString
  else if ((56448 <=? c) && (c <=? 56575))%N then byte (c - 56320)%N EmptyString
  else if (c <? 2048)%N then
    byte (192 + c / 64)%N (byte (128 + c mod 64)%N EmptyString)
  else if (c <? 65536)%N then
    byte (224 + c / 4096)%N
      (byte (128 + (c / 64) mod 64)%N (byte (128 + c mod 64)%N EmptyString))
  else
    byte (240 + c / 262144)%N
      (byte (128 + (c / 4096) mod 64)%N
         (byte (128 + (c / 64) mod 64)%N (byte (128 + c mod 64)%N EmptyString))).

Definition encode (l : list N) : string :=
  foldr (λ c s, encode_point c +:+ s) EmptyString l.

Definition in_ranges (c : N) (ranges : list (N * N)) : bool :=
  existsb (λ r, (r.1 <=? c)%N && (c <=? r.2)%N) ranges.

(** The code points [str.isspace] accepts, as ranges. *)
Definition White_Space : list (N * N) :=
  [ (9, 13); (28, 32); (133, 133); (160, 160); (5760, 5760); (8192, 8202);
    (8232, 8233); (8239, 8239); (8287, 8287); (12288, 12288) ]%N.

(** The code points with the property Cased (Unicode 14.0.0), as ranges. *)
Definition Cased : list (N * N) :=
  [ (65, 90); (97, 122); (170, 170); (181, 181); (186, 186); (192, 214);
    (216, 246); (248, 442); (444, 447); (452, 659); (661, 696); (704, 705);
    (736, 740); (837, 837); (880, 883); (886, 887); (890, 893); (895, 895);
    (902, 902); (904, 906); (908, 908); (910, 929); (931, 1013); (1015, 1153);
    (1162, 1327); (1329, 1366); (1376, 1416); (4256, 4293); (4295, 4295); (4301, 4301);
    (4304, 4346); (4349, 4351); (5024, 5109); (5112, 5117); (7296, 7304); (7312, 7354);
    (7357, 7359); (7424, 7615); (7680, 7957); (7960, 7965); (7968, 8005); (8008, 8013);
    (8016, 8023); (8025, 8025); (8027, 8027); (8029, 8029); (8031, 8061); (8064, 8116);
    (8118, 8124); (8126, 8126); (8130, 8132); (8134, 8140); (8144, 8147); (8150, 8155);
    (8160, 8172); (8178, 8180); (8182, 8188); (8305, 8305); (8319, 8319); (8336, 8348);
    (8450, 8450); (8455, 8455); (8458, 8467); (8469, 8469); (8473, 8477); (8484, 8484);
    (8486, 8486); (8488, 8488); (8490, 8493); (8495, 8500); (8505, 8505); (8508, 8511);
    (8517, 8521); (8526, 8526); (8544, 8575); (8579, 8580); (9398, 9449); (11264, 11492);
    (11499, 11502); (11506, 11507); (11520, 11557); (11559, 11559); (11565, 11565); (42560, 42605);
    (42624, 42653); (42786, 42887); (42891, 42894); (42896, 42954); (42960, 42961); (42963, 42963);
    (42965, 42969); (42997, 42998); (43000, 43002); (43824, 43866); (43868, 43880); (43888, 43967);
    (64256, 64262); (64275, 64279); (65313, 65338); (65345, 65370); (66560, 66639); (66736, 66771);
    (66776, 66811); (66928, 66938); (66940, 66954); (66956, 66962); (66964, 66965); (66967, 66977);
    (66979, 66993); (66995, 67001); (67003, 67004); (67456, 67456); (67459, 67461); (67463, 67504);
    (67506, 67514); (68736, 68786); (68800, 68850); (71840, 71903); (93760, 93823); (119808, 119892);
    (119894, 119964); (119966, 119967); (119970, 119970); (119973, 119974); (119977, 119980); (119982, 119993);
    (119995, 119995); (119997, 120003); (120005, 120069); (120071, 120074); (120077, 120084); (120086, 120092);
    (120094, 120121); (120123, 120126); (120128, 120132); (120134, 120134); (120138, 120144); (120146, 120485);
    (120488, 120512); (120514, 120538); (120540, 120570); (120572, 120596); (120598, 120628); (120630, 120654);
    (120656, 120686); (120688, 120712); (120714, 120744); (120746, 120770); (120772, 120779); (122624, 122633);
    (122635, 122654); (125184, 125251); (127280, 127305); (127312, 127337); (127344, 127369) ]%N.

(** The code points with the property Case_Ignorable (Unicode 14.0.0), as
    ranges. *)
Definition Case_Ignorable : list (N * N) :=
  [ (39, 39); (46, 46); (58, 58); (94, 94); (96, 96); (168, 168);
    (173, 173); (175, 175); (180, 180); (183, 184); (688, 879); (884, 885);
    (890, 890); (900, 901); (903, 903); (1155, 1161); (1369, 1369); (1375, 1375);
    (1425, 1469); (1471, 1471); (1473, 1474); (1476, 1477); (1479, 1479); (1524, 1524);
    (1536, 1541); (1552, 1562); (1564, 1564); (1600, 1600); (1611, 1631); (1648, 1648);
    (1750, 1757); (1759, 1768); (1770, 1773); (1807, 1807); (1809, 1809); (1840, 1866);
    (1958, 1968); (2027, 2037); (2042, 2042); (2045, 2045); (2070, 2093); (2137, 2139);
    (2184, 2184); (2192, 2193); (2200, 2207); (2249, 2306); (2362, 2362); (2364, 2364);
    (2369, 2376); (2381, 2381); (2385, 2391); (2402, 2403); (2417, 2417); (2433, 2433);
    (2492, 2492); (2497, 2500); (2509, 2509); (2530, 2531); (2558, 2558); (2561, 2562);
    (2620, 2620); (2625, 2626); (2631, 2632); (2635, 2637); (2641, 2641); (2672, 2673);
    (2677, 2677); (2689, 2690); (2748, 2748); (2753, 2757); (2759, 2760); (2765, 2765);
    (2786, 2787); (2810, 2815); (2817, 2817); (2876, 2876); (2879, 2879); (2881, 2884);
    (2893, 2893); (2901, 2902); (2914, 2915); (2946, 2946); (3008, 3008); (3021, 3021);
    (3072, 3072); (3076, 3076); (3132, 3132); (3134, 3136); (3142, 3144); (3146, 3149);
    (3157, 3158); (3170, 3171); (3201, 3201); (3260, 3260); (3263, 3263); (3270, 3270);
    (3276, 3277); (3298, 3299); (3328, 3329); (3387, 3388); (3393, 3396); (3405, 3405);
    (3426, 3427); (3457, 3457); (3530, 3530); (3538, 3540); (3542, 3542); (3633, 3633);
    (3636, 3642); (3654, 3662); (3761, 3761); (3764, 3772); (3782, 3782); (3784, 3789);
    (3864, 3865); (3893, 3893); (3895, 3895); (3897, 3897); (3953, 3966); (3968, 3972);
    (3974, 3975); (3981, 3991); (3993, 4028); (4038, 4038); (4141, 4144); (4146, 4151);
    (4153, 4154); (4157, 4158); (4184, 4185); (4190, 4192); (4209, 4212); (4226, 4226);
    (4229, 4230); (4237, 4237); (4253, 4253); (4348, 4348); (4957, 4959); (5906, 5908);
    (5938, 5939); (5970, 5971); (6002, 6003); (6068, 6069); (6071, 6077); (6086, 6086);
    (6089, 6099); (6103, 6103); (6109, 6109); (6155, 6159); (6211, 6211); (6277, 6278);
    (6313, 6313); (6432, 6434); (6439, 6440); (6450, 6450); (6457, 6459); (6679, 6680);
    (6683, 6683); (6742, 6742); (6744, 6750); (6752, 6752); (6754, 6754); (6757, 6764);
    (6771, 6780); (6783, 6783); (6823, 6823); (6832, 6862); (6912, 6915); (6964, 6964);
    (6966, 6970); (6972, 6972); (6978, 6978); (7019, 7027); (7040, 7041); (7074, 7077);
    (7080, 7081); (7083, 7085); (7142, 7142); (7144, 7145); (7149, 7149); (7151, 7153);
    (7212, 7219); (7222, 7223); (7288, 7293); (7376, 7378); (7380, 7392); (7394, 7400);
    (7405, 7405); (7412, 7412); (7416, 7417); (7468, 7530); (7544, 7544); (7579, 7679);
    (8125, 8125); (8127, 8129); (8141, 8143); (8157, 8159); (8173, 8175); (8189, 8190);
    (8203, 8207); (8216, 8217); (8228, 8228); (8231, 8231); (8234, 8238); (8288, 8292);
    (8294, 8303); (8305, 8305); (8319, 8319); (8336, 8348); (8400, 8432); (11388, 11389);
    (11503, 11505); (11631, 11631); (11647, 11647); (11744, 11775); (11823, 11823); (12293, 12293);
    (12330, 12333); (12337, 12341); (12347, 12347); (12441, 12446); (12540, 12542); (40981, 40981);
    (42232, 42237); (42508, 42508); (42607, 42610); (42612, 42621); (42623, 42623); (42652, 42655);
    (42736, 42737); (42752, 42785); (42864, 42864); (42888, 42890); (42994, 42996); (43000, 43001);
    (43010, 43010); (43014, 43014); (43019, 43019); (43045, 43046); (43052, 43052); (43204, 43205);
    (43232, 43249); (43263, 43263); (43302, 43309); (43335, 43345); (43392, 43394); (43443, 43443);
    (43446, 43449); (43452, 43453); (43471, 43471); (43493, 43494); (43561, 43566); (43569, 43570);
    (43573, 43574); (43587, 43587); (43596, 43596); (43632, 43632); (43644, 43644); (43696, 43696);
    (43698, 43700); (43703, 43704); (43710, 43711); (43713, 43713); (43741, 43741); (43756, 43757);
    (43763, 43764); (43766, 43766); (43867, 43871); (43881, 43883); (44005, 44005); (44008, 44008);
    (44013, 44013); (64286, 64286); (64434, 64450); (65024, 65039); (65043, 65043); (65056, 65071);
    (65106, 65106); (65109, 65109); (65279, 65279); (65287, 65287); (65294, 65294); (65306, 65306);
    (65342, 65342); (65344, 65344); (65392, 65392); (65438, 65439); (65507, 65507); (65529, 65531);
    (66045, 66045); (66272, 66272); (66422, 66426); (67456, 67461); (67463, 67504); (67506, 67514);
    (68097, 68099); (68101, 68102); (68108, 68111); (68152, 68154); (68159, 68159); (68325, 68326);
    (68900, 68903); (69291, 69292); (69446, 69456); (69506, 69509); (69633, 69633); (69688, 69702);
    (69744, 69744); (69747, 69748); (69759, 69761); (69811, 69814); (69817, 69818); (69821, 69821);
    (69826, 69826); (69837, 69837); (69888, 69890); (69927, 69931); (69933, 69940); (70003, 70003);
    (70016, 70017); (70070, 70078); (70089, 70092); (70095, 70095); (70191, 70193); (70196, 70196);
    (70198, 70199); (70206, 70206); (70367, 70367); (70371, 70378); (70400, 70401); (70459, 70460);
    (70464, 70464); (70502, 70508); (70512, 70516); (70712, 70719); (70722, 70724); (70726, 70726);
    (70750, 70750); (70835, 70840); (70842, 70842); (70847, 70848); (70850, 70851); (71090, 71093);
    (71100, 71101); (71103, 71104); (71132, 71133); (71219, 71226); (71229, 71229); (71231, 71232);
    (71339, 71339); (71341, 71341); (71344, 71349); (71351, 71351); (71453, 71455); (71458, 71461);
    (71463, 71467); (71727, 71735); (71737, 71738); (71995, 71996); (71998, 71998); (72003, 72003);
    (72148, 72151); (72154, 72155); (72160, 72160); (72193, 72202); (72243, 72248); (72251, 72254);
    (72263, 72263); (72273, 72278); (72281, 72283); (72330, 72342); (72344, 72345); (72752, 72758);
    (72760, 72765); (72767, 72767); (72850, 72871); (72874, 72880); (72882, 72883); (72885, 72886);
    (73009, 73014); (73018, 73018); (73020, 73021); (73023, 73029); (73031, 73031); (73104, 73105);
    (73109, 73109); (73111, 73111); (73459, 73460); (78896, 78904); (92912, 92916); (92976, 92982);
    (92992, 92995); (94031, 94031); (94095, 94111); (94176, 94177); (94179, 94180); (110576, 110579);
    (110581, 110587); (110589, 110590); (113821, 113822); (113824, 113827); (118528, 118573); (118576, 118598);
    (119143, 119145); (119155, 119170); (119173, 119179); (119210, 119213); (119362, 119364); (121344, 121398);
    (121403, 121452); (121461, 121461); (121476, 121476); (121499, 121503); (121505, 121519); (122880, 122886);
    (122888, 122904); (122907, 122913); (122915, 122916); (122918, 122922); (123184, 123197); (123566, 123566);
    (123628, 123631); (125136, 125142); (125252, 125259); (127995, 127999); (917505, 917505); (917536, 917631);
    (917760, 917999) ]%N.

(** The simple lowercase mappings (Unicode 14.0.0): [(first, last, step, to)]
    maps [first], [first + step], ..., [last] to [to], [to + step], ... *)
Definition Lowercase_Mapping : list (N * N * N * N) :=
  [ (65, 90, 1, 97); (192, 214, 1, 224); (216, 222, 1, 248); (256, 302, 2, 257);
    (306, 310, 2, 307); (313, 327, 2, 314); (330, 374, 2, 331); (376, 376, 1, 255);
    (377, 381, 2, 378); (385, 385, 1, 595); (386, 388, 2, 387); (390, 390, 1, 596);
    (391, 391, 1, 392); (393, 394, 1, 598); (395, 395, 1, 396); (398, 398, 1, 477);
    (399, 399, 1, 601); (400, 400, 1, 603); (401, 401, 1, 402); (403, 403, 1, 608);
    (404, 404, 1, 611); (406, 406, 1, 617); (407, 407, 1, 616); (408, 408, 1, 409);
    (412, 412, 1, 623); (413, 413, 1, 626); (415, 415, 1, 629); (416, 420, 2, 417);
    (422, 422, 1, 640); (423, 423, 1, 424); (425, 425, 1, 643); (428, 428, 1, 429);
    (430, 430, 1, 648); (431, 431, 1, 432); (433, 434, 1, 650); (435, 437, 2, 436);
    (439, 439, 1, 658); (440, 440, 1, 441); (444, 444, 1, 445); (452, 452, 1, 454);
    (453, 453, 1, 454); (455, 455, 1, 457); (456, 456, 1, 457); (458, 458, 1, 460);
    (459, 475, 2, 460); (478, 494, 2, 479); (497, 497, 1, 499); (498, 500, 2, 499);
    (502, 502, 1, 405); (503, 503, 1, 447); (504, 542, 2, 505); (544, 544, 1, 414);
    (546, 562, 2, 547); (570, 570, 1, 11365); (571, 571, 1, 572); (573, 573, 1, 410);
    (574, 574, 1, 11366); (577, 577, 1, 578); (579, 579, 1, 384); (580, 580, 1, 649);
    (581, 581, 1, 652); (582, 590, 2, 583); (880, 882, 2, 881); (886, 886, 1, 887);
    (895, 895, 1, 1011); (902, 902, 1, 940); (904, 906, 1, 941); (908, 908, 1, 972);
    (910, 911, 1, 973); (913, 929, 1, 945); (931, 939, 1, 963); (975, 975, 1, 983);
    (984, 1006, 2, 985); (1012, 1012, 1, 952); (1015, 1015, 1, 1016); (1017, 1017, 1, 1010);
    (1018, 1018, 1, 1019); (1021, 1023, 1, 891); (1024, 1039, 1, 1104); (1040, 1071, 1, 1072);
    (1120, 1152, 2, 1121); (1162, 1214, 2, 1163); (1216, 1216, 1, 1231); (1217, 1229, 2, 1218);
    (1232, 1326, 2, 1233); (1329, 1366, 1, 1377); (4256, 4293, 1, 11520); (4295, 4295, 1, 11559);
    (4301, 4301, 1, 11565); (5024, 5103, 1, 43888); (5104, 5109, 1, 5112); (7312, 7354, 1, 4304);
    (7357, 7359, 1, 4349); (7680, 7828, 2, 7681); (7838, 7838, 1, 223); (7840, 7934, 2, 7841);
    (7944, 7951, 1, 7936); (7960, 7965, 1, 7952); (7976, 7983, 1, 7968); (7992, 7999, 1, 7984);
    (8008, 8013, 1, 8000); (8025, 8031, 2, 8017); (8040, 8047, 1, 8032); (8072, 8079, 1, 8064);
    (8088, 8095, 1, 8080); (8104, 8111, 1, 8096); (8120, 8121, 1, 8112); (8122, 8123, 1, 8048);
    (8124, 8124, 1, 8115); (8136, 8139, 1, 8050); (8140, 8140, 1, 8131); (8152, 8153, 1, 8144);
    (8154, 8155, 1, 8054); (8168, 8169, 1, 8160); (8170, 8171, 1, 8058); (8172, 8172, 1, 8165);
    (8184, 8185, 1, 8056); (8186, 8187, 1, 8060); (8188, 8188, 1, 8179); (8486, 8486, 1, 969);
    (8490, 8490, 1, 107); (8491, 8491, 1, 229); (8498, 8498, 1, 8526); (8544, 8559, 1, 8560);
    (8579, 8579, 1, 8580); (9398, 9423, 1, 9424); (11264, 11311, 1, 11312); (11360, 11360, 1, 11361);
    (11362, 11362, 1, 619); (11363, 11363, 1, 7549); (11364, 11364, 1, 637); (11367, 11371, 2, 11368);
    (11373, 11373, 1, 593); (11374, 11374, 1, 625); (11375, 11375, 1, 592); (11376, 11376, 1, 594);
    (11378, 11378, 1, 11379); (11381, 11381, 1, 11382); (11390, 11391, 1, 575); (11392, 11490, 2, 11393);
    (11499, 11501, 2, 11500); (11506, 11506, 1, 11507); (42560, 42604, 2, 42561); (42624, 42650, 2, 42625);
    (42786, 42798, 2, 42787); (42802, 42862, 2, 42803); (42873, 42875, 2, 42874); (42877, 42877, 1, 7545);
    (42878, 42886, 2, 42879); (42891, 42891, 1, 42892); (42893, 42893, 1, 613); (42896, 42898, 2, 42897);
    (42902, 42920, 2, 42903); (42922, 42922, 1, 614); (42923, 42923, 1, 604); (42924, 42924, 1, 609);
    (42925, 42925, 1, 620); (42926, 42926, 1, 618); (42928, 42928, 1, 670); (42929, 42929, 1, 647);
    (42930, 42930, 1, 669); (42931, 42931, 1, 43859); (42932, 42946, 2, 42933); (42948, 42948, 1, 42900);
    (42949, 42949, 1, 642); (42950, 42950, 1, 7566); (42951, 42953, 2, 42952); (42960, 42960, 1, 42961);
    (42966, 42968, 2, 42967); (42997, 42997, 1, 42998); (65313, 65338, 1, 65345); (66560, 66599, 1, 66600);
    (66736, 66771, 1, 66776); (66928, 66938, 1, 66967); (66940, 66954, 1, 66979); (66956, 66962, 1, 66995);
    (66964, 66965, 1, 67003); (68736, 68786, 1, 68800); (71840, 71871, 1, 71872); (93760, 93791, 1, 93792);
    (125184, 125217, 1, 125218) ]%N.

(** The one lowercase mapping that is not a single code point: U+0130. *)
Definition lower_full (c : N) : list N :=
  if (c =? 304)%N then [105; 775]%N
  else
    match find (λ m : N * N * N * N,
                  let '(first, last, step, _) := m in
                  (first <=? c)%N && (c <=? last)%N
                  && ((c - first) mod step =? 0)%N) Lowercase_Mapping with
    | Some (first, _, _, to) => [(to + (c - first))%N]
    | None => [c]
    end.

Fixpoint skip_case_ignorable (l : list N) : list N :=
  match l with
  | [] => []
  | c :: l' => if in_ranges c Case_Ignorable then skip_case_ignorable l' else l
  end.

(** U+03A3 is lowered to the final sigma when a cased letter is before it
    and none after it, case-ignorable code points apart.  [before] is what
    precedes, nearest first. *)
Definition final_sigma (before after : list N) : bool :=
  match skip_case_ignorable before with
  | c :: _ => in_ranges c Cased
  | [] => false
  end
  && match skip_case_ignorable after with
     | c :: _ => negb (in_ranges c Cased)
     | [] => true
     end.

Fixpoint lower_points (before l : list N) : list N :=
  match l with
  | [] => []
  | c :: l' =>
      (if (c =? 931)%N
       then [if final_sigma before l' then 962%N else 963%N]
       else lower_full c)
      ++ lower_points (c :: before) l'
  end.

(** [s.lower()] *)
Definition lower (s : string) : string := encode (lower_points [] (decode s)).

(** [str.isspace] of a code point. *)
Definition is_space (c : N) : bool := in_ranges c White_Space.

Fixpoint lstrip_points (l : list N) : list N :=
  match l with
  | [] => []
  | c :: l' => if is_space c then lstrip_points l' else l
  end.

Definition lstrip (s : string) : string := encode (lstrip_points (decode s)).

Definition rstrip (s : string) : string :=
  encode (rev (lstrip_points (rev (decode s)))).

(** [s.strip()] *)
Definition strip (s : string) : string :=
  encode (rev (lstrip_points (rev (lstrip_points (decode s))))).

(** [s.split(sep)] for a one-character separator; [cur] is the field being
    read, reversed.  The result always has at least one field. *)
Fixpoint split_go (sep : ascii) (cur : string) (s : string) : list string :=
  match s with
  | EmptyString => [String.rev cur]
  | String c s' =>
      if Ascii.eqb c sep then String.rev cur :: split_go sep EmptyString s'
      else split_go sep (String c cur) s'
  end.

Definition split (sep : ascii) (s : string) : list string :=
  split_go sep EmptyString s.

(** [bool(s)] for a string. *)
Definition truthy (s : string) : bool :=
  match s with EmptyString => false | String _ _ => true end.

(** [bool(x)] for a value that is [None] or a string. *)
Definition truthy_opt (o : option string) : bool :=
  match o with None => false | Some s => truthy s end.

(** [kw in text] *)
Fixpoint contains (kw text : string) : bool :=
  String.prefix kw text
  || match text with
     | EmptyString => false
     | String _ text' => contains kw text'
     end.

(** [sep.join(l)] *)
Fixpoint join (sep : string) (l : list string) : string :=
  match l with
  | [] => EmptyString
  | [x] => x
  | x :: rest => x +:+ sep +:+ join sep rest
  end.

End Py.

(** ** Rows and tables *)

Record user_row := {
  u_id : nat;
  u_chat_id : string;
  u_name : string;
  u_email : string;
  u_intention : string;
  u_created_at : string;
  u_updated_at : string;
  u_group_id : option string;
  u_group_name : option string;
  u_invite_link : option string
}.

Record group_row := {
  g_id : nat;
  g_group_id : string;
  g_group_name : option string;
  g_invite_link : option string;
  g_created_at : string;
  g_updated_at : string
}.

Record keyword_row := {
  k_id : nat;
  k_user_id : nat;
  k_keyword : string;
  k_created_at : string
}.

Record tweet_row := {
  t_id : nat;
  t_tweet_id : string;
  t_tweet_text : string;
  t_tweet_link : string;
  t_processed_at : string
}.

#[global] Instance user_row_eq_dec : EqDecision user_row.
Proof. solve_decision. Defined.
#[global] Instance group_row_eq_dec : EqDecision group_row.
Proof. solve_decision. Defined.
#[global] Instance keyword_row_eq_dec : EqDecision keyword_row.
Proof. solve_decision. Defined.
#[global] Instance tweet_row_eq_dec : EqDecision tweet_row.
Proof. solve_decision. Defined.

(** The contents of the database file. *)
Record Store := {
  users : list user_row;
  groups : list group_row;
  keywords : list keyword_row;
  tweets : list tweet_row
}.

Definition empty_store : Store :=
  {| users := []; groups := []; keywords := []; tweets := [] |}.

Definition set_users (f : list user_row → list user_row) (s : Store) : Store :=
  {| users := f (users s); groups := groups s;
     keywords := keywords s; tweets := tweets s |}.
Definition set_groups (f : list group_row → list group_row) (s : Store) : Store :=
  {| users := users s; groups := f (groups s);
     keywords := keywords s; tweets := tweets s |}.
Definition set_keywords (f : list keyword_row → list keyword_row) (s : Store) : Store :=
  {| users := users s; groups := groups s;
     keywords := f (keywords s); tweets := tweets s |}.
Definition set_tweets (f : list tweet_row → list tweet_row) (s : Store) : Store :=
  {| users := users s; groups := groups s;
     keywords := keywords s; tweets := f (tweets s) |}.

(** ** SQLite connections *)

Inductive sqlite_error := IntegrityError.

(** [file] is what is on disk, [txn] what the connection sees (the file plus
    its uncommitted statements).  [foreign_keys] is the connection's
    [PRAGMA foreign_keys]. *)
Record Connection := {
  file : Store;
  txn : Store;
  foreign_keys : bool
}.

(** [sqlite3.connect(db_file)]: foreign-key enforcement is off on a new
    connection until the pragma is issued. *)
Definition sqlite3_connect (db_file : Store) : Connection :=
  {| file := db_file; txn := db_file; foreign_keys := false |}.

(** [Database.get_connection]: connects and sets the row factory; no pragma. *)
Definition get_connection (db_file : Store) : Connection :=
  sqlite3_connect db_file.

(** [conn.commit()] *)
Definition commit (conn : Connection) : Connection :=
  {| file := txn conn; txn := txn conn; foreign_keys := foreign_keys conn |}.

(** [conn.close()] in the [finally] of [get_connection]: what was not
    committed is lost. *)
Definition close (conn : Connection) : Store := file conn.

Definition on_txn (f : Store → Store) (conn : Connection) : Connection :=
  {| file := file conn; txn := f (txn conn); foreign_keys := foreign_keys conn |}.

(** Statements that may raise keep the connection as it was at the raise. *)
Definition SQL (A : Type) : Type := Connection → (sqlite_error + A) * Connection.

#[global] Instance SQL_ret : MRet SQL := λ A a conn, (inr a, conn).
#[global] Instance SQL_bind : MBind SQL := λ A B k m conn,
  match m conn with
  | (inl e, conn') => (inl e, conn')
  | (inr a, conn') => k a conn'
  end.

(** A statement that cannot raise. *)
Definition sql_do {A} (f : Connection → A * Connection) : SQL A :=
  λ conn, let '(a, conn') := f conn in (inr a, conn').

(** [with self.get_connection() as conn: body]: the result of the body, or
    the exception it raised, and the file after the connection is closed. *)
Definition with_connection {A} (body : SQL A) (db_file : Store)
  : (sqlite_error + A) * Store :=
  let '(r, conn) := body (get_connection db_file) in (r, close conn).

(** The rowid given to a row inserted in a table with an
    [INTEGER PRIMARY KEY] and no explicit id: one more than the largest. *)
Definition next_rowid (ids : list nat) : nat := S (max_list ids).

(** ** SQL statements *)

(** [x IS NULL OR x = ''] *)
Definition null_or_empty (o : option string) : bool := negb (Py.truthy_opt o).

(** INSERT INTO users (chat_id, name, email, intention, created_at,
    updated_at): [chat_id] is UNIQUE; yields [cursor.lastrowid]. *)
Definition insert_user (chat_id name email intention now : string) : SQL nat :=
  λ conn,
    let us := users (txn conn) in
    if bool_decide (chat_id ∈ u_chat_id <$> us) then (inl IntegrityError, conn)
    else
      let id := next_rowid (u_id <$> us) in
      let row := {| u_id := id; u_chat_id := chat_id; u_name := name;
                    u_email := email; u_intention := intention;
                    u_created_at := now; u_updated_at := now;
                    u_group_id := None; u_group_name := None;
                    u_invite_link := None |} in
      (inr id, on_txn (set_users (λ l, l ++ [row])) conn).

(** INSERT INTO keywords (user_id, keyword, created_at): UNIQUE(user_id,
    keyword); the reference to users(id) is checked only when the
    connection enforces foreign keys. *)
Definition insert_keyword (user_id : nat) (keyword now : string) : SQL nat :=
  λ conn,
    let ks := keywords (txn conn) in
    if bool_decide ((user_id, keyword) ∈ (λ k, (k_user_id k, k_keyword k)) <$> ks)
    then (inl IntegrityError, conn)
    else if foreign_keys conn
            && negb (bool_decide (user_id ∈ u_id <$> users (txn conn)))
    then (inl IntegrityError, conn)
    else
      let id := next_rowid (k_id <$> ks) in
      let row := {| k_id := id; k_user_id := user_id; k_keyword := keyword;
                    k_created_at := now |} in
      (inr id, on_txn (set_keywords (λ l, l ++ [row])) conn).

(** INSERT INTO groups (group_id, group_name, invite_link, created_at,
    updated_at): [group_id] is UNIQUE. *)
Definition insert_group (group_id : string) (group_name invite_link : option string)
    (now : string) : SQL nat :=
  λ conn,
    let gs := groups (txn conn) in
    if bool_decide (group_id ∈ g_group_id <$> gs) then (inl IntegrityError, conn)
    else
      let id := next_rowid (g_id <$> gs) in
      let row := {| g_id := id; g_group_id := group_id;
                    g_group_name := group_name; g_invite_link := invite_link;
                    g_created_at := now; g_updated_at := now |} in
      (inr id, on_txn (set_groups (λ l, l ++ [row])) conn).

(** INSERT INTO tweets (tweet_id, tweet_text, tweet_link, processed_at):
    [tweet_id] is UNIQUE. *)
Definition insert_tweet (tweet_id tweet_text tweet_link now : string) : SQL nat :=
  λ conn,
    let ts := tweets (txn conn) in
    if bool_decide (tweet_id ∈ t_tweet_id <$> ts) then (inl IntegrityError, conn)
    else
      let id := next_rowid (t_id <$> ts) in
      let row := {| t_id := id; t_tweet_id := tweet_id;
                    t_tweet_text := tweet_text; t_tweet_link := tweet_link;
                    t_processed_at := now |} in
      (inr id, on_txn (set_tweets (λ l, l ++ [row])) conn).

(** SELECT id FROM users WHERE chat_id = ?, then [fetchone()]. *)
Definition select_user_by_chat_id (chat_id : string) (conn : Connection)
  : option user_row :=
  head (filter (λ u, u_chat_id u = chat_id) (users (txn conn))).

(** DELETE FROM users WHERE chat_id = ?.  The keyword rows of a deleted user
    go with it (ON DELETE CASCADE) when the connection enforces foreign
    keys, and stay otherwise. *)
Definition delete_users_where_chat_id (chat_id : string) (conn : Connection)
  : Connection :=
  let gone := u_id <$> filter (λ u, u_chat_id u = chat_id) (users (txn conn)) in
  let conn' := on_txn (set_users (filter (λ u, u_chat_id u ≠ chat_id))) conn in
  if foreign_keys conn
  then on_txn (set_keywords (filter (λ k, k_user_id k ∉ gone))) conn'
  else conn'.

(** Texts in ascending order, compared bytewise: [sorted(l)] of Python and
    the order of an SQLite index on a TEXT column. *)
Definition sorted (l : list string) : list string := merge_sort String.le l.

(** The rows of a result without those met before: DISTINCT. *)
Fixpoint distinct_from {A} `{EqDecision A} (seen l : list A) : list A :=
  match l with
  | [] => []
  | x :: l' =>
      if decide (x ∈ seen) then distinct_from seen l'
      else x :: distinct_from (x :: seen) l'
  end.

Definition distinct {A} `{EqDecision A} (l : list A) : list A := distinct_from [] l.

(** SELECT keyword FROM keywords WHERE user_id = ?.  The index of
    UNIQUE(user_id, keyword) covers the query and SQLite answers from it:
    the keywords come in the order of the index, ascending. *)
Definition select_keywords_of (user_id : nat) (s : Store) : list string :=
  sorted (k_keyword <$> filter (λ k, k_user_id k = user_id) (keywords s)).

(** UPDATE groups SET group_name, invite_link, updated_at WHERE group_id = ?;
    yields [cursor.rowcount]. *)
Definition update_groups_where_group_id (group_id : string)
    (group_name invite_link : option string) (now : string) (conn : Connection)
  : nat * Connection :=
  let hit g := bool_decide (g_group_id g = group_id) in
  (length (filter (λ g, hit g = true) (groups (txn conn))),
   on_txn (set_groups (fmap (λ g,
     if hit g
     then {| g_id := g_id g; g_group_id := g_group_id g;
             g_group_name := group_name; g_invite_link := invite_link;
             g_created_at := g_created_at g; g_updated_at := now |}
     else g))) conn).

(** UPDATE users SET group_id, group_name, invite_link, updated_at
    WHERE chat_id = ?; yields [cursor.rowcount]. *)
Definition update_users_where_chat_id (chat_id : string)
    (group_id group_name invite_link : option string) (now : string)
    (conn : Connection) : nat * Connection :=
  let hit u := bool_decide (u_chat_id u = chat_id) in
  (length (filter (λ u, hit u = true) (users (txn conn))),
   on_txn (set_users (fmap (λ u,
     if hit u
     then {| u_id := u_id u; u_chat_id := u_chat_id u; u_name := u_name u;
             u_email := u_email u; u_intention := u_intention u;
             u_created_at := u_created_at u; u_updated_at := now;
             u_group_id := group_id; u_group_name := group_name;
             u_invite_link := invite_link |}
     else u))) conn).

(** ORDER BY created_at ASC LIMIT 1 over a non-empty selection: the text
    comparison is bytewise; among equal timestamps the row met first in
    rowid order is kept. *)
Fixpoint oldest_created (best : user_row) (l : list user_row) : user_row :=
  match l with
  | [] => best
  | u :: l' =>
      oldest_created
        (if String.ltb (u_created_at u) (u_created_at best) then u else best) l'
  end.

(** users u JOIN keywords k ON u.id = k.user_id WHERE k.keyword IN (...).
    SQLite takes the values of the IN list in ascending order, once each;
    for each it reads the keyword rows from idx_keywords_keyword, in rowid
    order, and looks the user of each row up by its rowid. *)
Definition join_users_keywords (s : Store) (matching_keywords : list string)
  : list (user_row * keyword_row) :=
  keyword ← sorted (distinct matching_keywords);
  k ← filter (λ k, k_keyword k = keyword) (keywords s);
  (λ u, (u, k)) <$> filter (λ u, u_id u = k_user_id k) (users s).

(** ORDER BY created_at DESC: a row goes before the first row that is not
    newer than it, so rows of one timestamp stay in rowid order. *)
Fixpoint insert_by_created_at_desc (u : user_row) (l : list user_row)
  : list user_row :=
  match l with
  | [] => [u]
  | v :: l' =>
      if String.ltb (u_created_at u) (u_created_at v)
      then v :: insert_by_created_at_desc u l'
      else u :: l
  end.

Definition order_by_created_at_desc (l : list user_row) : list user_row :=
  foldr insert_by_created_at_desc [] l.

(** ** The files *)

(** The database file and the files of the directory [backups], by name.
    Other files of the machine are not modelled: a path outside [backups]
    is taken not to exist. *)
Record Disk := {
  database : Store;
  backups : gmap string Store
}.

(** [s.startswith(p)] *)
Definition startswith (p s : string) : bool := String.prefix p s.

(** What follows [p] in [s], when [s] starts with [p]. *)
Fixpoint strip_prefix (p s : string) : option string :=
  match p, s with
  | EmptyString, _ => Some s
  | String a p', String b s' => if Ascii.eqb a b then strip_prefix p' s' else None
  | String _ _, EmptyString => None
  end.

(** [[f for f in os.listdir("backups") if f.startswith("backup_")]], in
    some order. *)
Definition listdir_backups (d : Disk) : list string :=
  filter (λ f, startswith "backup_" f = true) (elements (dom (backups d))).

(** [os.remove] of each name, in turn. *)
Fixpoint remove_all (names : list string) (dir : gmap string Store)
  : gmap string Store :=
  match names with
  | [] => dir
  | old_backup :: rest => remove_all rest (delete old_backup dir)
  end.

(** A path as a file of [backups]. *)
Definition read_path (path : string) (d : Disk) : option Store :=
  match strip_prefix "backups/" path with
  | Some name => backups d !! name
  | None => None
  end.

(** ** The [Database] methods *)

Module Database.

(** [for keyword in keyword_list: INSERT INTO keywords ...] *)
Fixpoint insert_keywords (user_id : nat) (keyword_list : list string)
    (now : string) : SQL () :=
  match keyword_list with
  | [] => mret ()
  | keyword :: rest =>
      insert_keyword user_id (Py.lower keyword) now ;;
      insert_keywords user_id rest now
  end.

(** [keyword_list = [k.strip() for k in keywords.split(",") if k.strip()]] *)
Definition keyword_list (keywords : string) : list string :=
  Py.strip <$> filter (λ k, Py.truthy (Py.strip k) = true) (Py.split "," keywords).

(** [add_user]: [Some user_id], or [None] where the method returns [None]
    from its [except sqlite3.IntegrityError]. *)
Definition add_user (chat_id name email intention keywords now : string)
    (db_file : Store) : option nat * Store :=
  match with_connection
          (user_id ← insert_user chat_id name email intention now;
           insert_keywords user_id (keyword_list keywords) now ;;
           sql_do (λ conn, ((), commit conn)) ;;
           mret user_id) db_file
  with
  | (inr user_id, db_file') => (Some user_id, db_file')
  | (inl IntegrityError, db_file') => (None, db_file')
  end.

(** [get_user_by_chat_id]: the row and its keywords. *)
Definition get_user_by_chat_id (chat_id : string) (db_file : Store)
  : option (user_row * list string) :=
  let conn := get_connection db_file in
  match select_user_by_chat_id chat_id conn with
  | Some user => Some (user, select_keywords_of (u_id user) (txn conn))
  | None => None
  end.

Definition remove_user (chat_id : string) (db_file : Store) : bool * Store :=
  let conn := get_connection db_file in
  match select_user_by_chat_id chat_id conn with
  | None => (false, close conn)
  | Some _ =>
      let conn := delete_users_where_chat_id chat_id conn in
      let conn := commit conn in
      (true, close conn)
  end.

Definition update_user_group (chat_id group_id group_name invite_link now : string)
    (db_file : Store) : bool * Store :=
  let conn := get_connection db_file in
  let '(rowcount, conn) :=
    update_users_where_chat_id chat_id (Some group_id) (Some group_name)
      (Some invite_link) now conn in
  let conn := commit conn in
  (bool_decide (0 < rowcount), close conn).

Definition add_group (group_id : string) (group_name invite_link : option string)
    (now : string) (db_file : Store) : option nat * Store :=
  match with_connection
          (rowid ← insert_group group_id group_name invite_link now;
           sql_do (λ conn, ((), commit conn)) ;;
           mret rowid) db_file
  with
  | (inr rowid, db_file') => (Some rowid, db_file')
  | (inl IntegrityError, db_file') => (None, db_file')
  end.

Definition update_group (group_id : string) (group_name invite_link : option string)
    (now : string) (db_file : Store) : bool * Store :=
  let conn := get_connection db_file in
  let '(rowcount, conn) :=
    update_groups_where_group_id group_id group_name invite_link now conn in
  let conn := commit conn in
  (bool_decide (0 < rowcount), close conn).

Definition get_incomplete_groups (db_file : Store) : list group_row :=
  let conn := get_connection db_file in
  filter (λ g, null_or_empty (g_group_name g) || null_or_empty (g_invite_link g) = true)
         (groups (txn conn)).

Definition get_user_without_group (db_file : Store)
  : option (user_row * list string) :=
  let conn := get_connection db_file in
  match filter (λ u, null_or_empty (u_group_id u) = true) (users (txn conn)) with
  | [] => None
  | u :: rest =>
      let user := oldest_created u rest in
      Some (user, select_keywords_of (u_id user) (txn conn))
  end.

Definition add_tweet (tweet_id tweet_text tweet_link now : string)
    (db_file : Store) : bool * Store :=
  match with_connection
          (insert_tweet tweet_id tweet_text tweet_link now ;;
           sql_do (λ conn, ((), commit conn)) ;;
           mret true) db_file
  with
  | (inr b, db_file') => (b, db_file')
  | (inl IntegrityError, db_file') => (false, db_file')
  end.

Definition is_tweet_processed (tweet_id : string) (db_file : Store) : bool :=
  let conn := get_connection db_file in
  bool_decide (is_Some (head (filter (λ t, t_tweet_id t = tweet_id) (tweets (txn conn))))).

Definition find_users_by_keywords (tweet_text : string) (db_file : Store)
  : list user_row :=
  let tweet_text_lower := Py.lower tweet_text in
  let conn := get_connection db_file in
  (* SELECT DISTINCT keyword FROM keywords: a scan of idx_keywords_keyword *)
  let all_keywords := sorted (distinct (k_keyword <$> keywords (txn conn))) in
  let matching_keywords :=
    filter (λ kw, Py.contains kw tweet_text_lower = true) all_keywords in
  match matching_keywords with
  | [] => []
  | _ :: _ =>
      (* SELECT DISTINCT u.* FROM users u JOIN keywords k ON u.id = k.user_id
         WHERE k.keyword IN (...) AND u.group_id IS NOT NULL
         AND u.group_id != '' *)
      distinct
        (fst <$> filter (λ uk, null_or_empty (u_group_id uk.1) = false)
                        (join_users_keywords (txn conn) matching_keywords))
  end.

(** [list_users]: every row of users, newest first; with [with_keywords]
    each row carries its ['keywords'] entry. *)
Definition list_users (with_keywords : bool) (db_file : Store)
  : list (user_row * option (list string)) :=
  let conn := get_connection db_file in
  let users := order_by_created_at_desc (users (txn conn)) in
  if with_keywords
  then (λ user, (user, Some (select_keywords_of (u_id user) (txn conn)))) <$> users
  else (λ user, (user, None)) <$> users.

(** [backup_database]; [timestamp] is
    [datetime.now().strftime("%Y%m%d_%H%M%S")]. *)
Definition backup_database (timestamp : string) (d : Disk) : option string * Disk :=
  let backup_dir := "backups" in
  let name := "backup_" +:+ timestamp +:+ ".db" in
  let backup_file := backup_dir +:+ "/" +:+ name in
  (* shutil.copy2(self.db_file, backup_file) *)
  let d := {| database := database d; backups := <[name := database d]> (backups d) |} in
  let backups_sorted := sorted (listdir_backups d) in
  let d :=
    if bool_decide (5 < length backups_sorted)
    then {| database := database d;
            backups := remove_all (take (length backups_sorted - 5) backups_sorted)
                         (backups d) |}
    else d in
  (Some backup_file, d).

(** [restore_database] *)
Definition restore_database (backup_file : string) (d : Disk) : bool * Disk :=
  match read_path backup_file d with
  | None => (false, d)
  | Some content => (true, {| database := content; backups := backups d |})
  end.

End Database.

(** ** The request handler and the group monitor *)

(** The form of a tweet notification: [request.form.get(...)]. *)
Record Request := {
  form_link : option string;
  form_text : option string;
  form_id : option string
}.

Inductive Response :=
| BadRequest          (* 400, "Fields 'link' and 'text' are required" *)
| AlreadyProcessed    (* 200, "Tweet already processed" *)
| Processed (delivery_count matching_users unique_groups : nat). (* 200 *)

(** A call to the Telegram API and what came of it. *)
Inductive event :=
| SendMessage (chat_id text : string) (ok : bool)
| CreateChatInviteLink (group_id : string) (link : option string).

#[global] Instance event_eq_dec : EqDecision event.
Proof. solve_decision. Defined.

Definition newline : string := String (ascii_of_nat 10) EmptyString.

(** [MESSAGES["new_tweet"].format(tweet_text=..., tweet_link=...)] *)
Definition MESSAGES_new_tweet (tweet_text tweet_link : string) : string :=
  "🔔 *Nova Notificação Encontrada!*" +:+ newline +:+ newline +:+ tweet_text
  +:+ newline +:+ newline +:+ "🔗 [Ver no Twitter/X](" +:+ tweet_link +:+ ")".

(** [MESSAGES["group_invitation"].format(invite_link=...)] *)
Definition MESSAGES_group_invitation (invite_link : string) : string :=
  "🚀 Seu grupo foi criado!" +:+ newline +:+ newline
  +:+ "Clique no link abaixo para entrar no seu grupo personalizado de notificações:"
  +:+ newline +:+ newline +:+ invite_link +:+ newline +:+ newline
  +:+ "Lá você receberá apenas notificações relacionadas aos seus interesses.".

Section Bot.

(** Everything outside the process: the Telegram servers and the clock. *)
Variable World : Type.
(** [bot.send_message(chat_id, text, ...)]: [false] when it raises. *)
Variable bot_send_message : string → string → World → bool * World.
(** [bot.create_chat_invite_link(group_id, ...).invite_link]: [None] when
    it raises. *)
Variable bot_create_chat_invite_link : string → World → option string * World.
(** [datetime.now().isoformat()] *)
Variable datetime_now : World → string * World.
(** [hashlib.md5(s.encode()).hexdigest()] *)
Variable md5_hexdigest : string → string.

Record Env := {
  db_file : Store;
  world : World;
  api_log : list event
}.

Definition M (A : Type) : Type := Env → A * Env.

#[global] Instance M_ret : MRet M := λ A a env, (a, env).
#[global] Instance M_bind : MBind M := λ A B k m env,
  let '(a, env') := m env in k a env'.

(** A [Database] method that only reads. *)
Definition db_read {A} (f : Store → A) : M A := λ env, (f (db_file env), env).

(** A [Database] method that reads the clock first and may write. *)
Definition db_call {A} (f : string → Store → A * Store) : M A := λ env,
  let '(now, w) := datetime_now (world env) in
  let '(a, s) := f now (db_file env) in
  (a, {| db_file := s; world := w; api_log := api_log env |}).

Definition api_send_message (chat_id text : string) : M bool := λ env,
  let '(ok, w) := bot_send_message chat_id text (world env) in
  (ok, {| db_file := db_file env; world := w;
          api_log := api_log env ++ [SendMessage chat_id text ok] |}).

Definition api_create_chat_invite_link (group_id : string) : M (option string) :=
  λ env,
  let '(link, w) := bot_create_chat_invite_link group_id (world env) in
  (link, {| db_file := db_file env; world := w;
            api_log := api_log env ++ [CreateChatInviteLink group_id link] |}).

(** *** bot_handlers.py *)

Definition send_tweet_to_group (group_id tweet_text tweet_link : string) : M bool :=
  api_send_message group_id (MESSAGES_new_tweet tweet_text tweet_link).

Definition send_invite (chat_id invite_link : string) : M bool :=
  api_send_message chat_id (MESSAGES_group_invitation invite_link).

Definition generate_invite_link (group_id : string) : M (option string) :=
  api_create_chat_invite_link group_id.

(** *** webhook.py *)

(** The loop [for user in users] of [process_tweet_notification], from the
    current [delivery_count] and [processed_groups]. *)
Fixpoint fan_out (users : list user_row) (tweet_text tweet_link : string)
    (delivery_count : nat) (processed_groups : gset string)
  : M (nat * gset string) :=
  match users with
  | [] => mret (delivery_count, processed_groups)
  | user :: rest =>
      let group_id := u_group_id user in
      match group_id with
      | Some group_id =>
          if negb (Py.truthy group_id) || bool_decide (group_id ∈ processed_groups)
          then fan_out rest tweet_text tweet_link delivery_count processed_groups
          else
            ok ← send_tweet_to_group group_id tweet_text tweet_link;
            if ok : bool
            then fan_out rest tweet_text tweet_link
                   (delivery_count + 1) (processed_groups ∪ {[group_id]})
            else fan_out rest tweet_text tweet_link delivery_count processed_groups
      | None => fan_out rest tweet_text tweet_link delivery_count processed_groups
      end
  end.

(** [tweet_id], as given or derived from the link and the text. *)
Definition tweet_id_of (tweet_id : option string) (tweet_link tweet_text : string)
  : string :=
  match tweet_id with
  | Some i => if Py.truthy i then i else md5_hexdigest (tweet_link +:+ ":" +:+ tweet_text)
  | None => md5_hexdigest (tweet_link +:+ ":" +:+ tweet_text)
  end.

Definition process_tweet_notification (request : Request) : M Response :=
  match form_link request, form_text request with
  | Some tweet_link, Some tweet_text =>
      if negb (Py.truthy tweet_link) || negb (Py.truthy tweet_text)
      then mret BadRequest
      else
        let tweet_id := tweet_id_of (form_id request) tweet_link tweet_text in
        processed ← db_read (Database.is_tweet_processed tweet_id);
        if processed : bool then mret AlreadyProcessed
        else
          users ← db_read (Database.find_users_by_keywords tweet_text);
          r ← fan_out users tweet_text tweet_link 0 ∅;
          db_call (Database.add_tweet tweet_id tweet_text tweet_link) ;;
          mret (Processed r.1 (length users) (size r.2))
  | _, _ => mret BadRequest
  end.

(** *** monitor.py *)

(** The loop [for group in incomplete_groups] of
    [GroupMonitor._process_groups]; [break] ends it. *)
Fixpoint process_each_group (incomplete_groups : list group_row) : M () :=
  match incomplete_groups with
  | [] => mret ()
  | group :: rest =>
      let group_id := g_group_id group in
      if Py.truthy_opt (g_group_name group) && Py.truthy_opt (g_invite_link group)
      then process_each_group rest
      else
        user ← db_read Database.get_user_without_group;
        match user with
        | None => mret ()
        | Some (user, user_keywords) =>
            invite_link ← generate_invite_link group_id;
            match invite_link with
            | Some invite_link =>
                if negb (Py.truthy invite_link) then process_each_group rest
                else
                  let keywords :=
                    match user_keywords with
                    | [] => "Geral"
                    | _ :: _ => Py.join ", " (take 3 user_keywords)
                    end in
                  let group_name :=
                    "Grupo de " +:+ u_name user +:+ " - " +:+ keywords in
                  updated ← db_call (Database.update_group group_id
                                       (Some group_name) (Some invite_link));
                  if updated : bool
                  then
                    assigned ← db_call (Database.update_user_group
                                          (u_chat_id user) group_id group_name
                                          invite_link);
                    if assigned : bool
                    then send_invite (u_chat_id user) invite_link ;;
                         process_each_group rest
                    else process_each_group rest
                  else process_each_group rest
            | None => process_each_group rest
            end
        end
  end.

Definition _process_groups : M () :=
  incomplete_groups ← db_read Database.get_incomplete_groups;
  match incomplete_groups with
  | [] => mret ()
  | _ :: _ => process_each_group incomplete_groups
  end.

End Bot.

Arguments db_file {World} _.
Arguments world {World} _.
Arguments api_log {World} _.

(** ** The rest of monitor.py, and the writers of the store *)

Section App.

Variable World : Type.
Variable bot_send_message : string → string → World → bool * World.
Variable bot_create_chat_invite_link : string → World → option string * World.
Variable datetime_now : World → string * World.
Variable md5_hexdigest : string → string.

(** A [Database] method that may write and does not read the clock. *)
Definition db_write {A} (f : Store → A * Store) : M World A := λ env,
  let '(a, s) := f (db_file env) in
  (a, {| db_file := s; world := world env; api_log := api_log env |}).

(** SELECT * FROM groups WHERE group_id = ?, then [fetchone()]. *)
Definition select_group_by_group_id (group_id : string) (db_file : Store)
  : option group_row :=
  head (filter (λ g, g_group_id g = group_id) (groups (txn (get_connection db_file)))).

(** [process_group(group_id, force_update)] of monitor.py. *)
Definition process_group (group_id : string) (force_update : bool) : M World bool :=
  group ← db_read World (select_group_by_group_id group_id);
  match group with
  | None =>
      db_call World datetime_now (Database.add_group group_id None None) ;;
      mret true
  | Some group =>
      if force_update || negb (Py.truthy_opt (g_invite_link group))
      then
        invite_link ← generate_invite_link World bot_create_chat_invite_link group_id;
        match invite_link with
        | Some invite_link =>
            if Py.truthy invite_link
            then db_call World datetime_now
                   (Database.update_group group_id (g_group_name group)
                      (Some invite_link)) ;;
                 mret true
            else mret true
        | None => mret true
        end
      else mret true
  end.

(** The places where the application writes to the store:
    [db.add_user] in the registration conversation, [db.remove_user] in the
    removal handlers, [db.add_group] in the /addgroup command,
    [process_group], a tweet notification and a cycle of the monitor. *)
Inductive app_event :=
| Ev_add_user (chat_id name email intention keywords : string)
| Ev_remove_user (chat_id : string)
| Ev_add_group (group_id : string)
| Ev_process_group (group_id : string) (force_update : bool)
| Ev_notification (request : Request)
| Ev_monitor_cycle.

Definition handle_event (e : app_event) : M World () :=
  match e with
  | Ev_add_user chat_id name email intention keywords =>
      db_call World datetime_now
        (Database.add_user chat_id name email intention keywords) ;; mret ()
  | Ev_remove_user chat_id =>
      db_write (Database.remove_user chat_id) ;; mret ()
  | Ev_add_group group_id =>
      db_call World datetime_now (Database.add_group group_id None None) ;; mret ()
  | Ev_process_group group_id force_update =>
      process_group group_id force_update ;; mret ()
  | Ev_notification request =>
      process_tweet_notification World bot_send_message datetime_now md5_hexdigest
        request ;; mret ()
  | Ev_monitor_cycle =>
      _process_groups World bot_send_message bot_create_chat_invite_link datetime_now
  end.

(** The events one after the other. *)
Fixpoint handle_events (events : list app_event) (env : Env World) : Env World :=
  match events with
  | [] => env
  | e :: rest => handle_events rest (handle_event e env).2
  end.

End App.

(** ** The registration conversation of bot_handlers.py *)

Inductive ConversationState :=
| AWAITING_NAME
| AWAITING_EMAIL
| AWAITING_INTENTION
| AWAITING_INTERESTS
| AWAITING_ADMIN_COMMAND.

(** The [data] dict of a conversation: a key that is absent is [None];
    [update_mode] is [data.get("update_mode")] as a truth value. *)
Record ConversationData := {
  d_name : option string;
  d_email : option string;
  d_intention : option string;
  d_keywords : option string;
  d_update_mode : bool;
  d_user_id : option nat
}.

Definition no_data : ConversationData :=
  {| d_name := None; d_email := None; d_intention := None; d_keywords := None;
     d_update_mode := false; d_user_id := None |}.

Record StateInfo := {
  st_state : ConversationState;
  st_data : ConversationData
}.

(** A text message: [message.chat.id] and [message.text]. *)
Record Message := {
  m_chat_id : Z;
  m_text : string
}.

(** How a handler ends: it returns, or an exception leaves it. *)
Inductive outcome := Returned | Raised.

#[global] Instance outcome_eq_dec : EqDecision outcome.
Proof. solve_decision. Defined.

Definition MESSAGES_welcome : string :=
  "👋 Bem-vindo ao Bot de Notificações! Vamos configurar suas preferências para enviar atualizações personalizadas.".
Definition MESSAGES_ask_name : string :=
  "Para começarmos, por favor, informe seu nome completo:".
Definition MESSAGES_ask_email (name : string) : string :=
  "Obrigado, " +:+ name +:+ "! Agora, por favor, informe seu e-mail para contato:".
Definition MESSAGES_ask_intention : string :=
  "Ótimo! Agora, conte-nos qual é a sua intenção ao usar nosso serviço:".
Definition MESSAGES_ask_interests : string :=
  "Por último, informe seus interesses utilizando palavras-chave separadas por vírgula (exemplo: tecnologia, marketing, startups):".
Definition MESSAGES_registration_complete (name email intention keywords : string)
  : string :=
  "✅ Cadastro concluído com sucesso!" +:+ newline +:+ newline
  +:+ "Seu perfil foi registrado com os seguintes dados:" +:+ newline +:+ newline
  +:+ "👤 Nome: " +:+ name +:+ newline
  +:+ "📧 E-mail: " +:+ email +:+ newline
  +:+ "🎯 Intenção: " +:+ intention +:+ newline
  +:+ "🔑 Interesses: " +:+ keywords +:+ newline +:+ newline
  +:+ "Você receberá um link para o seu grupo em breve. Obrigado por se cadastrar!".
Definition registration_failed_text : string :=
  "❌ Ocorreu um erro ao salvar seus dados. Por favor, tente novamente mais tarde.".
Definition interests_updated_text (keywords : string) : string :=
  "✅ Seus interesses foram atualizados para: " +:+ keywords.
Definition welcome_back_text (name : string) : string :=
  "Bem-vindo de volta, " +:+ name
  +:+ "! Seu perfil já está configurado. Você receberá notificações com base em seus interesses.".
Definition not_registered_text : string :=
  "Você ainda não está registrado. Use o comando /start para se registrar.".
Definition update_prompt_text : string :=
  "Vamos atualizar seus interesses. Por favor, informe suas palavras-chave de interesse separadas por vírgula:".

Section Handlers.

Variable World : Type.
Variable bot_send_message : string → string → World → bool * World.
Variable datetime_now : World → string * World.

(** The module-level dict [user_states] and the rest. *)
Record HandlerState := {
  user_states : gmap Z StateInfo;
  h_env : Env World
}.

Definition Handler : Type := HandlerState → outcome * HandlerState.

(** [bot.send_message(chat_id, text)] in a handler, followed by [k]: an
    exception of the send leaves the handler. *)
Definition send_then (chat_id : Z) (text : string) (k : Handler) : Handler :=
  λ h,
    let '(ok, e) := api_send_message World bot_send_message (pretty chat_id) text (h_env h) in
    let h' := {| user_states := user_states h; h_env := e |} in
    if ok : bool then k h' else (Raised, h').

Definition set_state (chat_id : Z) (info : StateInfo) (h : HandlerState)
  : HandlerState :=
  {| user_states := <[chat_id := info]> (user_states h); h_env := h_env h |}.

(** [del user_states[chat_id]]; the key is there wherever the handlers do it. *)
Definition del_state (chat_id : Z) (h : HandlerState) : HandlerState :=
  {| user_states := delete chat_id (user_states h); h_env := h_env h |}.

Definition returned : Handler := λ h, (Returned, h).

(** The handler of the admin menu, which [handle_conversation] calls. *)
Variable handle_admin_conversation : Message → ConversationData → Handler.

(** [handle_start] *)
Definition handle_start (message : Message) : Handler := λ h,
  let chat_id := m_chat_id message in
  match Database.get_user_by_chat_id (pretty chat_id) (db_file (h_env h)) with
  | Some (user, _) => send_then chat_id (welcome_back_text (u_name user)) returned h
  | None =>
      let h := set_state chat_id {| st_state := AWAITING_NAME; st_data := no_data |} h in
      send_then chat_id MESSAGES_welcome
        (send_then chat_id MESSAGES_ask_name returned) h
  end.

(** [handle_update] *)
Definition handle_update (message : Message) : Handler := λ h,
  let chat_id := m_chat_id message in
  match Database.get_user_by_chat_id (pretty chat_id) (db_file (h_env h)) with
  | None => send_then chat_id not_registered_text returned h
  | Some (user, _) =>
      let h := set_state chat_id
                 {| st_state := AWAITING_INTERESTS;
                    st_data := {| d_name := Some (u_name user);
                               d_email := Some (u_email user);
                               d_intention := Some (u_intention user);
                               d_keywords := None;
                               d_update_mode := true;
                               d_user_id := Some (u_id user) |} |} h in
      send_then chat_id update_prompt_text returned h
  end.

(** [handle_conversation] *)
Definition handle_conversation (message : Message) : Handler := λ h,
  let chat_id := m_chat_id message in
  match user_states h !! chat_id with
  | None => (Returned, h)
  | Some state_info =>
      let data := st_data state_info in
      match st_state state_info with
      | AWAITING_ADMIN_COMMAND => handle_admin_conversation message data h
      | AWAITING_NAME =>
          let name := Py.strip (m_text message) in
          let data := {| d_name := Some name; d_email := d_email data;
                         d_intention := d_intention data;
                         d_keywords := d_keywords data;
                         d_update_mode := d_update_mode data;
                         d_user_id := d_user_id data |} in
          let h := set_state chat_id {| st_state := AWAITING_EMAIL; st_data := data |} h in
          send_then chat_id (MESSAGES_ask_email name) returned h
      | AWAITING_EMAIL =>
          let email := Py.strip (m_text message) in
          let data := {| d_name := d_name data; d_email := Some email;
                         d_intention := d_intention data;
                         d_keywords := d_keywords data;
                         d_update_mode := d_update_mode data;
                         d_user_id := d_user_id data |} in
          let h := set_state chat_id {| st_state := AWAITING_INTENTION; st_data := data |} h in
          send_then chat_id MESSAGES_ask_intention returned h
      | AWAITING_INTENTION =>
          let intention := Py.strip (m_text message) in
          let data := {| d_name := d_name data; d_email := d_email data;
                         d_intention := Some intention;
                         d_keywords := d_keywords data;
                         d_update_mode := d_update_mode data;
                         d_user_id := d_user_id data |} in
          let h := set_state chat_id {| st_state := AWAITING_INTERESTS; st_data := data |} h in
          send_then chat_id MESSAGES_ask_interests returned h
      | AWAITING_INTERESTS =>
          let keywords := Py.strip (m_text message) in
          let data := {| d_name := d_name data; d_email := d_email data;
                         d_intention := d_intention data;
                         d_keywords := Some keywords;
                         d_update_mode := d_update_mode data;
                         d_user_id := d_user_id data |} in
          let h := set_state chat_id {| st_state := AWAITING_INTERESTS; st_data := data |} h in
          if d_update_mode data
          then
            send_then chat_id (interests_updated_text keywords)
              (λ h, (Returned, del_state chat_id h)) h
          else
            match d_name data, d_email data, d_intention data with
            | Some name, Some email, Some intention =>
                let '(user_id, e) :=
                  db_call World datetime_now
                    (Database.add_user (pretty chat_id) name email intention keywords)
                    (h_env h) in
                let h := {| user_states := user_states h; h_env := e |} in
                send_then chat_id
                  (match user_id with
                   | Some _ =>
                       MESSAGES_registration_complete name email intention keywords
                   | None => registration_failed_text
                   end)
                  (λ h, (Returned, del_state chat_id h)) h
            | _, _, _ => (Raised, h)   (* KeyError *)
            end
      end
  end.

End Handlers.

Arguments user_states {World} _.
Arguments h_env {World} _.

(** ** Locks *)

Module Locking.

(** A [Database] object: its file and its [threading.Lock], which is named
    by the order in which the locks of the process are created. *)
Record DatabaseObject := {
  obj_file : string;
  db_lock : nat
}.

(** [Database.__init__(db_file)]: [self.db_lock = Lock()] makes a lock of the
    object's own.  [locks] counts the locks made so far. *)
Definition Database__init__ (db_file : string) (locks : nat) : DatabaseObject * nat :=
  ({| obj_file := db_file; db_lock := locks |}, S locks).

(** The module-level [db = Database()] of each module. *)
Record Modules := {
  bot_handlers_db : DatabaseObject;
  webhook_db : DatabaseObject;
  monitor_db : DatabaseObject;
  admin_commands_db : DatabaseObject;
  main_db : DatabaseObject
}.

(** The imports of [main.py], in order: bot_handlers, webhook, monitor,
    admin_commands, then the [db] of [main] itself. *)
Definition import_main : Modules :=
  let '(d1, n) := Database__init__ "bot_database.db" 0 in
  let '(d2, n) := Database__init__ "bot_database.db" n in
  let '(d3, n) := Database__init__ "bot_database.db" n in
  let '(d4, n) := Database__init__ "bot_database.db" n in
  let '(d5, n) := Database__init__ "bot_database.db" n in
  {| bot_handlers_db := d1; webhook_db := d2; monitor_db := d3;
     admin_commands_db := d4; main_db := d5 |}.

(** What a thread does next. *)
Inductive action :=
| Acquire (lock : nat)        (* enter [with self.db_lock] *)
| Release (lock : nat)        (* leave it *)
| Execute (db_file : string)  (* [cursor.execute] of a statement that writes *)
| Commit (db_file : string)   (* [conn.commit()] *)
| Copy (db_file : string).    (* [shutil.copy2(self.db_file, backup_file)] *)

#[global] Instance action_eq_dec : EqDecision action.
Proof. solve_decision. Defined.

(** A method that writes, such as [update_group] or [add_tweet]:
    [with self.get_connection() as conn: execute; commit]. *)
Definition writing_method (db : DatabaseObject) : list action :=
  [Acquire (db_lock db); Execute (obj_file db); Commit (obj_file db);
   Release (db_lock db)].

(** [backup_database]: [with self.db_lock: shutil.copy2(...)]. *)
Definition backup_database (db : DatabaseObject) : list action :=
  [Acquire (db_lock db); Copy (obj_file db); Release (db_lock db)].

(** [init_db]: inside its own [with self.get_connection()], it calls
    [add_admin_if_not_exists], which enters [self.get_connection()] again. *)
Definition init_db (db : DatabaseObject) : list action :=
  [Acquire (db_lock db); Execute (obj_file db); Commit (obj_file db);
   Acquire (db_lock db); Release (db_lock db); Release (db_lock db)].

(** The locks held, and what each thread has still to do. *)
Record state := {
  held : list nat;
  threads : list (list action)
}.

#[global] Instance state_eq_dec : EqDecision state.
Proof. solve_decision. Defined.

(** Thread [i] does its next action.  A [threading.Lock] is not re-entrant:
    [Acquire] of a held lock blocks, whoever holds it. *)
Definition step (i : nat) (st : state) : option state :=
  match threads st !! i with
  | Some (a :: rest) =>
      let go h := Some {| held := h; threads := <[i := rest]> (threads st) |} in
      match a with
      | Acquire l => if bool_decide (l ∈ held st) then None else go (l :: held st)
      | Release l => go (filter (λ l', l' ≠ l) (held st))
      | _ => go (held st)
      end
  | _ => None
  end.

Fixpoint run (schedule : list nat) (st : state) : option state :=
  match schedule with
  | [] => Some st
  | i :: rest =>
      match step i st with
      | Some st' => run rest st'
      | None => None
      end
  end.

(** A thread has executed a statement on [db_file] and not yet committed. *)
Definition mid_write (db_file : string) (t : list action) : bool :=
  match t with
  | Commit f :: _ => bool_decide (f = db_file)
  | _ => false
  end.

(** A thread is about to copy [db_file]. *)
Definition copying (db_file : string) (t : list action) : bool :=
  match t with
  | Copy f :: _ => bool_decide (f = db_file)
  | _ => false
  end.

Definition copy_during_write (db_file : string) (st : state) : bool :=
  existsb (mid_write db_file) (threads st) && existsb (copying db_file) (threads st).

(** The states reached from [st] in at most [n] steps of two threads. *)
Fixpoint explore (n : nat) (st : state) : list state :=
  st :: match n with
        | 0 => []
        | S n' =>
            i ← [0; 1];
            match step i st with
            | Some st' => explore n' st'
            | None => []
            end
        end.

(** The monitor thread in [monitor.db.update_group] and a request thread in
    the [/backup] handler of bot_handlers, [bot_handlers.db.backup_database]. *)
Definition monitor_and_backup : state :=
  {| held := [];
     threads := [writing_method (monitor_db import_main);
                 backup_database (bot_handlers_db import_main)] |}.

(** The same two calls made on one [Database] object. *)
Definition shared_object : state :=
  {| held := [];
     threads := [writing_method (monitor_db import_main);
                 backup_database (monitor_db import_main)] |}.

(** The construction of a [Database] object, [init_db] called by
    [__init__], beside a thread that writes through another object. *)
Definition database_construction : state :=
  {| held := [];
     threads := [init_db (main_db import_main);
                 writing_method (monitor_db import_main)] |}.

End Locking.

(** ** Vocabulary of the statements *)

(** [kw] occurs in [text]. *)
Definition occurs_in (kw text : string) : Prop :=
  ∃ pre post, text = pre +:+ kw +:+ post.

(** The pairs constrained by UNIQUE(user_id, keyword). *)
Definition keyword_keys (s : Store) : list (nat * string) :=
  (λ k, (k_user_id k, k_keyword k)) <$> keywords s.

(** The row [add_user] inserts. *)
Definition new_user_row (s : Store) (chat_id name email intention now : string)
  : user_row :=
  {| u_id := next_rowid (u_id <$> users s); u_chat_id := chat_id; u_name := name;
     u_email := email; u_intention := intention;
     u_created_at := now; u_updated_at := now;
     u_group_id := None; u_group_name := None; u_invite_link := None |}.

(** Every keyword row belongs to a user row: the FOREIGN KEY of the
    keywords table. *)
Definition keywords_reference_users (s : Store) : Prop :=
  ∀ k, k ∈ keywords s → k_user_id k ∈ u_id <$> users s.

(** The groups a log records a delivered message for, one per delivery.
    A message counts as delivered when [bot.send_message] returned. *)
Definition delivered (log : list event) : list string :=
  omap (λ e, match e with
             | SendMessage group_id _ true => Some group_id
             | _ => None
             end) log.

(** The groups a log records a send for, delivered or not, one per send. *)
Definition attempted (log : list event) : list string :=
  omap (λ e, match e with
             | SendMessage group_id _ _ => Some group_id
             | _ => None
             end) log.

(** No group is sent to again after a message was delivered to it. *)
Fixpoint stops_at_delivery (log : list event) : Prop :=
  match log with
  | [] => True
  | SendMessage group_id _ true :: rest =>
      group_id ∉ attempted rest ∧ stops_at_delivery rest
  | _ :: rest => stops_at_delivery rest
  end.

(** The ledger rows of one tweet id. *)
Definition ledger_entries (tweet_id : string) (s : Store) : list tweet_row :=
  filter (λ t, t_tweet_id t = tweet_id) (tweets s).

(** The tweet id under which a well-formed notification is processed. *)
Definition request_tweet_id (md5_hexdigest : string → string) (request : Request)
  : option string :=
  match form_link request, form_text request with
  | Some tweet_link, Some tweet_text =>
      if Py.truthy tweet_link && Py.truthy tweet_text
      then Some (tweet_id_of md5_hexdigest (form_id request) tweet_link tweet_text)
      else None
  | _, _ => None
  end.

(** The row [add_tweet] inserts. *)
Definition new_tweet_row (s : Store) (tweet_id tweet_text tweet_link now : string)
  : tweet_row :=
  {| t_id := next_rowid (t_id <$> tweets s); t_tweet_id := tweet_id;
     t_tweet_text := tweet_text; t_tweet_link := tweet_link;
     t_processed_at := now |}.

(** ** The constraints of the schema *)

(** PRIMARY KEY and UNIQUE of the four tables. *)
Record store_constraints (s : Store) : Prop := {
  users_id_unique : NoDup (u_id <$> users s);
  users_chat_id_unique : NoDup (u_chat_id <$> users s);
  groups_id_unique : NoDup (g_id <$> groups s);
  groups_group_id_unique : NoDup (g_group_id <$> groups s);
  keywords_id_unique : NoDup (k_id <$> keywords s);
  keywords_user_keyword_unique : NoDup (keyword_keys s);
  tweets_id_unique : NoDup (t_id <$> tweets s);
  tweets_tweet_id_unique : NoDup (t_tweet_id <$> tweets s)
}.

(** A call of a [Database] method that may write, with its arguments and
    the timestamp it reads. *)
Inductive db_call_of :=
| Call_add_user (chat_id name email intention keywords now : string)
| Call_remove_user (chat_id : string)
| Call_update_user_group (chat_id group_id group_name invite_link now : string)
| Call_add_group (group_id : string) (group_name invite_link : option string)
    (now : string)
| Call_update_group (group_id : string) (group_name invite_link : option string)
    (now : string)
| Call_add_tweet (tweet_id tweet_text tweet_link now : string).

(** The file after the call. *)
Definition after_call (c : db_call_of) (s : Store) : Store :=
  match c with
  | Call_add_user chat_id name email intention keywords now =>
      (Database.add_user chat_id name email intention keywords now s).2
  | Call_remove_user chat_id => (Database.remove_user chat_id s).2
  | Call_update_user_group chat_id group_id group_name invite_link now =>
      (Database.update_user_group chat_id group_id group_name invite_link now s).2
  | Call_add_group group_id group_name invite_link now =>
      (Database.add_group group_id group_name invite_link now s).2
  | Call_update_group group_id group_name invite_link now =>
      (Database.update_group group_id group_name invite_link now s).2
  | Call_add_tweet tweet_id tweet_text tweet_link now =>
      (Database.add_tweet tweet_id tweet_text tweet_link now s).2
  end.

(** The keyword rows [add_user] inserts for a user, given the largest id of
    the keywords table and the lowercased keywords, in order. *)
Fixpoint new_keyword_rows (last_id user_id : nat) (kws : list string) (now : string)
  : list keyword_row :=
  match kws with
  | [] => []
  | kw :: rest =>
      {| k_id := S last_id; k_user_id := user_id; k_keyword := kw;
         k_created_at := now |} :: new_keyword_rows (S last_id) user_id rest now
  end.

(** A user row after [update_user_group]. *)
Definition bound_user_row (u : user_row) (group_id group_name invite_link now : string)
  : user_row :=
  {| u_id := u_id u; u_chat_id := u_chat_id u; u_name := u_name u;
     u_email := u_email u; u_intention := u_intention u;
     u_created_at := u_created_at u; u_updated_at := now;
     u_group_id := Some group_id; u_group_name := Some group_name;
     u_invite_link := Some invite_link |}.

(** A group row is complete: it has a name and an invitation link. *)
Definition group_complete (g : group_row) : bool :=
  Py.truthy_opt (g_group_name g) && Py.truthy_opt (g_invite_link g).

(** The store has a complete group row for a group id. *)
Definition group_is_complete_in (s : Store) (group_id : string) : Prop :=
  ∃ row, row ∈ groups s ∧ g_group_id row = group_id ∧ group_complete row = true.

(** What holds of the bindings of users to groups. *)
Record binding_invariant (s : Store) : Prop := {
  inv_constraints : store_constraints s;
  inv_all_or_none : ∀ u, u ∈ users s →
    (u_group_id u = None ∧ u_group_name u = None ∧ u_invite_link u = None)
    ∨ (∃ g n l, u_group_id u = Some g ∧ u_group_name u = Some n
                ∧ u_invite_link u = Some l
                ∧ Py.truthy n = true ∧ Py.truthy l = true);
  inv_bound_complete : ∀ u g,
    u ∈ users s → u_group_id u = Some g → group_is_complete_in s g;
  inv_one_user_per_group : ∀ u u' g,
    u ∈ users s → u' ∈ users s →
    u_group_id u = Some g → u_group_id u' = Some g → u = u'
}.

(** The non-empty group ids of a list of users, one per user that has one. *)
Definition bound_groups (users : list user_row) : list string :=
  filter (λ g, Py.truthy g = true) (omap u_group_id users).

(** A notification lacks its link or its text. *)
Definition malformed (request : Request) : Prop :=
  Py.truthy_opt (form_link request) = false
  ∨ Py.truthy_opt (form_text request) = false.

(** The backups of [d] whose name comes after [name]. *)
Definition later_backups (name : string) (d : Disk) : list string :=
  filter (λ n, String.le name n ∧ n ≠ name) (listdir_backups d).

(** ** A sample deployment *)

(** [init_db] of [db], run by thread [i], has not passed the acquisition made
    by [add_admin_if_not_exists]: it is at one of its first four actions,
    it holds the lock of [db] once past the first, and no other thread ever
    releases that lock. *)
Definition init_db_stuck (db : Locking.DatabaseObject) (i : nat) (st : Locking.state) : Prop :=
  (∃ k, k ≤ 3 ∧ Locking.threads st !! i = Some (drop k (Locking.init_db db))
        ∧ (1 ≤ k → Locking.db_lock db ∈ Locking.held st))
  ∧ ∀ j t, j ≠ i → Locking.threads st !! j = Some t → Locking.Release (Locking.db_lock db) ∉ t.

Module Sample.

(** The answers of [bot.send_message] to the calls to come, [true] once
    they are used up. *)
Definition World : Type := list bool.

Definition bot_send_message (chat_id text : string) (w : World) : bool * World :=
  match w with
  | [] => (true, [])
  | ok :: w' => (ok, w')
  end.

Definition bot_create_chat_invite_link (group_id : string) (w : World)
  : option string * World :=
  (Some ("https://t.me/+" +:+ group_id), w).

Definition datetime_now (w : World) : string * World :=
  ("2024-05-01T10:00:00", w).

(** In the place of the digest; the sample notification carries its id. *)
Definition digest (s : string) : string := s.

Definition ana : user_row :=
  {| u_id := 1; u_chat_id := "501"; u_name := "Ana"; u_email := "ana@example.org";
     u_intention := "news"; u_created_at := "2024-04-01T09:00:00";
     u_updated_at := "2024-04-02T09:00:00"; u_group_id := Some "-1001";
     u_group_name := Some "Grupo de Ana - rust"; u_invite_link := Some "https://t.me/+a" |}.

Definition bea : user_row :=
  {| u_id := 2; u_chat_id := "502"; u_name := "Bea"; u_email := "bea@example.org";
     u_intention := "news"; u_created_at := "2024-04-03T09:00:00";
     u_updated_at := "2024-04-04T09:00:00"; u_group_id := Some "-1001";
     u_group_name := Some "Grupo de Ana - rust"; u_invite_link := Some "https://t.me/+a" |}.

(** Two users bound to the same group, and two groups still incomplete. *)
Definition store : Store :=
  {| users := [ana; bea];
     groups :=
       [ {| g_id := 1; g_group_id := "-1002"; g_group_name := None;
            g_invite_link := None; g_created_at := "2024-04-05T09:00:00";
            g_updated_at := "2024-04-05T09:00:00" |};
         {| g_id := 2; g_group_id := "-1003"; g_group_name := None;
            g_invite_link := None; g_created_at := "2024-04-06T09:00:00";
            g_updated_at := "2024-04-06T09:00:00" |} ];
     keywords :=
       [ {| k_id := 1; k_user_id := 1; k_keyword := "rust";
            k_created_at := "2024-04-01T09:00:00" |};
         {| k_id := 2; k_user_id := 2; k_keyword := "backend";
            k_created_at := "2024-04-03T09:00:00" |} ];
     tweets := [] |}.

Definition notification : Request :=
  {| form_link := Some "https://x.com/i/status/1790";
     form_text := Some "New Rust backend release!";
     form_id := Some "1790" |}.

(** The same tweet id sent again, with another text. *)
Definition notification_again : Request :=
  {| form_link := Some "https://x.com/i/status/1790";
     form_text := Some "Rust backend release (repost)";
     form_id := Some "1790" |}.

Definition env (w : World) : Env World :=
  {| db_file := store; world := w; api_log := [] |}.

Definition process : Request → Env World → Response * Env World :=
  process_tweet_notification World bot_send_message datetime_now digest.

(** Users whose keywords are not ASCII: one bound to a group, one not. *)
Definition dora : user_row :=
  {| u_id := 1; u_chat_id := "701"; u_name := "Dora"; u_email := "dora@example.org";
     u_intention := "notícias"; u_created_at := "2024-04-08T09:00:00";
     u_updated_at := "2024-04-09T09:00:00"; u_group_id := Some "-3001";
     u_group_name := Some "Grupo de Dora - educação";
     u_invite_link := Some "https://t.me/+d" |}.

Definition eli : user_row :=
  {| u_id := 2; u_chat_id := "702"; u_name := "Eli"; u_email := "eli@example.org";
     u_intention := "notícias"; u_created_at := "2024-04-08T10:00:00";
     u_updated_at := "2024-04-08T10:00:00"; u_group_id := None;
     u_group_name := None; u_invite_link := None |}.

Definition store_pt : Store :=
  {| users := [dora; eli];
     groups := [];
     keywords :=
       [ {| k_id := 1; k_user_id := 1; k_keyword := "saúde";
            k_created_at := "2024-04-08T09:00:00" |};
         {| k_id := 2; k_user_id := 1; k_keyword := "educação";
            k_created_at := "2024-04-08T09:00:00" |};
         {| k_id := 3; k_user_id := 2; k_keyword := "educação";
            k_created_at := "2024-04-08T10:00:00" |} ];
     tweets := [] |}.

(** A transport that delivers every message. *)
Definition reliable_send_message (chat_id text : string) (w : World) : bool * World :=
  (true, w).

(** A server that refuses every invitation link. *)
Definition no_invite_link (group_id : string) (w : World) : option string * World :=
  (None, w).

Definition cara : user_row :=
  {| u_id := 3; u_chat_id := "503"; u_name := "Cara"; u_email := "cara@example.org";
     u_intention := "news"; u_created_at := "2024-04-07T09:00:00";
     u_updated_at := "2024-04-07T09:00:00"; u_group_id := None;
     u_group_name := None; u_invite_link := None |}.

(** One user bound to a group, one still without, and one incomplete group. *)
Definition store_waiting : Store :=
  {| users := [ana; cara];
     groups :=
       [ {| g_id := 1; g_group_id := "-1002"; g_group_name := None;
            g_invite_link := None; g_created_at := "2024-04-05T09:00:00";
            g_updated_at := "2024-04-05T09:00:00" |} ];
     keywords :=
       [ {| k_id := 1; k_user_id := 1; k_keyword := "rust";
            k_created_at := "2024-04-01T09:00:00" |};
         {| k_id := 2; k_user_id := 3; k_keyword := "go";
            k_created_at := "2024-04-07T09:00:00" |} ];
     tweets := [] |}.

Definition env_waiting (w : World) : Env World :=
  {| db_file := store_waiting; world := w; api_log := [] |}.

Definition env_empty (w : World) : Env World :=
  {| db_file := empty_store; world := w; api_log := [] |}.

(** A short life of the application. *)
Definition events : list app_event :=
  [ Ev_add_user "601" "Dan" "dan@example.org" "news" "rust, go";
    Ev_add_group "-2001";
    Ev_monitor_cycle;
    Ev_add_user "602" "Eva" "eva@example.org" "news" "go";
    Ev_process_group "-2001" true;
    Ev_notification notification;
    Ev_remove_user "601";
    Ev_add_group "-2002";
    Ev_monitor_cycle ].

(** A backup directory with the given file names. *)
Definition disk (names : list string) : Disk :=
  {| database := store;
     backups := list_to_map ((λ n, (n, empty_store)) <$> names) |}.

(** An admin menu that does nothing. *)
Definition handle_admin_conversation (m : Message) (data : ConversationData)
  : Handler World :=
  λ h, (Returned, h).

Definition handlers (states : gmap Z StateInfo) (w : World) : HandlerState World :=
  {| user_states := states; h_env := env w |}.

End Sample.

(** * Properties *)

(** ** Texts and their code points *)

Section utf8.

Ltac Zify.zify_post_hook ::= Z.to_euclidean_division_equations.

Lemma N_of_ascii_lt (a : ascii) : (N_of_ascii a < 256)%N.
Proof. apply N_ascii_bounded. Qed.

Lemma encode_cons c l : Py.encode (c :: l) = Py.encode_point c +:+ Py.encode l.
Proof. done. Qed.

Lemma encode_point_undecodable a :
  (128 ≤ N_of_ascii a)%N →
  Py.encode_point (56320 + N_of_ascii a) = String a EmptyString.
Proof.
  intros Hge. pose proof (N_of_ascii_lt a) as Hlt. unfold Py.encode_point.
  replace (56320 + N_of_ascii a <? 128)%N with false by (symmetry; apply N.ltb_ge; lia).
  replace ((56448 <=? 56320 + N_of_ascii a) && (56320 + N_of_ascii a <=? 56575))%N
    with true.
  2:{ symmetry. apply andb_true_iff. split; apply N.leb_le; lia. }
  replace (56320 + N_of_ascii a - 56320)%N with (N_of_ascii a) by lia.
  by rewrite ascii_N_embedding.
Qed.

Local Ltac ltb_false := rewrite (proj2 (N.ltb_ge _ _)) by lia.
Local Ltac ltb_true := rewrite (proj2 (N.ltb_lt _ _)) by lia.
Local Ltac leb_false := rewrite (proj2 (N.leb_gt _ _)) by lia.
Local Ltac leb_true := rewrite (proj2 (N.leb_le _ _)) by lia.

Lemma encode_point_2 a0 a1 :
  let b0 := N_of_ascii a0 in
  let b1 := N_of_ascii a1 in
  let c := ((b0 - 192) * 64 + (b1 - 128))%N in
  (192 ≤ b0 < 224)%N → (128 ≤ b1 ≤ 191)%N → (128 ≤ c)%N →
  Py.encode_point c = String a0 (String a1 EmptyString).
Proof.
  intros b0 b1 c H0 H1 Hc. unfold Py.encode_point.
  assert (c < 2048)%N by (unfold c; lia).
  ltb_false. leb_false. cbn [andb]. ltb_true.
  replace (192 + c / 64)%N with b0 by (unfold c; lia).
  replace (128 + c mod 64)%N with b1 by (unfold c; lia).
  unfold b0, b1. by rewrite !ascii_N_embedding.
Qed.

Lemma encode_point_3 a0 a1 a2 :
  let b0 := N_of_ascii a0 in
  let b1 := N_of_ascii a1 in
  let b2 := N_of_ascii a2 in
  let c := (((b0 - 224) * 64 + (b1 - 128)) * 64 + (b2 - 128))%N in
  (224 ≤ b0 < 240)%N → (128 ≤ b1 ≤ 191)%N → (128 ≤ b2 ≤ 191)%N →
  (2048 ≤ c)%N → ¬ (55296 ≤ c ≤ 57343)%N →
  Py.encode_point c = String a0 (String a1 (String a2 EmptyString)).
Proof.
  intros b0 b1 b2 c H0 H1 H2 Hc Hs. unfold Py.encode_point.
  assert (c < 65536)%N by (unfold c; lia).
  ltb_false.
  replace ((56448 <=? c) && (c <=? 56575))%N with false.
  2:{ symmetry. apply andb_false_iff.
      destruct (N.leb_spec 56448 c); [right; apply N.leb_gt; lia | by left]. }
  ltb_false. ltb_true.
  replace (224 + c / 4096)%N with b0 by (unfold c; lia).
  replace (128 + (c / 64) mod 64)%N with b1 by (unfold c; lia).
  replace (128 + c mod 64)%N with b2 by (unfold c; lia).
  unfold b0, b1, b2. by rewrite !ascii_N_embedding.
Qed.

Lemma encode_point_4 a0 a1 a2 a3 :
  let b0 := N_of_ascii a0 in
  let b1 := N_of_ascii a1 in
  let b2 := N_of_ascii a2 in
  let b3 := N_of_ascii a3 in
  let c := ((((b0 - 240) * 64 + (b1 - 128)) * 64 + (b2 - 128)) * 64 + (b3 - 128))%N in
  (240 ≤ b0 < 248)%N → (128 ≤ b1 ≤ 191)%N → (128 ≤ b2 ≤ 191)%N →
  (128 ≤ b3 ≤ 191)%N → (65536 ≤ c)%N →
  Py.encode_point c = String a0 (String a1 (String a2 (String a3 EmptyString))).
Proof.
  intros b0 b1 b2 b3 c H0 H1 H2 H3 Hc. unfold Py.encode_point.
  ltb_false. leb_true. leb_false. cbn [andb]. ltb_false. ltb_false.
  replace (240 + c / 262144)%N with b0 by (unfold c; lia).
  replace (128 + (c / 4096) mod 64)%N with b1 by (unfold c; lia).
  replace (128 + (c / 64) mod 64)%N with b2 by (unfold c; lia).
  replace (128 + c mod 64)%N with b3 by (unfold c; lia).
  unfold b0, b1, b2, b3. by rewrite !ascii_N_embedding.
Qed.

Lemma continuation_spec b : Py.continuation b = true ↔ (128 ≤ b ≤ 191)%N.
Proof. unfold Py.continuation. rewrite andb_true_iff, !N.leb_le. done. Qed.

Lemma encode_point_1 a :
  (N_of_ascii a < 128)%N → Py.encode_point (N_of_ascii a) = String a EmptyString.
Proof.
  intros Hlt. unfold Py.encode_point. ltb_true. by rewrite ascii_N_embedding.
Qed.

(** Nothing is lost between a text and its code points. *)
Lemma encode_decode s : Py.encode (Py.decode s) = s.
Proof.
  remember (String.length s) as n eqn:Hn. revert s Hn.
  induction n as [n IH] using lt_wf_ind. intros s ->.
  assert (IH' : ∀ t, String.length t < String.length s →
                     Py.encode (Py.decode t) = t)
    by (intros t Ht; by eapply IH).
  clear IH. destruct s as [|a0 s1]; [done|].
  cbn [Py.decode]. cbn zeta.
  destruct (N.ltb_spec (N_of_ascii a0) 128) as [H0|H0].
  { rewrite encode_cons, encode_point_1, IH' by (done || cbn; lia). done. }
  assert (Hund : Py.encode ((56320 + N_of_ascii a0)%N :: Py.decode s1)
                 = String a0 s1).
  { rewrite encode_cons, encode_point_undecodable, IH' by (done || cbn; lia). done. }
  destruct s1 as [|a1 s2]; [exact Hund|].
  destruct (N.ltb_spec (N_of_ascii a0) 224) as [H1|H1].
  { destruct (_ && _ && _) eqn:Hc; [|exact Hund].
    apply andb_true_iff in Hc as [Hc Hc3]. apply andb_true_iff in Hc as [Hc1 Hc2].
    apply N.leb_le in Hc1, Hc3. apply continuation_spec in Hc2.
    rewrite encode_cons, encode_point_2, IH' by (done || cbn; lia). done. }
  destruct s2 as [|a2 s3]; [exact Hund|].
  destruct (N.ltb_spec (N_of_ascii a0) 240) as [H2|H2].
  { destruct (_ && _ && _ && _) eqn:Hc; [|exact Hund].
    apply andb_true_iff in Hc as [Hc Hc4]. apply andb_true_iff in Hc as [Hc Hc3].
    apply andb_true_iff in Hc as [Hc1 Hc2].
    apply N.leb_le in Hc3. apply continuation_spec in Hc1, Hc2.
    apply negb_true_iff, andb_false_iff in Hc4.
    rewrite encode_cons, encode_point_3, IH'; [done|cbn; lia|done..| ].
    intros [Hs1 Hs2]. destruct Hc4 as [Hc4|Hc4]; apply N.leb_gt in Hc4; lia. }
  destruct s3 as [|a3 s4]; [exact Hund|].
  destruct (_ && _ && _ && _ && _ && _) eqn:Hc; [|exact Hund].
  apply andb_true_iff in Hc as [Hc Hc6]. apply andb_true_iff in Hc as [Hc Hc5].
  apply andb_true_iff in Hc as [Hc Hc4]. apply andb_true_iff in Hc as [Hc Hc3].
  apply andb_true_iff in Hc as [Hc1 Hc2].
  apply N.ltb_lt in Hc1. apply N.leb_le in Hc5, Hc6.
  apply continuation_spec in Hc2, Hc3, Hc4.
  rewrite encode_cons, encode_point_4, IH' by (done || cbn; lia). done.
Qed.

End utf8.

Lemma lstrip_points_spec l :
  ∃ spaces,
    l = spaces ++ Py.lstrip_points l
    ∧ Forall (λ c, Py.is_space c = true) spaces
    ∧ ∀ c, head (Py.lstrip_points l) = Some c → Py.is_space c = false.
Proof.
  induction l as [|c l (spaces & Hl & Hsp & Hhd)]; simpl.
  - exists []. by split_and!.
  - destruct (Py.is_space c) eqn:Hc.
    + exists (c :: spaces). split_and!; [cbn; by f_equal|by constructor|done].
    + exists []. split_and!; [done|constructor|]. by intros ? [= <-].
Qed.

(** [s.strip()] is [s] without the white space at its two ends: the code
    points of [s] are those of the result between two runs of white space,
    and the result neither starts nor ends with white space. *)
Lemma strip_spec s :
  ∃ before kept after,
    Py.decode s = before ++ kept ++ after
    ∧ Py.strip s = Py.encode kept
    ∧ Forall (λ c, Py.is_space c = true) before
    ∧ Forall (λ c, Py.is_space c = true) after
    ∧ (∀ c, head kept = Some c → Py.is_space c = false)
    ∧ (∀ c, last kept = Some c → Py.is_space c = false).
Proof.
  destruct (lstrip_points_spec (Py.decode s)) as (before & Hl & Hb & Hhd).
  destruct (lstrip_points_spec (rev (Py.lstrip_points (Py.decode s))))
    as (after & Hr & Ha & Hlast).
  set (rest := Py.lstrip_points (Py.decode s)) in *.
  set (kept := Py.lstrip_points (rev rest)) in *.
  assert (Hrest : rest = rev kept ++ rev after).
  { rewrite <- rev_app_distr, <- Hr. by rewrite rev_involutive. }
  exists before, (rev kept), (rev after). split_and!.
  - by rewrite <- Hrest.
  - done.
  - done.
  - by apply Forall_rev.
  - intros c Hc. destruct (rev kept) as [|c' k] eqn:Hk; [done|].
    injection Hc as ->. apply Hhd. by rewrite Hrest.
  - intros c Hc. apply Hlast. rewrite <- (rev_involutive kept).
    destruct (rev kept) as [|c' k] using rev_ind; [done|].
    rewrite last_snoc in Hc. injection Hc as ->. by rewrite rev_unit.
Qed.

Lemma append_assoc (a b c : string) : (a +:+ b) +:+ c = a +:+ (b +:+ c).
Proof.
  induction a as [|x a IH]; [done|].
  change (String x ((a +:+ b) +:+ c) = String x (a +:+ (b +:+ c))). by rewrite IH.
Qed.

Lemma encode_app l1 l2 : Py.encode (l1 ++ l2) = Py.encode l1 +:+ Py.encode l2.
Proof.
  induction l1 as [|c l1 IH]; [done|].
  change (Py.encode ((c :: l1) ++ l2))
    with (Py.encode_point c +:+ Py.encode (l1 ++ l2)).
  change (Py.encode (c :: l1)) with (Py.encode_point c +:+ Py.encode l1).
  by rewrite IH, append_assoc.
Qed.

Lemma strip_substring s :
  ∃ before after,
    s = Py.encode before +:+ Py.strip s +:+ Py.encode after
    ∧ Forall (λ c, Py.is_space c = true) before
    ∧ Forall (λ c, Py.is_space c = true) after.
Proof.
  destruct (strip_spec s) as (before & kept & after & Hs & -> & Hb & Ha & _).
  exists before, after. split_and!; [|done..].
  by rewrite <- !encode_app, <- Hs, encode_decode.
Qed.

(** ** Substring containment *)

Lemma prefix_spec (a b : string) :
  String.prefix a b = true ↔ ∃ post, b = a +:+ post.
Proof.
  revert b. induction a as [|c a IH]; intros b; simpl.
  - split; [intros _; by exists b | by destruct b].
  - destruct b as [|d b]; simpl.
    + split; [done | by intros [post ?]].
    + destruct (ascii_dec c d) as [->|Hne].
      * rewrite IH. split; intros [post Hp]; exists post.
        -- by rewrite Hp.
        -- by injection Hp.
      * split; [done | intros [post Hp]; injection Hp; congruence].
Qed.

Lemma contains_spec (kw text : string) :
  Py.contains kw text = true ↔ occurs_in kw text.
Proof.
  induction text as [|c text IH].
  - change (Py.contains kw EmptyString) with (String.prefix kw EmptyString || false).
    rewrite orb_false_r, prefix_spec. split.
    + intros [post Hp]. by exists EmptyString, post.
    + intros [[|? ?] [post Hp]]; [by exists post | done].
  - change (Py.contains kw (String c text))
      with (String.prefix kw (String c text) || Py.contains kw text).
    rewrite orb_true_iff, prefix_spec, IH. split.
    + intros [[post Hp]|[pre [post Hp]]].
      * by exists EmptyString, post.
      * exists (String c pre), post. by rewrite Hp.
    + intros [[|d pre] [post Hp]].
      * left. by exists post.
      * right. exists pre, post. by injection Hp.
Qed.

(** ** The matcher *)

Lemma elem_of_sorted (x : string) (l : list string) : x ∈ sorted l ↔ x ∈ l.
Proof. unfold sorted. by rewrite merge_sort_Permutation. Qed.

Lemma elem_of_distinct_from {A} `{EqDecision A} (seen l : list A) (x : A) :
  x ∈ distinct_from seen l ↔ x ∈ l ∧ x ∉ seen.
Proof.
  revert seen. induction l as [|y l IH]; intros seen; simpl.
  - rewrite elem_of_nil. naive_solver.
  - destruct (decide (y ∈ seen)) as [Hy|Hy].
    + rewrite IH, elem_of_cons. naive_solver.
    + rewrite !elem_of_cons, IH, elem_of_cons.
      destruct (decide (x = y)) as [->|Hne]; naive_solver.
Qed.

Lemma elem_of_distinct {A} `{EqDecision A} (l : list A) (x : A) :
  x ∈ distinct l ↔ x ∈ l.
Proof.
  unfold distinct. rewrite elem_of_distinct_from, elem_of_nil. naive_solver.
Qed.

Lemma NoDup_distinct_from {A} `{EqDecision A} (seen l : list A) :
  NoDup (distinct_from seen l).
Proof.
  revert seen. induction l as [|y l IH]; intros seen; simpl; [constructor|].
  destruct (decide (y ∈ seen)); [apply IH|]. constructor; [|apply IH].
  rewrite elem_of_distinct_from, elem_of_cons. naive_solver.
Qed.

Lemma NoDup_distinct {A} `{EqDecision A} (l : list A) : NoDup (distinct l).
Proof. apply NoDup_distinct_from. Qed.

Lemma elem_of_join_users_keywords (s : Store) (matching_keywords : list string)
    (u : user_row) (k : keyword_row) :
  (u, k) ∈ join_users_keywords s matching_keywords ↔
  u ∈ users s ∧ k ∈ keywords s ∧ u_id u = k_user_id k
  ∧ k_keyword k ∈ matching_keywords.
Proof.
  unfold join_users_keywords. rewrite list_elem_of_bind. split.
  - intros (keyword & Hin & Hkw).
    rewrite elem_of_sorted, elem_of_distinct in Hkw.
    apply list_elem_of_bind in Hin as (k' & Hin & Hk).
    apply list_elem_of_filter in Hk as [Heq Hk].
    apply list_elem_of_fmap in Hin as (u' & Hpair & Hu).
    apply list_elem_of_filter in Hu as [Hid Hu].
    injection Hpair as -> ->. subst keyword. by split_and!.
  - intros (Hu & Hk & Hid & Hkw). exists (k_keyword k). split.
    + apply list_elem_of_bind. exists k. split.
      * apply list_elem_of_fmap. exists u. split; [done|].
        by apply list_elem_of_filter.
      * by apply list_elem_of_filter.
    + by rewrite elem_of_sorted, elem_of_distinct.
Qed.

Lemma find_users_by_keywords_elem (tweet_text : string) (s : Store) (u : user_row) :
  u ∈ Database.find_users_by_keywords tweet_text s ↔
  u ∈ users s ∧ null_or_empty (u_group_id u) = false ∧
  ∃ k, k ∈ keywords s ∧ k_user_id k = u_id u
       ∧ Py.contains (k_keyword k) (Py.lower tweet_text) = true.
Proof.
  unfold Database.find_users_by_keywords. simpl.
  set (matching := filter _ (sorted _)).
  assert (Hm : ∀ k, k ∈ keywords s →
            (k_keyword k ∈ matching ↔
             Py.contains (k_keyword k) (Py.lower tweet_text) = true)).
  { intros k Hk. unfold matching.
    rewrite list_elem_of_filter, elem_of_sorted, elem_of_distinct,
      list_elem_of_fmap.
    naive_solver. }
  destruct matching as [|kw rest] eqn:Hmatch.
  - split; [by intros ?%elem_of_nil|].
    intros (_ & _ & k & Hk & _ & Hc). apply Hm in Hc; [|done].
    by apply elem_of_nil in Hc.
  - rewrite elem_of_distinct, list_elem_of_fmap. split.
    + intros ([u' k] & -> & Hin). apply list_elem_of_filter in Hin as [Hg Hin].
      apply elem_of_join_users_keywords in Hin as (Hu & Hk & Hid & Hkw).
      simpl in *.
      split_and!; [done..|]. exists k. split_and!; [done..|]. by apply Hm.
    + intros (Hu & Hg & k & Hk & Hid & Hc). exists (u, k). split; [done|].
      apply list_elem_of_filter. split; [done|].
      apply elem_of_join_users_keywords. split_and!; [done..|]. by apply Hm.
Qed.

Lemma find_users_by_keywords_NoDup (tweet_text : string) (s : Store) :
  NoDup (Database.find_users_by_keywords tweet_text s).
Proof.
  unfold Database.find_users_by_keywords. simpl.
  destruct (filter _ _); [constructor | apply NoDup_distinct].
Qed.

(** C5.  [find_users_by_keywords] returns, without repetition, exactly the
    users that have a non-empty [group_id] and own a keyword occurring in
    the lowercased text; so it returns nothing when no keyword occurs in
    the text, and misses no group-bound user owning an occurring keyword. *)
Theorem find_users_by_keywords_exact (tweet_text : string) (s : Store) :
  let result := Database.find_users_by_keywords tweet_text s in
  let matches u :=
    u ∈ users s
    ∧ (∃ g, u_group_id u = Some g ∧ g ≠ "")
    ∧ ∃ k, k ∈ keywords s ∧ k_user_id k = u_id u
           ∧ occurs_in (k_keyword k) (Py.lower tweet_text) in
  NoDup result
  ∧ (∀ u, u ∈ result ↔ matches u)
  ∧ ((∀ k, k ∈ keywords s → ¬ occurs_in (k_keyword k) (Py.lower tweet_text))
     → result = []).
Proof.
  intros result matches.
  assert (Hiff : ∀ u, u ∈ result ↔ matches u).
  { intros u. unfold result, matches. rewrite find_users_by_keywords_elem.
    assert (Hg : null_or_empty (u_group_id u) = false
                 ↔ ∃ g, u_group_id u = Some g ∧ g ≠ "").
    { unfold null_or_empty. destruct (u_group_id u) as [[|c g]|]; simpl;
        naive_solver. }
    rewrite Hg. by setoid_rewrite contains_spec. }
  split_and!; [apply find_users_by_keywords_NoDup | done |].
  intros Hnone. destruct result as [|u rest] eqn:Hres; [done|].
  assert (Hu : matches u) by (apply Hiff; left).
  destruct Hu as (_ & _ & k & Hk & _ & Hocc). by destruct (Hnone k).
Qed.

(** The text is lowered as [str.lower] lowers it: every cased letter, not
    only A to Z; a capital sigma at the end of a word becomes the final
    sigma; the capital I with dot becomes two code points. *)
Example lower_beyond_ascii :
  Py.lower "Nova política de EDUCAÇÃO" = "nova política de educação"
  ∧ Py.lower "ΟΔΟΣ ΣΟΦΟΣ" = "οδος σοφος"
  ∧ Py.lower "İSTANBUL straße" = "i̇stanbul straße".
Proof. split_and!; reflexivity. Qed.

Lemma find_users_by_keywords_exact_witness :
  let text := "Nova política de EDUCAÇÃO" in
  let result := Database.find_users_by_keywords text Sample.store_pt in
  Py.lower text = "nova política de educação"
  ∧ result = [Sample.dora]
  ∧ NoDup result
  ∧ (Sample.dora ∈ result ↔
     Sample.dora ∈ users Sample.store_pt
     ∧ (∃ g, u_group_id Sample.dora = Some g ∧ g ≠ "")
     ∧ ∃ k, k ∈ keywords Sample.store_pt ∧ k_user_id k = u_id Sample.dora
            ∧ occurs_in (k_keyword k) (Py.lower text)).
Proof.
  intros text result.
  destruct (find_users_by_keywords_exact text Sample.store_pt) as (Hnd & Hiff & _).
  split_and!; [reflexivity..|exact Hnd|exact (Hiff Sample.dora)].
Defined.

(** ** Selections that keep nothing or everything *)

Section filters.
Context {A : Type} (P : A → Prop) `{!∀ x, Decision (P x)}.

Lemma filter_none (l : list A) : (∀ x, x ∈ l → ¬ P x) → filter P l = [].
Proof.
  induction l as [|a l IH]; intros Hl; [done|].
  rewrite filter_cons_False; [|apply Hl; left].
  apply IH. intros x Hx. apply Hl. by right.
Qed.

Lemma filter_all (l : list A) : (∀ x, x ∈ l → P x) → filter P l = l.
Proof.
  induction l as [|a l IH]; intros Hl; [done|].
  rewrite filter_cons_True; [|apply Hl; left].
  f_equal. apply IH. intros x Hx. apply Hl. by right.
Qed.

Lemma filter_is_nil (l : list A) (x : A) : filter P l = [] → x ∈ l → ¬ P x.
Proof. intros Hnil Hx HP. by apply (filter_nil_not_elem_of P l x). Qed.
End filters.

(** ** Transactions: only [commit] changes the file *)

Lemma insert_user_file chat_id name email intention now conn r conn' :
  insert_user chat_id name email intention now conn = (r, conn') →
  file conn' = file conn ∧ foreign_keys conn' = foreign_keys conn.
Proof. unfold insert_user. case_bool_decide; intros [= <- <-]; done. Qed.

Lemma insert_keyword_file user_id keyword now conn r conn' :
  insert_keyword user_id keyword now conn = (r, conn') →
  file conn' = file conn ∧ foreign_keys conn' = foreign_keys conn
  ∧ users (txn conn') = users (txn conn).
Proof.
  unfold insert_keyword. case_bool_decide; [by intros [= <- <-]|].
  destruct (_ && _); intros [= <- <-]; done.
Qed.

Lemma insert_keywords_file user_id l now conn r conn' :
  Database.insert_keywords user_id l now conn = (r, conn') →
  file conn' = file conn ∧ foreign_keys conn' = foreign_keys conn
  ∧ users (txn conn') = users (txn conn).
Proof.
  revert conn. induction l as [|k l IH]; intros conn; simpl.
  - by intros [= <- <-].
  - unfold mbind, SQL_bind.
    destruct (insert_keyword _ _ _ conn) as [[e|id] conn1] eqn:H1;
      apply insert_keyword_file in H1 as (Hf & Hfk & Hu).
    + by intros [= <- <-].
    + intros (? & ? & ?)%IH. split_and!; congruence.
Qed.

(** The loop over [keyword_list] runs to its end only when the lowercased
    keywords are pairwise different and none is already stored for the user. *)
Lemma insert_keywords_ok user_id l now conn conn' :
  Database.insert_keywords user_id l now conn = (inr (), conn') →
  NoDup (Py.lower <$> l)
  ∧ ∀ kw, kw ∈ Py.lower <$> l → (user_id, kw) ∉ keyword_keys (txn conn).
Proof.
  revert conn. induction l as [|k l IH]; intros conn; simpl.
  - intros _. split; [constructor | by intros kw ?%elem_of_nil].
  - unfold mbind, SQL_bind.
    destruct (insert_keyword _ _ _ conn) as [[e|id] conn1] eqn:H1; [done|].
    intros [Hnd Hfresh]%IH. unfold insert_keyword in H1.
    case_bool_decide as Hdup; [done|]. destruct (_ && _); [done|].
    injection H1 as <- <-.
    assert (Hkeys : ∀ kw, (user_id, kw) ∈ keyword_keys (txn conn)
                          ∨ kw = Py.lower k
                          → (user_id, kw) ∈ keyword_keys
                               (txn (on_txn (set_keywords (λ l0, l0 ++ [
                                  {| k_id := next_rowid (k_id <$> keywords (txn conn));
                                     k_user_id := user_id; k_keyword := Py.lower k;
                                     k_created_at := now |}])) conn))).
    { intros kw Hkw. unfold keyword_keys. simpl. rewrite fmap_app, elem_of_app.
      destruct Hkw as [?| ->]; [by left | right; simpl; left]. }
    split.
    + constructor; [|done]. intros Hin. eapply Hfresh; [done|]. apply Hkeys. by right.
    + intros kw [->|Hin]%elem_of_cons; [done|].
      intros Hold. eapply Hfresh; [done|]. apply Hkeys. by left.
Qed.

(** ** [add_user] *)

Lemma add_user_unfold chat_id name email intention kws now s :
  Database.add_user chat_id name email intention kws now s =
  match insert_user chat_id name email intention now (get_connection s) with
  | (inl _, _) => (None, s)
  | (inr user_id, conn1) =>
      match Database.insert_keywords user_id (Database.keyword_list kws) now conn1 with
      | (inl _, _) => (None, s)
      | (inr _, conn2) => (Some user_id, txn conn2)
      end
  end.
Proof.
  unfold Database.add_user, with_connection, mbind, SQL_bind, sql_do, mret, SQL_ret.
  destruct (insert_user _ _ _ _ _ _) as [[[]|user_id] conn1] eqn:H1;
    apply insert_user_file in H1 as [Hf1 _]; simpl in Hf1; unfold close;
    [by rewrite Hf1|].
  destruct (Database.insert_keywords _ _ _ _) as [[[]|[]] conn2] eqn:H2;
    apply insert_keywords_file in H2 as (Hf2 & _ & _); simpl.
  - by rewrite Hf2, Hf1.
  - done.
Qed.

(** Whatever the store holds, a keywords text that repeats a keyword after
    trimming and lowercasing makes [add_user] return [None] and leaves the
    file as it was: the repeated INSERT breaks UNIQUE(user_id, keyword) and
    nothing is committed. *)
Lemma add_user_repeated_keyword chat_id name email intention kws now s :
  ¬ NoDup (Py.lower <$> Database.keyword_list kws) →
  Database.add_user chat_id name email intention kws now s = (None, s).
Proof.
  intros Hdup. rewrite add_user_unfold.
  destruct (insert_user _ _ _ _ _ _) as [[e|user_id] conn1]; [done|].
  destruct (Database.insert_keywords _ _ _ _) as [[e|[]] conn2] eqn:H2; [done|].
  apply insert_keywords_ok in H2 as [Hnd _]. by destruct Hdup.
Qed.

Lemma next_rowid_fresh (ids : list nat) : next_rowid ids ∉ ids.
Proof.
  unfold next_rowid. intros Hin. apply max_list_elem_of_le in Hin. lia.
Qed.

(** C3 (the code at a repeated keyword).  Registering chat 42 with the
    keywords text "rust, Rust" in an empty database: [add_user] returns
    [None], and neither the user nor any keyword is stored. *)
Theorem add_user_repeated_keyword_rejected :
  Database.add_user "42" "Ana" "ana@example.org" "news" "rust, Rust"
    "2024-05-01T10:00:00" empty_store = (None, empty_store)
  ∧ Database.keyword_list "rust, Rust" = ["rust"; "Rust"].
Proof. split; reflexivity. Qed.

(** For a chat id not yet registered and a keywords text without any
    non-empty token, [add_user] returns the new user's id; it appends the
    user row and inserts no keyword row; read back, the user has no
    keywords, provided no stored keyword row was left without its user. *)
Lemma add_user_without_keywords chat_id name email intention kws now s :
  chat_id ∉ u_chat_id <$> users s →
  Database.keyword_list kws = [] →
  let row := new_user_row s chat_id name email intention now in
  let s' := set_users (λ l, l ++ [row]) s in
  Database.add_user chat_id name email intention kws now s = (Some (u_id row), s')
  ∧ keywords s' = keywords s
  ∧ (∃ kl, Database.get_user_by_chat_id chat_id s' = Some (row, kl)
           ∧ (keywords_reference_users s → kl = [])).
Proof.
  intros Hfresh Hkl row s'. rewrite add_user_unfold. unfold insert_user.
  simpl. rewrite bool_decide_eq_false_2 by done. rewrite Hkl. simpl.
  split_and!; [done..|].
  unfold Database.get_user_by_chat_id, select_user_by_chat_id. simpl.
  rewrite filter_app, (filter_none _ (users s)).
  2:{ intros u Hu Heq. apply Hfresh. apply list_elem_of_fmap. by exists u. }
  rewrite filter_cons_True by done. simpl.
  eexists. split; [done|]. intros Href.
  unfold select_keywords_of. simpl.
  rewrite (filter_none _ (keywords s)); [done|].
  intros k Hk Heq. apply Href in Hk.
  rewrite Heq in Hk. by apply next_rowid_fresh in Hk.
Qed.

Lemma add_user_without_keywords_witness :
  let s := empty_store in
  let row := new_user_row s "42" "Ana" "ana@example.org" "news"
               "2024-05-01T10:00:00" in
  let s' := set_users (λ l, l ++ [row]) s in
  ("42" ∉ u_chat_id <$> users s)
  ∧ Database.keyword_list " , ," = []
  ∧ Database.add_user "42" "Ana" "ana@example.org" "news" " , ,"
      "2024-05-01T10:00:00" s = (Some 1, s')
  ∧ keywords s' = []
  ∧ ∃ kl, Database.get_user_by_chat_id "42" s' = Some (row, kl)
          ∧ (keywords_reference_users s → kl = []).
Proof.
  intros s row s'.
  assert (H1 : "42" ∉ u_chat_id <$> users s) by (by intros ?%elem_of_nil).
  assert (H2 : Database.keyword_list " , ," = []) by reflexivity.
  split; [exact H1|]. split; [exact H2|].
  exact (add_user_without_keywords "42" "Ana" "ana@example.org" "news" " , ,"
           "2024-05-01T10:00:00" empty_store H1 H2).
Defined.

(** White space is what [str.strip] takes for it: a keywords text of commas,
    no-break spaces and ideographic spaces has no token either. *)
Example keyword_list_unicode_white_space :
  Database.keyword_list " ,　 ," = []
  ∧ Database.keyword_list " Saúde ,　Educação " = ["Saúde"; "Educação"].
Proof. split; reflexivity. Qed.

(** ** [remove_user] *)

Lemma select_user_by_chat_id_None chat_id conn :
  select_user_by_chat_id chat_id conn = None ↔
  chat_id ∉ u_chat_id <$> users (txn conn).
Proof.
  unfold select_user_by_chat_id. rewrite head_None. split.
  - intros Hnil (u & -> & Hu)%list_elem_of_fmap.
    by apply (filter_is_nil _ _ u Hnil).
  - intros Hno. apply filter_none. intros u Hu <-. apply Hno.
    by apply list_elem_of_fmap_2.
Qed.

(** [remove_user] answers whether a row with that chat id existed, and
    afterwards no such row is left; the other user rows stay. *)
Lemma remove_user_users chat_id s :
  (Database.remove_user chat_id s).1 = bool_decide (chat_id ∈ u_chat_id <$> users s)
  ∧ users (Database.remove_user chat_id s).2
    = filter (λ u, u_chat_id u ≠ chat_id) (users s).
Proof.
  unfold Database.remove_user.
  destruct (select_user_by_chat_id _ _) as [u|] eqn:Hsel; simpl.
  - split; [|done]. symmetry. apply bool_decide_eq_true_2.
    destruct (decide (chat_id ∈ u_chat_id <$> users s)) as [|Hno]; [done|].
    apply (select_user_by_chat_id_None chat_id (get_connection s)) in Hno.
    congruence.
  - apply select_user_by_chat_id_None in Hsel. simpl in Hsel. split.
    + symmetry. by apply bool_decide_eq_false_2.
    + symmetry. apply filter_all. intros u Hu Heq. apply Hsel.
      rewrite <- Heq. by apply list_elem_of_fmap_2.
Qed.

(** On the connection that [get_connection] opens, the DELETE of
    [remove_user] never touches the keywords table. *)
Lemma remove_user_keeps_keywords chat_id s :
  keywords (Database.remove_user chat_id s).2 = keywords s.
Proof.
  unfold Database.remove_user.
  by destruct (select_user_by_chat_id _ _).
Qed.

(** The same DELETE on a connection that enforces foreign keys leaves no
    keyword row of a deleted user. *)
Lemma delete_cascades_when_enforced chat_id conn k :
  foreign_keys conn = true →
  k ∈ keywords (txn (delete_users_where_chat_id chat_id conn)) →
  ∀ u, u ∈ users (txn conn) → u_chat_id u = chat_id → k_user_id k ≠ u_id u.
Proof.
  unfold delete_users_where_chat_id. intros -> Hk u Hu Hc Heq. simpl in Hk.
  apply list_elem_of_filter in Hk as [Hk _]. apply Hk.
  apply list_elem_of_fmap. exists u. split; [done|].
  by apply list_elem_of_filter.
Qed.

(** C4 (the code at a user with keywords).  Chat 42 registers with
    "rust, backend" and is then removed: [remove_user] returns [True] and
    the user row is gone, but both keyword rows of user 1 are still stored. *)
Theorem remove_user_leaves_keyword_rows :
  let s := (Database.add_user "42" "Ana" "ana@example.org" "news"
              "rust, backend" "2024-05-01T10:00:00" empty_store).2 in
  let s' := (Database.remove_user "42" s).2 in
  (Database.remove_user "42" s).1 = true
  ∧ users s' = []
  ∧ keywords s' =
      [ {| k_id := 1; k_user_id := 1; k_keyword := "rust";
           k_created_at := "2024-05-01T10:00:00" |};
        {| k_id := 2; k_user_id := 1; k_keyword := "backend";
           k_created_at := "2024-05-01T10:00:00" |} ]
  ∧ ¬ keywords_reference_users s'.
Proof.
  split_and!; [reflexivity..|].
  intros Href. specialize (Href _ (list_elem_of_here _ _)).
  by apply elem_of_nil in Href.
Qed.

(** What the left-over rows do next: rowid 1 is free again, so the next
    registration gets it and reads back the removed user's keywords. *)
Example add_user_after_remove_inherits_keywords :
  let s := (Database.add_user "42" "Ana" "ana@example.org" "news"
              "rust, backend" "2024-05-01T10:00:00" empty_store).2 in
  let s' := (Database.remove_user "42" s).2 in
  let r := Database.add_user "77" "Bruno" "bruno@example.org" "news" ""
             "2024-05-02T09:00:00" s' in
  r.1 = Some 1
  ∧ snd <$> Database.get_user_by_chat_id "77" r.2 = Some ["backend"; "rust"].
Proof. split; reflexivity. Qed.

(** C10.  [add_user] with a fresh chat id and a keywords text without any
    non-empty token, after another user was registered and removed: the
    call returns an id and inserts no keyword row, but the id is the one of
    the removed user, whose keyword rows [remove_user] left in the table, so
    the new user does not have an empty keyword set: it reads back with the
    keywords of the removed user. *)
Theorem add_user_without_keywords_gets_left_over_keywords :
  let s := (Database.add_user "42" "Ana" "ana@example.org" "news"
              "rust, backend" "2024-05-01T10:00:00" empty_store).2 in
  let s' := (Database.remove_user "42" s).2 in
  let r := Database.add_user "77" "Bruno" "bruno@example.org" "news" " , ,"
             "2024-05-02T09:00:00" s' in
  "77" ∉ u_chat_id <$> users s'
  ∧ Database.keyword_list " , ," = []
  ∧ r.1 = Some 1
  ∧ keywords r.2 = keywords s'
  ∧ snd <$> Database.get_user_by_chat_id "77" r.2 = Some ["backend"; "rust"].
Proof.
  split_and!; [|reflexivity..]. cbn. by intros ?%elem_of_nil.
Qed.

(** ** The ledger *)

Lemma is_tweet_processed_spec tweet_id s :
  Database.is_tweet_processed tweet_id s = true ↔ ledger_entries tweet_id s ≠ [].
Proof.
  unfold Database.is_tweet_processed, ledger_entries. simpl.
  rewrite bool_decide_eq_true. destruct (filter _ _) as [|t l]; simpl.
  - split; [by intros [? ?] | done].
  - split; [done | by eexists].
Qed.

Lemma ledger_entries_elem tweet_id s :
  ledger_entries tweet_id s = [] ↔ tweet_id ∉ t_tweet_id <$> tweets s.
Proof.
  unfold ledger_entries. split.
  - intros Hnil (t & -> & Ht)%list_elem_of_fmap. by apply (filter_is_nil _ _ t Hnil).
  - intros Hno. apply filter_none. intros t Ht <-. apply Hno.
    by apply list_elem_of_fmap_2.
Qed.

Lemma add_tweet_fresh tweet_id tweet_text tweet_link now s :
  Database.is_tweet_processed tweet_id s = false →
  Database.add_tweet tweet_id tweet_text tweet_link now s
  = (true, set_tweets (λ l, l ++ [new_tweet_row s tweet_id tweet_text tweet_link now]) s).
Proof.
  intros Hnew. apply not_true_iff_false in Hnew.
  rewrite is_tweet_processed_spec in Hnew. apply dec_stable in Hnew.
  apply ledger_entries_elem in Hnew.
  unfold Database.add_tweet, with_connection, mbind, SQL_bind, insert_tweet. simpl.
  by rewrite bool_decide_eq_false_2.
Qed.

Lemma add_tweet_processed tweet_id tweet_text tweet_link now s :
  Database.is_tweet_processed tweet_id s = true →
  Database.add_tweet tweet_id tweet_text tweet_link now s = (false, s).
Proof.
  intros Hold. apply is_tweet_processed_spec in Hold.
  assert (Hin : tweet_id ∈ t_tweet_id <$> tweets s).
  { destruct (decide (tweet_id ∈ t_tweet_id <$> tweets s)) as [|Hno]; [done|].
    by apply ledger_entries_elem in Hno. }
  unfold Database.add_tweet, with_connection, mbind, SQL_bind, insert_tweet. simpl.
  by rewrite bool_decide_eq_true_2.
Qed.

Lemma ledger_entries_after_insert tweet_id tweet_text tweet_link now s :
  ledger_entries tweet_id s = [] →
  ledger_entries tweet_id
    (set_tweets (λ l, l ++ [new_tweet_row s tweet_id tweet_text tweet_link now]) s)
  = [new_tweet_row s tweet_id tweet_text tweet_link now].
Proof.
  unfold ledger_entries. simpl. intros Hnil. rewrite filter_app, Hnil.
  by rewrite filter_cons_True.
Qed.

(** ** The fan-out of one notification *)

Section FanOutProperties.

Variable World : Type.
Variable bot_send_message : string → string → World → bool * World.

Local Abbreviation fanout := (fan_out World bot_send_message).

(** What the loop does from any [delivery_count] and [processed_groups]: it
    leaves the database alone and appends [new] to the log, where the
    delivered groups are pairwise different and none was processed before;
    they are what is added to [processed_groups], and their number to
    [delivery_count]. *)
Lemma fan_out_spec users tweet_text tweet_link dc (pg : gset string) env :
  ∃ new,
    let r := fanout users tweet_text tweet_link dc pg env in
    db_file r.2 = db_file env
    ∧ api_log r.2 = api_log env ++ new
    ∧ NoDup (delivered new)
    ∧ (∀ g, g ∈ delivered new → g ∉ pg)
    ∧ r.1.2 = pg ∪ list_to_set (delivered new)
    ∧ r.1.1 = dc + length (delivered new)
    ∧ (∀ e, e ∈ new →
         ∃ g ok u, e = SendMessage g (MESSAGES_new_tweet tweet_text tweet_link) ok
                   ∧ u ∈ users ∧ u_group_id u = Some g).
Proof.
  revert dc pg env. induction users as [|user rest IH]; intros dc pg env.
  - exists []. simpl. rewrite app_nil_r.
    split_and!; [done | done | constructor | by intros g ?%elem_of_nil
                | set_solver | lia | by intros e ?%elem_of_nil].
  - assert (Hweak : ∀ new : list event,
      (∀ e, e ∈ new → ∃ g ok u,
           e = SendMessage g (MESSAGES_new_tweet tweet_text tweet_link) ok
           ∧ u ∈ rest ∧ u_group_id u = Some g) →
      ∀ e, e ∈ new → ∃ g ok u,
           e = SendMessage g (MESSAGES_new_tweet tweet_text tweet_link) ok
           ∧ u ∈ user :: rest ∧ u_group_id u = Some g).
    { intros new H e He. destruct (H e He) as (g & ok & u & -> & Hin & Hu).
      exists g, ok, u. split_and!; [done | by right | done]. }
    simpl. destruct (u_group_id user) as [g|] eqn:Hg.
    + destruct (negb (Py.truthy g) || bool_decide (g ∈ pg)) eqn:Hskip.
      * destruct (IH dc pg env) as (new & H1 & H2 & H3 & H4 & H5 & H6 & H7).
        exists new. split_and!; [done..|]. by apply (Hweak new).
      * apply orb_false_iff in Hskip as [_ Hnotin].
        apply bool_decide_eq_false in Hnotin.
        unfold mbind, M_bind, send_tweet_to_group, api_send_message.
        destruct (bot_send_message g _ (world env)) as [[] w] eqn:Hsend.
        -- set (env1 := {| db_file := db_file env; world := w; api_log := _ |}).
           destruct (IH (dc + 1) (pg ∪ {[g]}) env1)
             as (new & H1 & H2 & H3 & H4 & H5 & H6 & H7).
           exists (SendMessage g (MESSAGES_new_tweet tweet_text tweet_link) true :: new).
           simpl in *. split_and!.
           ++ done.
           ++ by rewrite H2, <- app_assoc.
           ++ constructor; [|done]. intros Hin. apply H4 in Hin. set_solver.
           ++ intros g' [->|Hin]%elem_of_cons; [done|]. apply H4 in Hin. set_solver.
           ++ rewrite H5. set_solver.
           ++ rewrite H6. lia.
           ++ intros e [->|Hin]%elem_of_cons.
              ** exists g, true, user. split_and!; [done | by left | done].
              ** by apply (Hweak new).
        -- set (env1 := {| db_file := db_file env; world := w; api_log := _ |}).
           destruct (IH dc pg env1) as (new & H1 & H2 & H3 & H4 & H5 & H6 & H7).
           exists (SendMessage g (MESSAGES_new_tweet tweet_text tweet_link) false :: new).
           simpl in *. split_and!; [done | by rewrite H2, <- app_assoc | done..|].
           intros e [->|Hin]%elem_of_cons.
           ++ exists g, false, user. split_and!; [done | by left | done].
           ++ by apply (Hweak new).
    + destruct (IH dc pg env) as (new & H1 & H2 & H3 & H4 & H5 & H6 & H7).
      exists new. split_and!; [done..|]. by apply (Hweak new).
Qed.

(** The loop sends to no group that is in [processed_groups], and a group
    is in it from the delivery on. *)
Lemma fan_out_stops_at_delivery users tweet_text tweet_link dc (pg : gset string) env :
  ∃ new,
    api_log (fanout users tweet_text tweet_link dc pg env).2 = api_log env ++ new
    ∧ (∀ g, g ∈ pg → g ∉ attempted new)
    ∧ stops_at_delivery new.
Proof.
  revert dc pg env. induction users as [|user rest IH]; intros dc pg env.
  - exists []. simpl. rewrite app_nil_r. split_and!; [done| |done].
    by intros g _ ?%elem_of_nil.
  - simpl. destruct (u_group_id user) as [g0|]; [|apply IH].
    destruct (negb (Py.truthy g0) || bool_decide (g0 ∈ pg)) eqn:Hskip; [apply IH|].
    apply orb_false_iff in Hskip as [_ Hnotin].
    apply bool_decide_eq_false in Hnotin.
    unfold mbind, M_bind, send_tweet_to_group, api_send_message.
    destruct (bot_send_message g0 _ (world env)) as [[] w].
    + set (env1 := {| db_file := db_file env; world := w; api_log := _ |}).
      destruct (IH (dc + 1) (pg ∪ {[g0]}) env1) as (new & Hlog & Hpg & Hstop).
      exists (SendMessage g0 (MESSAGES_new_tweet tweet_text tweet_link) true :: new).
      split_and!.
      * rewrite Hlog. cbn. by rewrite <- app_assoc.
      * intros g Hg. cbn. rewrite elem_of_cons. intros [->|Hin]; [done|].
        apply (Hpg g); [set_solver|done].
      * cbn. split; [|done]. apply Hpg. set_solver.
    + set (env1 := {| db_file := db_file env; world := w; api_log := _ |}).
      destruct (IH dc pg env1) as (new & Hlog & Hpg & Hstop).
      exists (SendMessage g0 (MESSAGES_new_tweet tweet_text tweet_link) false :: new).
      split_and!.
      * rewrite Hlog. cbn. by rewrite <- app_assoc.
      * intros g Hg. cbn. rewrite elem_of_cons. intros [->|Hin]; [done|].
        by apply (Hpg g).
      * done.
Qed.

End FanOutProperties.

Lemma stops_at_delivery_split (log before after : list event) group_id text :
  stops_at_delivery log →
  log = before ++ SendMessage group_id text true :: after →
  group_id ∉ attempted after.
Proof.
  revert log. induction before as [|e before IH]; intros log Hstop ->.
  - by destruct Hstop.
  - apply (IH (before ++ SendMessage group_id text true :: after)); [|done].
    cbn in Hstop. destruct e as [g t []|? ?]; [by destruct Hstop|done..].
Qed.

Lemma NoDup_count_le_1 (l : list string) (x : string) :
  NoDup l → length (filter (λ y, y = x) l) ≤ 1.
Proof.
  induction 1 as [|y l Hy Hnd IH]; simpl; [lia|].
  destruct (decide (y = x)) as [->|Hne].
  - rewrite filter_cons_True by done. rewrite filter_none; [simpl; lia|].
    by intros z Hz ->.
  - by rewrite filter_cons_False.
Qed.

Section WebhookProperties.

Variable World : Type.
Variable bot_send_message : string → string → World → bool * World.
Variable datetime_now : World → string * World.
Variable md5_hexdigest : string → string.

Local Abbreviation fanout := (fan_out World bot_send_message).
Local Abbreviation process :=
  (process_tweet_notification World bot_send_message datetime_now md5_hexdigest).
Local Abbreviation tweet_id_for := (request_tweet_id md5_hexdigest).

(** One call of [process_tweet_notification], by the three ways it ends. *)
Lemma process_tweet_notification_spec request env :
  match tweet_id_for request with
  | None => process request env = (BadRequest, env)
  | Some tweet_id =>
      if Database.is_tweet_processed tweet_id (db_file env)
      then process request env = (AlreadyProcessed, env)
      else
        ∃ tweet_link tweet_text new now,
          let users := Database.find_users_by_keywords tweet_text (db_file env) in
          form_link request = Some tweet_link
          ∧ form_text request = Some tweet_text
          ∧ (process request env).1
            = Processed (length (delivered new)) (length users)
                (size (list_to_set (delivered new) : gset string))
          ∧ api_log (process request env).2 = api_log env ++ new
          ∧ NoDup (delivered new)
          ∧ db_file (fanout users tweet_text tweet_link 0 ∅ env).2 = db_file env
          ∧ db_file (process request env).2
            = set_tweets (λ l, l ++ [new_tweet_row (db_file env) tweet_id
                                       tweet_text tweet_link now]) (db_file env)
  end.
Proof.
  unfold request_tweet_id, process_tweet_notification.
  destruct (form_link request) as [tweet_link|]; [|done].
  destruct (form_text request) as [tweet_text|]; [|done].
  destruct (Py.truthy tweet_link); [|done].
  destruct (Py.truthy tweet_text); [|done]. simpl.
  set (tweet_id := tweet_id_of _ _ _ _).
  unfold mbind, M_bind, db_read.
  destruct (Database.is_tweet_processed tweet_id (db_file env)) eqn:Hnew; [done|].
  set (users := Database.find_users_by_keywords tweet_text (db_file env)).
  destruct (fan_out_spec World bot_send_message users tweet_text tweet_link 0 ∅ env)
    as (new & Hdb & Hlog & Hnd & _ & Hpg & Hdc & _).
  destruct (fanout users tweet_text tweet_link 0 ∅ env) as [[dc pg] env1] eqn:Hfan.
  simpl in Hdb, Hlog, Hpg, Hdc. unfold db_call.
  destruct (datetime_now (world env1)) as [now w].
  rewrite Hdb, add_tweet_fresh by done. simpl.
  exists tweet_link, tweet_text, new, now.
  split_and!; try done.
  - rewrite Hpg, Hdc. by rewrite (left_id_L ∅ (∪)).
  - unfold users in Hfan. by rewrite Hfan.
Qed.

(** C1.  When a first notification has been processed and its tweet id
    recorded, a second notification with the same tweet id is answered
    "already processed"; it calls nothing outside (the log, the world and
    the database are as the first call left them), and the ledger holds
    exactly one row for the tweet id. *)
Theorem process_tweet_twice request request' tweet_id env :
  tweet_id_for request = Some tweet_id →
  tweet_id_for request' = Some tweet_id →
  let first := process request env in
  let second := process request' first.2 in
  (∃ dc mu ug, first.1 = Processed dc mu ug) →
  second = (AlreadyProcessed, first.2)
  ∧ delivered (api_log second.2) = delivered (api_log first.2)
  ∧ length (ledger_entries tweet_id (db_file second.2)) = 1.
Proof.
  intros Hid Hid' first second (dc & mu & ug & Hfirst).
  pose proof (process_tweet_notification_spec request env) as H1.
  rewrite Hid in H1.
  destruct (Database.is_tweet_processed tweet_id (db_file env)) eqn:Hnew.
  { unfold first in Hfirst. by rewrite H1 in Hfirst. }
  destruct H1 as (tweet_link & tweet_text & new & now & _ & _ & _ & _ & _ & _ & Hdb).
  fold first in Hdb.
  assert (Hent : ledger_entries tweet_id (db_file first.2)
                 = [new_tweet_row (db_file env) tweet_id tweet_text tweet_link now]).
  { rewrite Hdb. apply ledger_entries_after_insert.
    apply not_true_iff_false in Hnew. rewrite is_tweet_processed_spec in Hnew.
    by apply dec_stable in Hnew. }
  pose proof (process_tweet_notification_spec request' first.2) as H2.
  rewrite Hid' in H2.
  rewrite (proj2 (is_tweet_processed_spec tweet_id (db_file first.2))) in H2
    by (by rewrite Hent).
  fold second in H2. rewrite H2. simpl. by rewrite Hent.
Qed.

(** The log of one call is the log of its loop, when it has one. *)
Lemma process_tweet_notification_log request env :
  api_log (process request env).2 = api_log env
  ∨ ∃ tweet_link tweet_text,
      api_log (process request env).2
      = api_log (fanout (Database.find_users_by_keywords tweet_text (db_file env))
                   tweet_text tweet_link 0 ∅ env).2.
Proof.
  unfold process_tweet_notification.
  destruct (form_link request) as [tweet_link|]; [|by left].
  destruct (form_text request) as [tweet_text|]; [|by left].
  destruct (negb (Py.truthy tweet_link) || negb (Py.truthy tweet_text)); [by left|].
  unfold mbind, M_bind, db_read.
  destruct (Database.is_tweet_processed _ (db_file env)); [by left|].
  right. exists tweet_link, tweet_text.
  destruct (fanout _ tweet_text tweet_link 0 ∅ env) as [[dc pg] env1].
  unfold db_call. destruct (datetime_now (world env1)) as [now w].
  by destruct (Database.add_tweet _ _ _ _ _).
Qed.

(** C2, as amended.  In one call, whatever the transport answers, the
    messages delivered are to pairwise different groups: no group is
    delivered the post more than once, however many matched users share it,
    and once the post is delivered to a group nothing more is sent to that
    group.  A send that failed is not a delivery: the group may be tried
    again for a later matched user. *)
Theorem fan_out_delivers_once_per_group request env :
  ∃ new,
    api_log (process request env).2 = api_log env ++ new
    ∧ NoDup (delivered new)
    ∧ (∀ group_id, length (filter (λ g, g = group_id) (delivered new)) ≤ 1)
    ∧ (∀ before after group_id text,
         new = before ++ SendMessage group_id text true :: after →
         group_id ∉ attempted after).
Proof.
  assert (H : ∃ new, api_log (process request env).2 = api_log env ++ new
                     ∧ NoDup (delivered new) ∧ stops_at_delivery new).
  { destruct (process_tweet_notification_log request env)
      as [Hlog|(tweet_link & tweet_text & Hlog)].
    - exists []. rewrite Hlog, app_nil_r. split_and!; [done|constructor|done].
    - set (users := Database.find_users_by_keywords tweet_text (db_file env)) in *.
      destruct (fan_out_spec World bot_send_message users tweet_text tweet_link
                  0 ∅ env) as (new & _ & Hnew & Hnd & _).
      destruct (fan_out_stops_at_delivery World bot_send_message users tweet_text
                  tweet_link 0 ∅ env) as (new' & Hnew' & _ & Hstop).
      cbn in Hnew. rewrite Hnew in Hnew'. apply app_inv_head in Hnew' as <-.
      exists new. by rewrite Hlog, Hnew. }
  destruct H as (new & Hlog & Hnd & Hstop). exists new.
  split_and!; [done..| |].
  - intros group_id. by apply NoDup_count_le_1.
  - intros before after group_id text. by apply stops_at_delivery_split.
Qed.

(** C6.  A well-formed notification whose tweet id is not in the ledger is
    answered as processed and leaves its row appended to the ledger, whatever
    the store holds and whatever the transport answers; the loop of
    deliveries runs before, on the ledger as it was; a later identical
    notification is answered as already processed. *)
Theorem fresh_post_always_recorded request tweet_id env :
  tweet_id_for request = Some tweet_id →
  Database.is_tweet_processed tweet_id (db_file env) = false →
  let r := process request env in
  (∃ dc mu ug, r.1 = Processed dc mu ug)
  ∧ (∃ tweet_link tweet_text now,
       form_link request = Some tweet_link
       ∧ form_text request = Some tweet_text
       ∧ db_file (fanout (Database.find_users_by_keywords tweet_text (db_file env))
                    tweet_text tweet_link 0 ∅ env).2 = db_file env
       ∧ db_file r.2
         = set_tweets (λ l, l ++ [new_tweet_row (db_file env) tweet_id
                                    tweet_text tweet_link now]) (db_file env))
  ∧ Database.is_tweet_processed tweet_id (db_file r.2) = true
  ∧ process request r.2 = (AlreadyProcessed, r.2).
Proof.
  intros Hid Hnew r.
  pose proof (process_tweet_notification_spec request env) as H1.
  rewrite Hid, Hnew in H1.
  destruct H1 as (tweet_link & tweet_text & new & now & Hl & Ht & Hr & _ & _ & Hfan & Hdb).
  fold r in Hr, Hdb.
  assert (Hdone : Database.is_tweet_processed tweet_id (db_file r.2) = true).
  { apply is_tweet_processed_spec. rewrite Hdb.
    rewrite ledger_entries_after_insert; [done|].
    apply not_true_iff_false in Hnew. rewrite is_tweet_processed_spec in Hnew.
    by apply dec_stable in Hnew. }
  split_and!; [by eauto | | done |].
  - by exists tweet_link, tweet_text, now.
  - pose proof (process_tweet_notification_spec request r.2) as H2.
    by rewrite Hid, Hdone in H2.
Qed.

(** C9.  In every "processed" answer [delivery_count] equals
    [unique_groups]: both are the number of groups a message of this call
    was delivered to, so a group whose every attempt failed is in neither. *)
Theorem delivery_count_equals_unique_groups request env dc mu ug :
  (process request env).1 = Processed dc mu ug →
  dc = ug
  ∧ ∃ new,
      api_log (process request env).2 = api_log env ++ new
      ∧ dc = length (delivered new)
      ∧ ug = size (list_to_set (delivered new) : gset string).
Proof.
  intros Hr. pose proof (process_tweet_notification_spec request env) as H.
  destruct (tweet_id_for request) as [tweet_id|]; [|by rewrite H in Hr].
  destruct (Database.is_tweet_processed tweet_id (db_file env));
    [by rewrite H in Hr|].
  destruct H as (? & ? & new & ? & _ & _ & Hp & Hlog & Hnd & _).
  rewrite Hp in Hr. injection Hr as <- <- <-.
  split; [by rewrite size_list_to_set | by exists new].
Qed.

End WebhookProperties.

(** ** The reconciliation cycle *)

Section MonitorProperties.

Variable World : Type.
Variable bot_send_message : string → string → World → bool * World.
Variable bot_create_chat_invite_link : string → World → option string * World.
Variable datetime_now : World → string * World.

Local Abbreviation reconcile_each :=
  (process_each_group World bot_send_message bot_create_chat_invite_link datetime_now).
Local Abbreviation reconcile :=
  (_process_groups World bot_send_message bot_create_chat_invite_link datetime_now).


(** C7.  From a state where no user is without a group, the loop over any
    list of remaining groups ends without calling the Telegram API, reading
    the clock or writing the database; so does a whole cycle, and the
    incomplete groups are the same afterwards. *)
Theorem no_unassigned_user_aborts_cycle env :
  Database.get_user_without_group (db_file env) = None →
  (∀ incomplete_groups, reconcile_each incomplete_groups env = ((), env))
  ∧ reconcile env = ((), env)
  ∧ Database.get_incomplete_groups (db_file (reconcile env).2)
    = Database.get_incomplete_groups (db_file env).
Proof.
  intros Hnone.
  assert (Hloop : ∀ incomplete_groups, reconcile_each incomplete_groups env = ((), env)).
  { induction incomplete_groups as [|group rest IH]; [done|]. simpl.
    destruct (_ && _); [done|].
    unfold mbind, M_bind, db_read. by rewrite Hnone. }
  assert (Hcycle : reconcile env = ((), env)).
  { unfold _process_groups, mbind, M_bind, db_read.
    destruct (Database.get_incomplete_groups (db_file env)); [done | apply Hloop]. }
  split_and!; [done..|]. by rewrite Hcycle.
Qed.

End MonitorProperties.

(** ** Locks *)

Module LockingProperties.
Import Locking.

(** The five [Database] objects share the file and have five locks. *)
Lemma locks_are_per_object :
  let m := import_main in
  let dbs := [bot_handlers_db m; webhook_db m; monitor_db m;
              admin_commands_db m; main_db m] in
  NoDup (db_lock <$> dbs)
  ∧ Forall (λ d, obj_file d = "bot_database.db") dbs.
Proof.
  split.
  - apply (bool_decide_unpack _). by vm_compute.
  - repeat constructor.
Qed.

(** C8 (the code with two threads).  The monitor thread enters
    [monitor.db.update_group] and executes its UPDATE; a request thread then
    enters [bot_handlers.db.backup_database]: its lock is another one, so it
    is not kept waiting, and it copies the file while the UPDATE is not yet
    committed.  Both locks are held at that moment. *)
Theorem backup_copies_during_monitor_write :
  ∃ st,
    run [0; 0; 1] monitor_and_backup = Some st
    ∧ held st = [db_lock (bot_handlers_db import_main);
                 db_lock (monitor_db import_main)]
    ∧ threads st = [[Commit "bot_database.db"; Release 2];
                    [Copy "bot_database.db"; Release 0]]
    ∧ copy_during_write "bot_database.db" st = true
    ∧ is_Some (step 1 st).
Proof.
  eexists. split; [reflexivity|]. split_and!; [reflexivity..|].
  by eexists.
Qed.

Lemma forallb_elem {A} (f : A → bool) (l : list A) (x : A) :
  forallb f l = true → x ∈ l → f x = true.
Proof.
  intros Hall Hx. apply list_elem_of_In in Hx.
  by apply (proj1 (forallb_forall f l) Hall).
Qed.

(** Every state of [explore 7 shared_object] has two threads, steps only to
    states of that list, and has no copy during a write. *)
Lemma shared_object_explored :
  forallb (λ st,
    (length (threads st) =? 2)
    && negb (copy_during_write "bot_database.db" st)
    && forallb (λ i, match step i st with
                     | Some st' => bool_decide (st' ∈ explore 7 shared_object)
                     | None => true
                     end) [0; 1])
    (explore 7 shared_object) = true.
Proof. by vm_compute. Qed.

Lemma shared_object_closed (schedule : list nat) (st st' : state) :
  st ∈ explore 7 shared_object →
  run schedule st = Some st' →
  st' ∈ explore 7 shared_object.
Proof.
  revert st. induction schedule as [|i rest IH]; intros st Hin; simpl.
  - by intros [= <-].
  - destruct (step i st) as [st1|] eqn:Hstep; [|done].
    apply IH. pose proof (forallb_elem _ _ _ shared_object_explored Hin) as Hst.
    apply andb_true_iff in Hst as [Hst Hnext].
    apply andb_true_iff in Hst as [Hlen _]. apply Nat.eqb_eq in Hlen.
    destruct i as [|[|i]].
    + simpl in Hnext. rewrite Hstep in Hnext.
      apply andb_true_iff in Hnext as [Hnext _]. by apply bool_decide_eq_true in Hnext.
    + simpl in Hnext. rewrite Hstep in Hnext.
      apply andb_true_iff in Hnext as [_ Hnext].
      apply andb_true_iff in Hnext as [Hnext _]. by apply bool_decide_eq_true in Hnext.
    + unfold step in Hstep. rewrite lookup_ge_None_2 in Hstep by lia. done.
Qed.

(** Had the two calls been made on one [Database] object, no interleaving
    would copy the file during a write: the lock does its work for the
    object that owns it. *)
Lemma shared_object_excludes_copy_during_write (schedule : list nat) (st : state) :
  run schedule shared_object = Some st →
  copy_during_write "bot_database.db" st = false.
Proof.
  intros Hrun.
  assert (Hin : st ∈ explore 7 shared_object).
  { apply (shared_object_closed schedule shared_object); [|done].
    simpl. left. }
  pose proof (forallb_elem _ _ _ shared_object_explored Hin) as Hst.
  apply andb_true_iff in Hst as [Hst _]. apply andb_true_iff in Hst as [_ Hsafe].
  by apply negb_true_iff in Hsafe.
Qed.

(** [init_db] never gets to its end: after the statements of its own block
    it waits for the lock it holds. *)
Example init_db_waits_for_its_own_lock :
  let db := bot_handlers_db import_main in
  ∃ st, run [0; 0; 0] {| held := []; threads := [init_db db] |} = Some st
        ∧ held st = [db_lock db]
        ∧ step 0 st = None.
Proof. eexists. split; [reflexivity|]. split; reflexivity. Qed.

End LockingProperties.

(** ** The theorems at the sample deployment *)

(** The first send to the shared group fails and the second succeeds: the
    loop tries the group again for the next matched user, and delivers once. *)
Example fan_out_tries_again_after_a_failed_send :
  let r := Sample.process Sample.notification (Sample.env [false; true]) in
  r.1 = Processed 1 2 1
  ∧ api_log r.2 =
      [ SendMessage "-1001"
          (MESSAGES_new_tweet "New Rust backend release!" "https://x.com/i/status/1790")
          false;
        SendMessage "-1001"
          (MESSAGES_new_tweet "New Rust backend release!" "https://x.com/i/status/1790")
          true ]
  ∧ delivered (api_log r.2) = ["-1001"].
Proof. split_and!; reflexivity. Qed.

(** Counterexample to C2 as the spec states it, with failed sends counted
    as deliveries: two matched users share the group -1001, the send for
    the first fails, and the same post is sent to the same group a second
    time in the same call. *)
Lemma fan_out_sends_again_after_a_failed_send :
  let r := Sample.process Sample.notification (Sample.env [false; true]) in
  Database.find_users_by_keywords "New Rust backend release!" Sample.store
  = [Sample.bea; Sample.ana]
  ∧ u_group_id Sample.ana = u_group_id Sample.bea
  ∧ attempted (api_log r.2) = ["-1001"; "-1001"]
  ∧ ¬ NoDup (attempted (api_log r.2)).
Proof.
  split_and!; [reflexivity..|].
  intros Hnd. apply NoDup_cons_1_1 in Hnd. apply Hnd. left.
Qed.

Lemma process_tweet_twice_witness :
  let first := Sample.process Sample.notification (Sample.env [false; true]) in
  let second := Sample.process Sample.notification_again first.2 in
  request_tweet_id Sample.digest Sample.notification = Some "1790"
  ∧ request_tweet_id Sample.digest Sample.notification_again = Some "1790"
  ∧ (∃ dc mu ug, first.1 = Processed dc mu ug)
  ∧ second = (AlreadyProcessed, first.2)
  ∧ delivered (api_log second.2) = delivered (api_log first.2)
  ∧ length (ledger_entries "1790" (db_file second.2)) = 1.
Proof.
  intros first second.
  assert (H1 : request_tweet_id Sample.digest Sample.notification = Some "1790")
    by reflexivity.
  assert (H1' : request_tweet_id Sample.digest Sample.notification_again = Some "1790")
    by reflexivity.
  assert (H2 : ∃ dc mu ug, first.1 = Processed dc mu ug)
    by (exists 1, 2, 1; reflexivity).
  split; [exact H1|]. split; [exact H1'|]. split; [exact H2|].
  exact (process_tweet_twice Sample.World Sample.bot_send_message
           Sample.datetime_now Sample.digest Sample.notification
           Sample.notification_again "1790" (Sample.env [false; true]) H1 H1' H2).
Defined.

Lemma fresh_post_always_recorded_witness :
  let env := Sample.env [false; false] in
  let r := Sample.process Sample.notification env in
  request_tweet_id Sample.digest Sample.notification = Some "1790"
  ∧ Database.is_tweet_processed "1790" (db_file env) = false
  ∧ r.1 = Processed 0 2 0
  ∧ Database.is_tweet_processed "1790" (db_file r.2) = true
  ∧ Sample.process Sample.notification r.2 = (AlreadyProcessed, r.2).
Proof.
  intros env r.
  assert (H1 : request_tweet_id Sample.digest Sample.notification = Some "1790")
    by reflexivity.
  assert (H2 : Database.is_tweet_processed "1790" (db_file env) = false)
    by reflexivity.
  split; [exact H1|]. split; [exact H2|]. split; [reflexivity|].
  exact (proj2 (proj2 (fresh_post_always_recorded Sample.World
           Sample.bot_send_message Sample.datetime_now Sample.digest
           Sample.notification "1790" env H1 H2))).
Defined.

Lemma delivery_count_equals_unique_groups_witness :
  let env := Sample.env [false; true] in
  (Sample.process Sample.notification env).1 = Processed 1 2 1
  ∧ 1 = 1
  ∧ ∃ new,
      api_log (Sample.process Sample.notification env).2 = api_log env ++ new
      ∧ 1 = length (delivered new)
      ∧ 1 = size (list_to_set (delivered new) : gset string).
Proof.
  intros env.
  assert (H1 : (Sample.process Sample.notification env).1 = Processed 1 2 1)
    by reflexivity.
  split; [exact H1|].
  exact (delivery_count_equals_unique_groups Sample.World Sample.bot_send_message
           Sample.datetime_now Sample.digest Sample.notification env 1 2 1 H1).
Defined.

Lemma no_unassigned_user_aborts_cycle_witness :
  let env := Sample.env [] in
  let reconcile :=
    _process_groups Sample.World Sample.bot_send_message
      Sample.bot_create_chat_invite_link Sample.datetime_now in
  Database.get_user_without_group (db_file env) = None
  ∧ length (Database.get_incomplete_groups (db_file env)) = 2
  ∧ reconcile env = ((), env)
  ∧ Database.get_incomplete_groups (db_file (reconcile env).2)
    = Database.get_incomplete_groups (db_file env).
Proof.
  intros env reconcile.
  assert (H1 : Database.get_user_without_group (db_file env) = None)
    by reflexivity.
  split; [exact H1|]. split; [reflexivity|].
  exact (proj2 (no_unassigned_user_aborts_cycle Sample.World
           Sample.bot_send_message Sample.bot_create_chat_invite_link
           Sample.datetime_now env H1)).
Defined.

(** With a user still without a group the same cycle completes the first
    incomplete group, binds the user to it and sends the invitation; the
    second group finds no user left and stays incomplete. *)
Example one_unassigned_user_is_bound_to_the_first_group :
  let bruno :=
    {| u_id := 3; u_chat_id := "503"; u_name := "Bruno";
       u_email := "bruno@example.org"; u_intention := "news";
       u_created_at := "2024-04-07T09:00:00"; u_updated_at := "2024-04-07T09:00:00";
       u_group_id := None; u_group_name := None; u_invite_link := None |} in
  let env : Env Sample.World :=
    {| db_file := set_users (λ l, l ++ [bruno]) Sample.store;
       world := []; api_log := [] |} in
  let r := _process_groups Sample.World Sample.bot_send_message
             Sample.bot_create_chat_invite_link Sample.datetime_now env in
  g_group_id <$> Database.get_incomplete_groups (db_file r.2) = ["-1003"]
  ∧ (λ u, u_group_id u.1) <$> Database.get_user_by_chat_id "503" (db_file r.2)
    = Some (Some "-1002")
  ∧ api_log r.2 =
      [ CreateChatInviteLink "-1002" (Some "https://t.me/+-1002");
        SendMessage "503" (MESSAGES_group_invitation "https://t.me/+-1002") true ].
Proof. split_and!; reflexivity. Qed.

(** * Further properties of the store *)

(** ** Registration *)

Lemma max_list_snoc (l : list nat) (n : nat) :
  max_list (l ++ [n]) = max_list l `max` n.
Proof. induction l as [|m l IH]; simpl; lia. Qed.

Lemma keyword_keys_new_rows last_id user_id kws now :
  (λ k, (k_user_id k, k_keyword k)) <$> new_keyword_rows last_id user_id kws now
  = (λ kw, (user_id, kw)) <$> kws.
Proof.
  revert last_id. induction kws as [|kw rest IH]; intros last_id; simpl; [done|].
  by rewrite IH.
Qed.

Lemma new_keyword_rows_ids last_id user_id kws now :
  k_id <$> new_keyword_rows last_id user_id kws now
  = seq (S last_id) (length kws).
Proof.
  revert last_id. induction kws as [|kw rest IH]; intros last_id; simpl; [done|].
  by rewrite IH.
Qed.

(** When the lowercased keywords are pairwise different and none is stored
    for the user yet, the loop of INSERTs runs to its end and appends one
    row per keyword, in order. *)
Lemma insert_keywords_success user_id l now conn :
  foreign_keys conn = false →
  NoDup (Py.lower <$> l) →
  (∀ kw, kw ∈ Py.lower <$> l → (user_id, kw) ∉ keyword_keys (txn conn)) →
  Database.insert_keywords user_id l now conn
  = (inr (),
     on_txn (set_keywords (λ ks, ks ++
       new_keyword_rows (max_list (k_id <$> keywords (txn conn))) user_id
         (Py.lower <$> l) now)) conn).
Proof.
  revert conn. induction l as [|k l IH]; intros conn Hfk Hnd Hfresh.
  - simpl. unfold mret, SQL_ret, on_txn, set_keywords. destruct conn as [f [us gs ks ts] fk].
    simpl. by rewrite app_nil_r.
  - rewrite fmap_cons in Hnd, Hfresh. apply NoDup_cons in Hnd as [Hk Hnd].
    cbn [Database.insert_keywords]. unfold mbind, SQL_bind, insert_keyword.
    rewrite bool_decide_eq_false_2 by (apply Hfresh; left).
    rewrite Hfk. cbn [andb].
    set (row := {| k_id := _; k_user_id := user_id |}).
    rewrite IH.
    + f_equal. unfold on_txn, set_keywords. destruct conn as [f [us gs ks ts] fk].
      cbn. f_equal. f_equal. rewrite <- app_assoc. cbn. f_equal. f_equal.
      f_equal. rewrite fmap_app. change (k_id <$> [row]) with [k_id row].
      rewrite max_list_snoc. subst row. cbn. unfold next_rowid. lia.
    + done.
    + done.
    + intros kw Hkw. unfold keyword_keys. cbn. rewrite fmap_app, elem_of_app.
      intros [Hold|Hnew].
      * by apply (Hfresh kw); [right|].
      * cbn in Hnew. apply list_elem_of_singleton in Hnew. injection Hnew as ->.
        done.
Qed.

Lemma add_user_succeeds_exactly_aux chat_id name email intention kws now s :
  let user_id := next_rowid (u_id <$> users s) in
  let kl := Py.lower <$> Database.keyword_list kws in
  let accepted :=
    chat_id ∉ u_chat_id <$> users s
    ∧ NoDup kl
    ∧ ∀ kw, kw ∈ kl → (user_id, kw) ∉ keyword_keys s in
  (accepted →
     Database.add_user chat_id name email intention kws now s
     = (Some user_id,
        {| users := users s ++ [new_user_row s chat_id name email intention now];
           groups := groups s;
           keywords := keywords s ++
             new_keyword_rows (max_list (k_id <$> keywords s)) user_id kl now;
           tweets := tweets s |}))
  ∧ (¬ accepted →
     Database.add_user chat_id name email intention kws now s = (None, s)).
Proof.
  intros user_id kl accepted. rewrite add_user_unfold. unfold insert_user.
  cbn [get_connection sqlite3_connect txn]. split.
  - intros (Hchat & Hnd & Hfresh).
    rewrite bool_decide_eq_false_2 by done.
    rewrite insert_keywords_success; [done..|].
    intros kw Hkw. apply (Hfresh kw Hkw).
  - intros Hno. case_bool_decide as Hchat; [done|].
    destruct (Database.insert_keywords _ _ _ _) as [[e|[]] conn2] eqn:H2; [done|].
    apply insert_keywords_ok in H2 as [Hnd Hfresh]. destruct Hno.
    split_and!; [done..|]. intros kw Hkw. apply (Hfresh kw Hkw).
Qed.

(** X1.  [add_user] succeeds exactly when the chat id is new, the keywords
    are pairwise different once trimmed and lowercased, and none of them is
    already stored under the id the new row gets.  It then returns that id
    and appends the user row and one keyword row per keyword, in order; in
    every other case it returns [None] and the file is as before. *)
Theorem add_user_succeeds_exactly chat_id name email intention kws now s :
  let user_id := next_rowid (u_id <$> users s) in
  let kl := Py.lower <$> Database.keyword_list kws in
  let accepted :=
    chat_id ∉ u_chat_id <$> users s
    ∧ NoDup kl
    ∧ ∀ kw, kw ∈ kl → (user_id, kw) ∉ keyword_keys s in
  (accepted →
     Database.add_user chat_id name email intention kws now s
     = (Some user_id,
        {| users := users s ++ [new_user_row s chat_id name email intention now];
           groups := groups s;
           keywords := keywords s ++
             new_keyword_rows (max_list (k_id <$> keywords s)) user_id kl now;
           tweets := tweets s |}))
  ∧ (¬ accepted →
     Database.add_user chat_id name email intention kws now s = (None, s)).
Proof. exact (add_user_succeeds_exactly_aux chat_id name email intention kws now s). Qed.

(** Keywords are compared as stored, that is lowercased by [str.lower]:
    two spellings of one letter outside ASCII are one keyword. *)
Example add_user_keywords_equal_once_lowercased :
  Py.lower <$> Database.keyword_list "É, é" = ["é"; "é"]
  ∧ Database.add_user "42" "Ana" "ana@example.org" "news" "É, é"
      "2024-05-01T10:00:00" empty_store = (None, empty_store).
Proof. split; reflexivity. Qed.

Lemma new_keyword_rows_user last_id user_id kws now k :
  k ∈ new_keyword_rows last_id user_id kws now → k_user_id k = user_id.
Proof.
  revert last_id. induction kws as [|kw rest IH]; intros last_id; simpl.
  - by intros ?%elem_of_nil.
  - intros [->|Hin]%elem_of_cons; [done | by eapply IH].
Qed.

Lemma new_keyword_rows_keywords last_id user_id kws now :
  k_keyword <$> new_keyword_rows last_id user_id kws now = kws.
Proof.
  revert last_id. induction kws as [|kw rest IH]; intros last_id; simpl; [done|].
  by rewrite IH.
Qed.

(** X2.  Registering a new chat id with keywords that are pairwise different
    once trimmed and lowercased, in a store without keyword rows left behind,
    succeeds; [get_user_by_chat_id] then returns the new row with exactly
    those keywords, trimmed and lowercased, in ascending order whatever the
    order they were given in; the lookups of all other chat ids are as
    before, and no keyword row is without its user afterwards. *)
Theorem add_user_then_get_user_by_chat_id chat_id name email intention kws now s :
  chat_id ∉ u_chat_id <$> users s →
  NoDup (Py.lower <$> Database.keyword_list kws) →
  keywords_reference_users s →
  let r := Database.add_user chat_id name email intention kws now s in
  r.1 = Some (next_rowid (u_id <$> users s))
  ∧ Database.get_user_by_chat_id chat_id r.2
    = Some (new_user_row s chat_id name email intention now,
            sorted (Py.lower <$> Database.keyword_list kws))
  ∧ (∀ other, other ≠ chat_id →
       Database.get_user_by_chat_id other r.2 = Database.get_user_by_chat_id other s)
  ∧ keywords_reference_users r.2.
Proof.
  intros Hchat Hnd Href r.
  assert (Hfresh : ∀ k, k ∈ keywords s → k_user_id k ≠ next_rowid (u_id <$> users s)).
  { intros k Hk Heq. apply Href in Hk. rewrite Heq in Hk.
    by apply next_rowid_fresh in Hk. }
  destruct (add_user_succeeds_exactly_aux chat_id name email intention kws now s)
    as [Hok _].
  unfold r. rewrite Hok; clear Hok.
  2:{ split_and!; [done..|]. intros kw _ (k & Hk & Hin)%list_elem_of_fmap.
      injection Hk as Hid _. by apply (Hfresh k). }
  cbn [fst snd]. split_and!.
  - done.
  - unfold Database.get_user_by_chat_id, select_user_by_chat_id, select_keywords_of.
    cbn. rewrite filter_app, (filter_none _ (users s)).
    2:{ intros u Hu Heq. apply Hchat. apply list_elem_of_fmap. by exists u. }
    rewrite filter_cons_True by done. cbn. f_equal. f_equal.
    rewrite filter_app, (filter_none _ (keywords s)) by (intros k Hk; by apply Hfresh).
    rewrite filter_all by (intros k Hk; by eapply new_keyword_rows_user).
    cbn. by rewrite new_keyword_rows_keywords.
  - intros other Hother.
    unfold Database.get_user_by_chat_id, select_user_by_chat_id, select_keywords_of.
    cbn. rewrite filter_app, filter_cons_False by (cbn; congruence).
    rewrite filter_nil, app_nil_r.
    destruct (head (filter _ (users s))) as [u|] eqn:Hhead; [|done].
    f_equal. f_equal. rewrite filter_app.
    rewrite (filter_none _ (new_keyword_rows _ _ _ _)); [by rewrite app_nil_r|].
    intros k Hk Heq. apply new_keyword_rows_user in Hk.
    apply head_Some_elem_of, list_elem_of_filter in Hhead as [_ Hu].
    apply (next_rowid_fresh (u_id <$> users s)). rewrite <- Hk, Heq.
    by apply list_elem_of_fmap_2.
  - intros k. cbn. rewrite elem_of_app, fmap_app, elem_of_app.
    intros [Hk|Hk]; [left; by apply Href|right].
    apply new_keyword_rows_user in Hk. rewrite Hk. cbn. left.
Qed.

Lemma add_user_then_get_user_by_chat_id_witness :
  let r := Database.add_user "42" "Ana" "ana@example.org" "news"
             " Rust , backend,," "2024-05-01T10:00:00" Sample.store in
  ("42" ∉ u_chat_id <$> users Sample.store)
  ∧ NoDup (Py.lower <$> Database.keyword_list " Rust , backend,,")
  ∧ keywords_reference_users Sample.store
  ∧ r.1 = Some 3
  ∧ snd <$> Database.get_user_by_chat_id "42" r.2 = Some ["backend"; "rust"].
Proof.
  intros r.
  assert (H1 : "42" ∉ u_chat_id <$> users Sample.store)
    by (apply (bool_decide_unpack _); by vm_compute).
  assert (H2 : NoDup (Py.lower <$> Database.keyword_list " Rust , backend,,"))
    by (apply (bool_decide_unpack _); by vm_compute).
  assert (H3 : keywords_reference_users Sample.store).
  { intros k Hk. apply (bool_decide_unpack _).
    repeat (apply elem_of_cons in Hk as [->|Hk]; [by vm_compute|]).
    by apply elem_of_nil in Hk. }
  pose proof (add_user_then_get_user_by_chat_id "42" "Ana" "ana@example.org"
                "news" " Rust , backend,," "2024-05-01T10:00:00" Sample.store
                H1 H2 H3) as (Hid & Hget & _ & _).
  split_and!; [done..|exact Hid|].
  fold r in Hget. rewrite Hget. reflexivity.
Defined.

(** ** Removal *)

Lemma remove_user_then_get_user_by_chat_id_aux chat_id s :
  let r := Database.remove_user chat_id s in
  (chat_id ∉ u_chat_id <$> users s → r = (false, s))
  ∧ Database.get_user_by_chat_id chat_id r.2 = None
  ∧ (∀ other, other ≠ chat_id →
       Database.get_user_by_chat_id other r.2 = Database.get_user_by_chat_id other s)
  ∧ groups r.2 = groups s
  ∧ tweets r.2 = tweets s.
Proof.
  intros r.
  pose proof (remove_user_users chat_id s) as [Hret Husers].
  pose proof (remove_user_keeps_keywords chat_id s) as Hkw.
  fold r in Hret, Husers, Hkw. split_and!.
  - intros Hno. unfold r, Database.remove_user.
    by rewrite (proj2 (select_user_by_chat_id_None chat_id (get_connection s)) Hno).
  - unfold Database.get_user_by_chat_id, select_user_by_chat_id. cbn.
    rewrite Husers, list_filter_filter, filter_none; [done|]. by intros u _ [? ?].
  - intros other Hother.
    unfold Database.get_user_by_chat_id, select_user_by_chat_id, select_keywords_of.
    cbn. rewrite Husers, Hkw, list_filter_filter.
    rewrite (list_filter_iff _ (λ u, u_chat_id u = other)); [done|].
    intros u. split; [by intros [? _] | intros ->; done].
  - unfold r, Database.remove_user. by destruct (select_user_by_chat_id _ _).
  - unfold r, Database.remove_user. by destruct (select_user_by_chat_id _ _).
Qed.

(** X3.  [remove_user] of a chat id that is not registered returns [False]
    and changes nothing.  In every case the chat id is not registered
    afterwards, the lookup of every other chat id gives what it gave before,
    and the groups and the ledger are untouched. *)
Theorem remove_user_then_get_user_by_chat_id chat_id s :
  let r := Database.remove_user chat_id s in
  (chat_id ∉ u_chat_id <$> users s → r = (false, s))
  ∧ Database.get_user_by_chat_id chat_id r.2 = None
  ∧ (∀ other, other ≠ chat_id →
       Database.get_user_by_chat_id other r.2 = Database.get_user_by_chat_id other s)
  ∧ groups r.2 = groups s
  ∧ tweets r.2 = tweets s.
Proof. exact (remove_user_then_get_user_by_chat_id_aux chat_id s). Qed.

(** ** Binding a user to a group *)

Lemma filter_fmap_preserved {A} (P : A → Prop) `{!∀ x, Decision (P x)}
    (f : A → A) (l : list A) :
  (∀ x, P (f x) ↔ P x) → filter P (f <$> l) = f <$> filter P l.
Proof.
  intros Hf. induction l as [|a l IH]; [done|]. rewrite fmap_cons.
  destruct (decide (P a)) as [Ha|Ha].
  - rewrite (filter_cons_True P (f a)) by (by apply Hf).
    rewrite (filter_cons_True P a) by done. by rewrite fmap_cons, IH.
  - rewrite (filter_cons_False P (f a)) by (by rewrite Hf).
    by rewrite (filter_cons_False P a).
Qed.

Lemma fmap_unchanged {A} (f : A → A) (l : list A) :
  (∀ x, x ∈ l → f x = x) → f <$> l = l.
Proof.
  induction l as [|a l IH]; intros Hf; [done|]. rewrite fmap_cons.
  rewrite Hf by left. f_equal. apply IH. intros x Hx. apply Hf. by right.
Qed.

Lemma filter_length_pos {A} (P : A → Prop) `{!∀ x, Decision (P x)} (l : list A) :
  0 < length (filter P l) ↔ ∃ x, x ∈ l ∧ P x.
Proof.
  split.
  - destruct (filter P l) as [|x l'] eqn:Hf; [simpl; lia|]. intros _.
    exists x. assert (Hx : x ∈ filter P l) by (rewrite Hf; left).
    apply list_elem_of_filter in Hx as [? ?]. done.
  - intros (x & Hx & HP).
    assert (Hin : x ∈ filter P l) by (by apply list_elem_of_filter).
    destruct (filter P l); [by apply elem_of_nil in Hin | simpl; lia].
Qed.

Lemma update_user_group_binds_aux chat_id group_id group_name invite_link now s :
  let r := Database.update_user_group chat_id group_id group_name invite_link now s in
  r.1 = bool_decide (chat_id ∈ u_chat_id <$> users s)
  ∧ (chat_id ∉ u_chat_id <$> users s → r.2 = s)
  ∧ (∀ u ks, Database.get_user_by_chat_id chat_id s = Some (u, ks) →
       Database.get_user_by_chat_id chat_id r.2
       = Some (bound_user_row u group_id group_name invite_link now, ks))
  ∧ (∀ other, other ≠ chat_id →
       Database.get_user_by_chat_id other r.2 = Database.get_user_by_chat_id other s)
  ∧ groups r.2 = groups s ∧ keywords r.2 = keywords s ∧ tweets r.2 = tweets s.
Proof.
  intros r. unfold r, Database.update_user_group, update_users_where_chat_id.
  cbn. set (f := λ u : user_row, if bool_decide (u_chat_id u = chat_id) then _ else u).
  assert (Hchat : ∀ u, u_chat_id (f u) = u_chat_id u).
  { intros u. unfold f. by case_bool_decide. }
  assert (Hid : ∀ u, u_id (f u) = u_id u).
  { intros u. unfold f. by case_bool_decide. }
  split_and!; [| |intros u ks|intros other Hother|done..].
  - apply bool_decide_ext. rewrite filter_length_pos, list_elem_of_fmap.
    split; [intros (u & Hu & Hc) | intros (u & -> & Hu)].
    + apply bool_decide_eq_true in Hc. exists u. done.
    + exists u. split; [done|]. by apply bool_decide_eq_true.
  - intros Hno. destruct s as [us gs ks ts]. unfold set_users. cbn in *. f_equal.
    apply fmap_unchanged. intros u Hu. unfold f.
    rewrite bool_decide_eq_false_2; [done|]. intros Heq. apply Hno.
    rewrite <- Heq. by apply list_elem_of_fmap_2.
  - unfold Database.get_user_by_chat_id, select_user_by_chat_id, select_keywords_of.
    cbn. rewrite (filter_fmap_preserved (λ u, u_chat_id u = chat_id) f)
      by (intros x; by rewrite Hchat).
    destruct (filter _ (users s)) as [|u0 rest] eqn:Hf; [done|]. cbn.
    intros [= <- <-]. rewrite Hid. f_equal. f_equal. unfold f.
    assert (Hu0 : u0 ∈ filter (λ u, u_chat_id u = chat_id) (users s))
      by (rewrite Hf; left).
    apply list_elem_of_filter in Hu0 as [Hu0 _]. by rewrite bool_decide_eq_true_2.
  - unfold Database.get_user_by_chat_id, select_user_by_chat_id, select_keywords_of.
    cbn. rewrite (filter_fmap_preserved (λ u, u_chat_id u = other) f)
      by (intros x; by rewrite Hchat).
    destruct (filter _ (users s)) as [|u0 rest] eqn:Hf; [done|]. cbn.
    assert (Hu0 : u0 ∈ filter (λ u, u_chat_id u = other) (users s))
      by (rewrite Hf; left).
    apply list_elem_of_filter in Hu0 as [Hu0 _].
    assert (Hsame : f u0 = u0).
    { unfold f. case_bool_decide; [congruence | done]. }
    by rewrite Hsame.
Qed.

(** X4.  [update_user_group] returns whether the chat id is registered and
    changes nothing when it is not.  When it is, the row read back has the
    three binding fields set together to the arguments, its other fields and
    keywords as before; every other chat id reads back as before, and the
    groups, the keywords and the ledger are untouched. *)
Theorem update_user_group_binds chat_id group_id group_name invite_link now s :
  let r := Database.update_user_group chat_id group_id group_name invite_link now s in
  r.1 = bool_decide (chat_id ∈ u_chat_id <$> users s)
  ∧ (chat_id ∉ u_chat_id <$> users s → r.2 = s)
  ∧ (∀ u ks, Database.get_user_by_chat_id chat_id s = Some (u, ks) →
       Database.get_user_by_chat_id chat_id r.2
       = Some (bound_user_row u group_id group_name invite_link now, ks))
  ∧ (∀ other, other ≠ chat_id →
       Database.get_user_by_chat_id other r.2 = Database.get_user_by_chat_id other s)
  ∧ groups r.2 = groups s ∧ keywords r.2 = keywords s ∧ tweets r.2 = tweets s.
Proof. exact (update_user_group_binds_aux chat_id group_id group_name invite_link now s). Qed.

(** ** Groups *)

(** X5.  [add_group] refuses a group id that is already stored and changes
    nothing then.  Otherwise it appends the row and returns its rowid; the
    new group is listed by [get_incomplete_groups], after the ones listed
    before, unless it was given both a name and a link. *)
Theorem add_group_then_get_incomplete_groups group_id group_name invite_link now s :
  let r := Database.add_group group_id group_name invite_link now s in
  let row := {| g_id := next_rowid (g_id <$> groups s); g_group_id := group_id;
                g_group_name := group_name; g_invite_link := invite_link;
                g_created_at := now; g_updated_at := now |} in
  (group_id ∈ g_group_id <$> groups s → r = (None, s))
  ∧ (group_id ∉ g_group_id <$> groups s →
       r = (Some (g_id row), set_groups (λ l, l ++ [row]) s)
       ∧ Database.get_incomplete_groups r.2
         = Database.get_incomplete_groups s
           ++ (if group_complete row then [] else [row])).
Proof.
  intros r row. unfold r, Database.add_group, with_connection, mbind, SQL_bind,
    insert_group. cbn. split; intros Hin.
  - by rewrite bool_decide_eq_true_2.
  - rewrite bool_decide_eq_false_2 by done. cbn. split; [done|].
    unfold Database.get_incomplete_groups. cbn. rewrite filter_app. f_equal.
    unfold group_complete, null_or_empty. cbn.
    destruct (Py.truthy_opt group_name), (Py.truthy_opt invite_link); by cbn.
Qed.

Lemma update_group_completes_aux group_id group_name invite_link now s :
  let r := Database.update_group group_id (Some group_name) (Some invite_link) now s in
  r.1 = bool_decide (group_id ∈ g_group_id <$> groups s)
  ∧ (group_id ∉ g_group_id <$> groups s → r.2 = s)
  ∧ (Py.truthy group_name = true → Py.truthy invite_link = true →
       Database.get_incomplete_groups r.2
       = filter (λ g, g_group_id g ≠ group_id) (Database.get_incomplete_groups s))
  ∧ users r.2 = users s ∧ keywords r.2 = keywords s ∧ tweets r.2 = tweets s.
Proof.
  intros r. unfold r, Database.update_group, update_groups_where_group_id.
  cbn. set (f := λ g : group_row, if bool_decide (g_group_id g = group_id) then _ else g).
  split_and!; [| |intros Hname Hlink|done..].
  - apply bool_decide_ext. rewrite filter_length_pos, list_elem_of_fmap.
    split; [intros (g & Hg & Hc) | intros (g & -> & Hg)].
    + apply bool_decide_eq_true in Hc. by exists g.
    + exists g. split; [done|]. by apply bool_decide_eq_true.
  - intros Hno. destruct s as [us gs ks ts]. unfold set_groups. cbn in *. f_equal.
    apply fmap_unchanged. intros g Hg. unfold f.
    rewrite bool_decide_eq_false_2; [done|]. intros Heq. apply Hno.
    rewrite <- Heq. by apply list_elem_of_fmap_2.
  - unfold Database.get_incomplete_groups. cbn.
    induction (groups s) as [|g gs IH]; [done|]. rewrite fmap_cons.
    destruct (decide (g_group_id g = group_id)) as [Heq|Hne].
    + assert (Hfg : ¬ (null_or_empty (g_group_name (f g))
                       || null_or_empty (g_invite_link (f g)) = true)).
      { unfold f. rewrite bool_decide_eq_true_2 by done. cbn.
        unfold null_or_empty. cbn. by rewrite Hname, Hlink. }
      rewrite (filter_cons_False _ (f g)) by done. rewrite IH.
      destruct (decide (null_or_empty (g_group_name g)
                        || null_or_empty (g_invite_link g) = true)).
      * rewrite (filter_cons_True _ g) by done.
        by rewrite filter_cons_False by (intros ?; done).
      * by rewrite (filter_cons_False _ g).
    + assert (Hfg : f g = g).
      { unfold f. by rewrite bool_decide_eq_false_2. }
      rewrite Hfg.
      destruct (decide (null_or_empty (g_group_name g)
                        || null_or_empty (g_invite_link g) = true)).
      * rewrite !(filter_cons_True _ g) by done. by rewrite IH.
      * by rewrite !(filter_cons_False _ g).
Qed.

(** X6.  [update_group] returns whether the group id is stored and changes
    nothing when it is not.  Given a non-empty name and a non-empty link, it
    takes the group out of what [get_incomplete_groups] lists and leaves the
    other listed groups as they were, in their order; users, keywords and
    ledger are untouched. *)
Theorem update_group_completes group_id group_name invite_link now s :
  let r := Database.update_group group_id (Some group_name) (Some invite_link) now s in
  r.1 = bool_decide (group_id ∈ g_group_id <$> groups s)
  ∧ (group_id ∉ g_group_id <$> groups s → r.2 = s)
  ∧ (Py.truthy group_name = true → Py.truthy invite_link = true →
       Database.get_incomplete_groups r.2
       = filter (λ g, g_group_id g ≠ group_id) (Database.get_incomplete_groups s))
  ∧ users r.2 = users s ∧ keywords r.2 = keywords s ∧ tweets r.2 = tweets s.
Proof. exact (update_group_completes_aux group_id group_name invite_link now s). Qed.

Lemma update_group_completes_witness :
  let r := Database.update_group "-1002" (Some "Grupo de Ana - rust")
             (Some "https://t.me/+b") "2024-05-01T10:00:00" Sample.store in
  Py.truthy "Grupo de Ana - rust" = true
  ∧ Py.truthy "https://t.me/+b" = true
  ∧ r.1 = true
  ∧ g_group_id <$> Database.get_incomplete_groups r.2 = ["-1003"].
Proof.
  intros r.
  pose proof (update_group_completes "-1002" "Grupo de Ana - rust"
                "https://t.me/+b" "2024-05-01T10:00:00" Sample.store)
    as (_ & _ & Hinc & _).
  specialize (Hinc eq_refl eq_refl). fold r in Hinc.
  split_and!; [done..|]. by rewrite Hinc.
Defined.

(** ** The oldest user without a group *)

Lemma ltb_false_le (a b : string) : String.ltb a b = false → String.le b a.
Proof.
  unfold String.ltb, String.le, String.leb. rewrite (String.compare_antisym a b).
  by destruct (String.compare b a).
Qed.

Lemma ltb_true_le (a b : string) : String.ltb a b = true → String.le a b.
Proof.
  unfold String.ltb, String.le, String.leb. by destruct (String.compare a b).
Qed.

Lemma oldest_created_spec (best : user_row) (l : list user_row) :
  oldest_created best l ∈ best :: l
  ∧ ∀ u, u ∈ best :: l →
      String.le (u_created_at (oldest_created best l)) (u_created_at u).
Proof.
  revert best. induction l as [|x l IH]; intros best; simpl.
  - split; [left|]. by intros u ->%list_elem_of_singleton.
  - destruct (String.ltb (u_created_at x) (u_created_at best)) eqn:Hlt.
    + destruct (IH x) as [Hin Hmin]. split.
      * right. done.
      * intros u [->|Hu]%elem_of_cons; [|by apply Hmin].
        etrans; [apply Hmin; left|]. by apply ltb_true_le.
    + destruct (IH best) as [Hin Hmin]. split.
      * apply elem_of_cons in Hin as [->|Hin]; [left | right; by right].
      * intros u [->|[->|Hu]%elem_of_cons]%elem_of_cons.
        -- apply Hmin. left.
        -- etrans; [apply Hmin; left|]. by apply ltb_false_le.
        -- apply Hmin. by right.
Qed.

Lemma get_user_without_group_oldest_aux s :
  match Database.get_user_without_group s with
  | None => ∀ u, u ∈ users s → null_or_empty (u_group_id u) = false
  | Some (user, user_keywords) =>
      user ∈ users s
      ∧ null_or_empty (u_group_id user) = true
      ∧ user_keywords = select_keywords_of (u_id user) s
      ∧ ∀ u, u ∈ users s → null_or_empty (u_group_id u) = true →
          String.le (u_created_at user) (u_created_at u)
  end.
Proof.
  unfold Database.get_user_without_group. cbn.
  destruct (filter _ (users s)) as [|u0 rest] eqn:Hf.
  - intros u Hu. apply not_true_iff_false. by apply (filter_is_nil _ _ u Hf).
  - destruct (oldest_created_spec u0 rest) as [Hin Hmin]. rewrite <- Hf in Hin, Hmin.
    apply list_elem_of_filter in Hin as [Hun Hin]. split_and!; [done..|].
    intros u Hu Hnone. apply Hmin. by apply list_elem_of_filter.
Qed.

Lemma select_keywords_of_spec user_id s :
  select_keywords_of user_id s
    ≡ₚ k_keyword <$> filter (λ k, k_user_id k = user_id) (keywords s)
  ∧ StronglySorted String.le (select_keywords_of user_id s).
Proof.
  unfold select_keywords_of, sorted.
  split; [apply merge_sort_Permutation | apply StronglySorted_merge_sort; apply _].
Qed.

(** X7.  [get_user_without_group] returns [None] exactly when every user has
    a non-empty [group_id].  Otherwise it returns a stored user whose
    [group_id] is NULL or empty, and no other such user has an earlier
    [created_at]; with it come the keywords stored under that user's id,
    each as often as it is stored, in ascending order. *)
Theorem get_user_without_group_oldest s :
  match Database.get_user_without_group s with
  | None => ∀ u, u ∈ users s → null_or_empty (u_group_id u) = false
  | Some (user, user_keywords) =>
      user ∈ users s
      ∧ null_or_empty (u_group_id user) = true
      ∧ user_keywords
          ≡ₚ k_keyword <$> filter (λ k, k_user_id k = u_id user) (keywords s)
      ∧ StronglySorted String.le user_keywords
      ∧ ∀ u, u ∈ users s → null_or_empty (u_group_id u) = true →
          String.le (u_created_at user) (u_created_at u)
  end.
Proof.
  pose proof (get_user_without_group_oldest_aux s) as H.
  destruct (Database.get_user_without_group s) as [[user user_keywords]|]; [|done].
  destruct H as (Hin & Hnone & -> & Hmin).
  destruct (select_keywords_of_spec (u_id user) s) as [Hperm Hsorted].
  by split_and!.
Qed.

(** Among users created at the same time the one first in the table is
    taken, and the keywords come sorted, not as they were typed. *)
Example get_user_without_group_first_of_equals :
  let s := (Database.add_user "2" "Bea" "b@example.org" "news" "go"
              "2024-05-01T10:00:00"
              (Database.add_user "1" "Ana" "a@example.org" "news"
                 "rust, go, zig, ada" "2024-05-01T10:00:00" empty_store).2).2 in
  (λ r : user_row * list string, (u_chat_id r.1, r.2))
    <$> Database.get_user_without_group s
  = Some ("1", ["ada"; "go"; "rust"; "zig"]).
Proof. reflexivity. Qed.

(** ** The ledger, once more *)

(** X8.  [add_tweet] returns [True] exactly when the tweet id was not in the
    ledger; afterwards the id is in the ledger in every case.  A second
    recording of an id changes nothing, so the first text and link stay; and
    whether any other id counts as processed is not affected. *)
Theorem add_tweet_then_is_tweet_processed tweet_id tweet_text tweet_link now s :
  let r := Database.add_tweet tweet_id tweet_text tweet_link now s in
  r.1 = negb (Database.is_tweet_processed tweet_id s)
  ∧ Database.is_tweet_processed tweet_id r.2 = true
  ∧ (Database.is_tweet_processed tweet_id s = true → r.2 = s)
  ∧ (∀ other, other ≠ tweet_id →
       Database.is_tweet_processed other r.2 = Database.is_tweet_processed other s)
  ∧ users r.2 = users s ∧ groups r.2 = groups s ∧ keywords r.2 = keywords s.
Proof.
  intros r. unfold r.
  destruct (Database.is_tweet_processed tweet_id s) eqn:Hp.
  - rewrite add_tweet_processed by done. cbn. split_and!; done.
  - rewrite add_tweet_fresh by done. cbn. split_and!; try done.
    + apply is_tweet_processed_spec. rewrite ledger_entries_after_insert; [done|].
      apply not_true_iff_false in Hp. rewrite is_tweet_processed_spec in Hp.
      by apply dec_stable in Hp.
    + intros other Hother. unfold Database.is_tweet_processed. cbn.
      rewrite filter_app, filter_cons_False by (cbn; congruence).
      by rewrite filter_nil, app_nil_r.
Qed.

(** ** The constraints of the schema are kept *)

Lemma NoDup_fmap_snoc {A B} (f : A → B) (l : list A) (x : A) :
  NoDup (f <$> l) → f x ∉ f <$> l → NoDup (f <$> l ++ [x]).
Proof.
  intros Hnd Hx. rewrite fmap_app. apply NoDup_app. split_and!; [done| |].
  - intros y Hy ->%list_elem_of_singleton. done.
  - apply NoDup_singleton.
Qed.

Lemma NoDup_fmap_filter {A B} (f : A → B) (P : A → Prop) `{!∀ x, Decision (P x)}
    (l : list A) :
  NoDup (f <$> l) → NoDup (f <$> filter P l).
Proof.
  induction l as [|a l IH]; [done|]. rewrite fmap_cons.
  intros [Ha Hnd]%NoDup_cons. destruct (decide (P a)).
  - rewrite filter_cons_True by done. rewrite fmap_cons. apply NoDup_cons.
    split; [|by apply IH]. intros (y & Hy & Hin)%list_elem_of_fmap.
    apply list_elem_of_filter in Hin as [_ Hin]. apply Ha. rewrite Hy.
    by apply list_elem_of_fmap_2.
  - rewrite filter_cons_False by done. by apply IH.
Qed.

Lemma fmap_fmap_preserved {A B} (f : A → B) (g : A → A) (l : list A) :
  (∀ x, f (g x) = f x) → f <$> (g <$> l) = f <$> l.
Proof.
  intros Hfg. rewrite <- list_fmap_compose. apply list_fmap_ext. intros i x _.
  apply Hfg.
Qed.

Lemma insert_keyword_constraints user_id keyword now conn id conn' :
  insert_keyword user_id keyword now conn = (inr id, conn') →
  store_constraints (txn conn) → store_constraints (txn conn').
Proof.
  unfold insert_keyword. case_bool_decide as Hdup; [done|].
  destruct (_ && _); [done|]. intros [= <- <-] [].
  split; cbn; try done.
  - apply NoDup_fmap_snoc; [done | apply next_rowid_fresh].
  - unfold keyword_keys. cbn. apply NoDup_fmap_snoc; done.
Qed.

Lemma insert_keywords_constraints user_id l now conn u conn' :
  Database.insert_keywords user_id l now conn = (inr u, conn') →
  store_constraints (txn conn) → store_constraints (txn conn').
Proof.
  revert conn. induction l as [|k l IH]; intros conn; simpl.
  - by intros [= <- <-].
  - unfold mbind, SQL_bind.
    destruct (insert_keyword _ _ _ conn) as [[e|id] conn1] eqn:H1; [done|].
    intros H2 Hc. eapply IH; [done|]. by eapply insert_keyword_constraints.
Qed.

Lemma database_methods_keep_constraints_aux (c : db_call_of) (s : Store) :
  store_constraints s → store_constraints (after_call c s).
Proof.
  intros Hs. destruct c; cbn [after_call].
  - rewrite add_user_unfold. unfold insert_user. cbn.
    case_bool_decide as Hdup; [done|].
    destruct (Database.insert_keywords _ _ _ _) as [[e|[]] conn2] eqn:H2; [done|].
    cbn. eapply insert_keywords_constraints; [done|]. destruct Hs.
    split; cbn; try done.
    + apply NoDup_fmap_snoc; [done | apply next_rowid_fresh].
    + by apply NoDup_fmap_snoc.
  - pose proof (remove_user_users chat_id s) as [_ Hu].
    pose proof (remove_user_keeps_keywords chat_id s) as Hk.
    assert (Hg : groups (Database.remove_user chat_id s).2 = groups s
                 ∧ tweets (Database.remove_user chat_id s).2 = tweets s).
    { unfold Database.remove_user. by destruct (select_user_by_chat_id _ _). }
    destruct Hg as [Hg Ht], Hs.
    split; unfold keyword_keys; rewrite ?Hu, ?Hk, ?Hg, ?Ht; try done;
      by apply NoDup_fmap_filter.
  - destruct Hs. split; cbn; try done.
    + rewrite fmap_fmap_preserved; [done|]. intros u. by case_bool_decide.
    + rewrite fmap_fmap_preserved; [done|]. intros u. by case_bool_decide.
  - unfold Database.add_group, with_connection, mbind, SQL_bind, insert_group. cbn.
    case_bool_decide as Hdup; [done|]. cbn. destruct Hs. split; cbn; try done.
    + apply NoDup_fmap_snoc; [done | apply next_rowid_fresh].
    + by apply NoDup_fmap_snoc.
  - destruct Hs. split; cbn; try done.
    + rewrite fmap_fmap_preserved; [done|]. intros g. by case_bool_decide.
    + rewrite fmap_fmap_preserved; [done|]. intros g. by case_bool_decide.
  - unfold Database.add_tweet, with_connection, mbind, SQL_bind, insert_tweet. cbn.
    case_bool_decide as Hdup; [done|]. cbn. destruct Hs. split; cbn; try done.
    + apply NoDup_fmap_snoc; [done | apply next_rowid_fresh].
    + by apply NoDup_fmap_snoc.
Qed.

(** X9.  Whatever [Database] method is called with whatever arguments, a file
    that satisfies the PRIMARY KEY and UNIQUE constraints of the four tables
    satisfies them afterwards. *)
Theorem database_methods_keep_constraints (c : db_call_of) (s : Store) :
  store_constraints s → store_constraints (after_call c s).
Proof. exact (database_methods_keep_constraints_aux c s). Qed.

Lemma empty_store_constraints : store_constraints empty_store.
Proof. split; cbn; constructor. Qed.

Lemma database_methods_keep_constraints_witness :
  store_constraints empty_store
  ∧ store_constraints
      (after_call (Call_add_user "42" "Ana" "ana@example.org" "news"
                     "rust, backend" "2024-05-01T10:00:00") empty_store).
Proof.
  split; [exact empty_store_constraints|].
  exact (database_methods_keep_constraints _ _ empty_store_constraints).
Defined.

(** ** Listing the users *)

Lemma ltb_true_ne (a b : string) : String.ltb a b = true → a ≠ b.
Proof.
  unfold String.ltb. intros Hlt ->.
  destruct (String.compare b b) eqn:Hcmp; try done.
  pose proof (String.compare_antisym b b) as Hanti. by rewrite Hcmp in Hanti.
Qed.

Lemma insert_by_created_at_desc_Permutation u l :
  insert_by_created_at_desc u l ≡ₚ u :: l.
Proof.
  induction l as [|v l IH]; simpl; [done|].
  destruct (String.ltb _ _); [|done]. rewrite IH. apply Permutation_swap.
Qed.

Lemma insert_by_created_at_desc_sorted u l :
  StronglySorted (λ a b, String.le (u_created_at b) (u_created_at a)) l →
  StronglySorted (λ a b, String.le (u_created_at b) (u_created_at a))
    (insert_by_created_at_desc u l).
Proof.
  induction 1 as [|v l Hl IH Hv]; simpl.
  - repeat constructor.
  - destruct (String.ltb (u_created_at u) (u_created_at v)) eqn:Hlt.
    + constructor; [done|].
      rewrite insert_by_created_at_desc_Permutation. constructor; [|done].
      by apply ltb_true_le.
    + constructor; [by constructor|]. constructor; [by apply ltb_false_le|].
      eapply Forall_impl; [exact Hv|]. intros w Hw. cbn in *.
      etrans; [exact Hw|]. by apply ltb_false_le.
Qed.

Lemma insert_by_created_at_desc_filter t u l :
  filter (λ w, u_created_at w = t) (insert_by_created_at_desc u l)
  = filter (λ w, u_created_at w = t) (u :: l).
Proof.
  induction l as [|v l IH]; simpl; [done|].
  destruct (String.ltb (u_created_at u) (u_created_at v)) eqn:Hlt; [|done].
  apply ltb_true_ne in Hlt.
  destruct (decide (u_created_at v = t)) as [Hv|Hv].
  - rewrite (filter_cons_True _ v) by done. rewrite IH.
    rewrite (filter_cons_False _ u) by congruence.
    rewrite (filter_cons_False _ u) by congruence.
    by rewrite (filter_cons_True _ v) by done.
  - rewrite (filter_cons_False _ v) by done. rewrite IH.
    destruct (decide (u_created_at u = t)) as [Hu|Hu].
    + rewrite !(filter_cons_True _ u) by done.
      by rewrite (filter_cons_False _ v) by done.
    + rewrite !(filter_cons_False _ u) by done.
      by rewrite (filter_cons_False _ v) by done.
Qed.

Lemma order_by_created_at_desc_spec l :
  order_by_created_at_desc l ≡ₚ l
  ∧ StronglySorted (λ a b, String.le (u_created_at b) (u_created_at a))
      (order_by_created_at_desc l)
  ∧ ∀ t, filter (λ w, u_created_at w = t) (order_by_created_at_desc l)
         = filter (λ w, u_created_at w = t) l.
Proof.
  induction l as [|u l (Hperm & Hsorted & Hfilter)]; simpl.
  - split_and!; [done|constructor|done].
  - split_and!.
    + by rewrite insert_by_created_at_desc_Permutation, Hperm.
    + by apply insert_by_created_at_desc_sorted.
    + intros t. rewrite insert_by_created_at_desc_filter.
      destruct (decide (u_created_at u = t)).
      * rewrite !(filter_cons_True _ u) by done. by rewrite Hfilter.
      * rewrite !(filter_cons_False _ u) by done. by rewrite Hfilter.
Qed.

(** X10.  [list_users] returns every stored user once; no user comes before a
    user created later, and users of one creation time come in the order of
    the table.  With [with_keywords] each user carries exactly the keywords
    stored for it, in ascending order, and no keywords entry otherwise. *)
Theorem list_users_newest_first with_keywords s :
  let r := Database.list_users with_keywords s in
  r.*1 ≡ₚ users s
  ∧ StronglySorted (λ a b, String.le (u_created_at b) (u_created_at a)) r.*1
  ∧ (∀ t, filter (λ u, u_created_at u = t) r.*1
          = filter (λ u, u_created_at u = t) (users s))
  ∧ ∀ user entry, (user, entry) ∈ r →
      if with_keywords
      then ∃ user_keywords,
             entry = Some user_keywords
             ∧ user_keywords
                 ≡ₚ k_keyword <$> filter (λ k, k_user_id k = u_id user) (keywords s)
             ∧ StronglySorted String.le user_keywords
      else entry = None.
Proof.
  intros r.
  assert (Hfst : r.*1 = order_by_created_at_desc (users s)).
  { unfold r, Database.list_users. cbn. destruct with_keywords;
      rewrite <- list_fmap_compose; cbn; apply list_fmap_id. }
  destruct (order_by_created_at_desc_spec (users s)) as (Hperm & Hsorted & Hfilter).
  split_and!; [by rewrite Hfst..|].
  intros user entry. unfold r, Database.list_users. cbn.
  destruct with_keywords; intros (u & [= -> ->] & _)%list_elem_of_fmap; [|done].
  eexists. split; [done|]. apply select_keywords_of_spec.
Qed.

(** * Further properties of the fan-out *)

Section FanOutAttempts.

Variable World : Type.
Variable bot_send_message : string → string → World → bool * World.

Local Abbreviation fanout := (fan_out World bot_send_message).

(** Every user of the list with a non-empty group id has its group either
    processed before the loop or sent to during the loop. *)
Lemma fan_out_attempts_every_group users tweet_text tweet_link dc
    (pg : gset string) env :
  ∃ new,
    api_log (fanout users tweet_text tweet_link dc pg env).2 = api_log env ++ new
    ∧ ∀ u g, u ∈ users → u_group_id u = Some g → Py.truthy g = true →
        g ∈ pg
        ∨ ∃ ok, SendMessage g (MESSAGES_new_tweet tweet_text tweet_link) ok ∈ new.
Proof.
  revert dc pg env. induction users as [|user rest IH]; intros dc pg env.
  - exists []. simpl. rewrite app_nil_r. split; [done|]. by intros u g ?%elem_of_nil.
  - simpl. destruct (u_group_id user) as [g0|] eqn:Hg0.
    + destruct (negb (Py.truthy g0) || bool_decide (g0 ∈ pg)) eqn:Hskip.
      * destruct (IH dc pg env) as (new & Hlog & Hall). exists new.
        split; [done|]. intros u g [->|Hu]%elem_of_cons Hg Ht; [|by eapply Hall].
        rewrite Hg0 in Hg. injection Hg as ->. rewrite Ht in Hskip. cbn in Hskip.
        left. by apply bool_decide_eq_true in Hskip.
      * unfold mbind, M_bind, send_tweet_to_group, api_send_message.
        destruct (bot_send_message g0 _ (world env)) as [[] w] eqn:Hsend.
        -- set (env1 := {| db_file := db_file env; world := w; api_log := _ |}).
           destruct (IH (dc + 1) (pg ∪ {[g0]}) env1) as (new & Hlog & Hall).
           exists (SendMessage g0 (MESSAGES_new_tweet tweet_text tweet_link) true :: new).
           split; [by rewrite Hlog; cbn; rewrite <- app_assoc|].
           intros u g [->|Hu]%elem_of_cons Hg Ht.
           ++ rewrite Hg0 in Hg. injection Hg as ->. right. exists true. left.
           ++ destruct (Hall u g Hu Hg Ht) as [[Hin| ->%elem_of_singleton]%elem_of_union
                                              |[ok Hok]].
              ** by left.
              ** right. exists true. left.
              ** right. exists ok. by right.
        -- set (env1 := {| db_file := db_file env; world := w; api_log := _ |}).
           destruct (IH dc pg env1) as (new & Hlog & Hall).
           exists (SendMessage g0 (MESSAGES_new_tweet tweet_text tweet_link) false :: new).
           split; [by rewrite Hlog; cbn; rewrite <- app_assoc|].
           intros u g [->|Hu]%elem_of_cons Hg Ht.
           ++ rewrite Hg0 in Hg. injection Hg as ->. right. exists false. left.
           ++ destruct (Hall u g Hu Hg Ht) as [Hin|[ok Hok]]; [by left|].
              right. exists ok. by right.
    + destruct (IH dc pg env) as (new & Hlog & Hall). exists new.
      split; [done|]. intros u g [->|Hu]%elem_of_cons Hg Ht; [congruence|].
      by eapply Hall.
Qed.

(** When no send fails, the loop sends only to groups not processed before
    and every send is a delivery. *)
Lemma fan_out_all_delivered users tweet_text tweet_link dc (pg : gset string) env :
  (∀ chat_id text w, (bot_send_message chat_id text w).1 = true) →
  ∃ new,
    api_log (fanout users tweet_text tweet_link dc pg env).2 = api_log env ++ new
    ∧ ∀ g ok, SendMessage g (MESSAGES_new_tweet tweet_text tweet_link) ok ∈ new →
        g ∈ delivered new.
Proof.
  intros Hrel. revert dc pg env.
  induction users as [|user rest IH]; intros dc pg env.
  - exists []. simpl. rewrite app_nil_r. split; [done|]. by intros g ok ?%elem_of_nil.
  - simpl. destruct (u_group_id user) as [g0|] eqn:Hg0; [|apply IH].
    destruct (negb (Py.truthy g0) || bool_decide (g0 ∈ pg)); [apply IH|].
    unfold mbind, M_bind, send_tweet_to_group, api_send_message.
    pose proof (Hrel g0 (MESSAGES_new_tweet tweet_text tweet_link) (world env)) as Hok.
    destruct (bot_send_message g0 _ (world env)) as [ok w]. cbn in Hok. subst ok.
    set (env1 := {| db_file := db_file env; world := w; api_log := _ |}).
    destruct (IH (dc + 1) (pg ∪ {[g0]}) env1) as (new & Hlog & Hall).
    exists (SendMessage g0 (MESSAGES_new_tweet tweet_text tweet_link) true :: new).
    split; [by rewrite Hlog; cbn; rewrite <- app_assoc|].
    intros g ok [[= -> _]|Hin]%elem_of_cons; cbn; [left|].
    right. by eapply Hall.
Qed.

End FanOutAttempts.

Section WebhookMore.

Variable World : Type.
Variable bot_send_message : string → string → World → bool * World.
Variable datetime_now : World → string * World.
Variable md5_hexdigest : string → string.

Local Abbreviation fanout := (fan_out World bot_send_message).
Local Abbreviation process :=
  (process_tweet_notification World bot_send_message datetime_now md5_hexdigest).
Local Abbreviation tweet_id_for := (request_tweet_id md5_hexdigest).

Lemma request_tweet_id_Some request tweet_id :
  tweet_id_for request = Some tweet_id →
  ∃ tweet_link tweet_text,
    form_link request = Some tweet_link ∧ form_text request = Some tweet_text
    ∧ Py.truthy tweet_link = true ∧ Py.truthy tweet_text = true
    ∧ tweet_id = tweet_id_of md5_hexdigest (form_id request) tweet_link tweet_text.
Proof.
  unfold request_tweet_id.
  destruct (form_link request) as [l|]; [|done].
  destruct (form_text request) as [t|]; [|done].
  destruct (Py.truthy l) eqn:Hl; [|done]. destruct (Py.truthy t) eqn:Ht; [|done].
  intros [= <-]. by exists l, t.
Qed.

Lemma request_tweet_id_None request :
  tweet_id_for request = None ↔ malformed request.
Proof.
  unfold request_tweet_id, malformed.
  destruct (form_link request) as [l|]; [|by split; [left|]].
  destruct (form_text request) as [t|]; [|by split; [right|]]. cbn.
  destruct (Py.truthy l), (Py.truthy t); cbn; naive_solver.
Qed.

(** A well-formed notification of a tweet not yet in the ledger: the answer
    and the log are those of the loop, run on the users the matcher
    returns. *)
Lemma process_fresh_unfold request tweet_id tweet_link tweet_text env :
  form_link request = Some tweet_link →
  form_text request = Some tweet_text →
  tweet_id_for request = Some tweet_id →
  Database.is_tweet_processed tweet_id (db_file env) = false →
  let users := Database.find_users_by_keywords tweet_text (db_file env) in
  let loop := fanout users tweet_text tweet_link 0 ∅ env in
  (process request env).1 = Processed loop.1.1 (length users) (size loop.1.2)
  ∧ api_log (process request env).2 = api_log loop.2.
Proof.
  intros Hl Ht Hid Hnew users loop.
  apply request_tweet_id_Some in Hid as (l & t & Hl' & Ht' & Hlt & Htt & ->).
  rewrite Hl in Hl'. rewrite Ht in Ht'. injection Hl' as <-. injection Ht' as <-.
  unfold process_tweet_notification. rewrite Hl, Ht, Hlt, Htt. cbn.
  unfold mbind, M_bind, db_read. rewrite Hnew. fold users. fold loop.
  destruct loop as [[dc pg] env1]. unfold db_call.
  destruct (datetime_now (world env1)) as [now w].
  by destruct (Database.add_tweet _ _ _ _ _).
Qed.

(** X11.  A notification without a link or without a text, or with an empty
    one, is answered 400 and nothing is sent, read from the clock or
    written; any other notification is not answered 400. *)
Theorem malformed_notification_rejected request env :
  (malformed request → process request env = (BadRequest, env))
  ∧ (¬ malformed request → (process request env).1 ≠ BadRequest).
Proof.
  pose proof (process_tweet_notification_spec World bot_send_message datetime_now
                md5_hexdigest request env) as H.
  split.
  - intros Hm%request_tweet_id_None. by rewrite Hm in H.
  - intros Hm. destruct (tweet_id_for request) as [tweet_id|] eqn:Hid.
    + destruct (Database.is_tweet_processed tweet_id (db_file env)).
      * by rewrite H.
      * destruct H as (? & ? & ? & ? & _ & _ & -> & _). done.
    + by apply request_tweet_id_None in Hid.
Qed.

(** X12.  Whatever the notification, every call to the Telegram API it causes
    is a send of this tweet's message to the group of a user the matcher
    returned for its text; no invitation link is created, and the users, the
    groups and the keywords are left as they were. *)
Theorem process_sends_only_to_matched_groups request env :
  let r := process request env in
  (∃ new,
     api_log r.2 = api_log env ++ new
     ∧ ∀ e, e ∈ new →
         ∃ tweet_link tweet_text u g ok,
           form_link request = Some tweet_link
           ∧ form_text request = Some tweet_text
           ∧ e = SendMessage g (MESSAGES_new_tweet tweet_text tweet_link) ok
           ∧ u ∈ Database.find_users_by_keywords tweet_text (db_file env)
           ∧ u_group_id u = Some g)
  ∧ users (db_file r.2) = users (db_file env)
  ∧ groups (db_file r.2) = groups (db_file env)
  ∧ keywords (db_file r.2) = keywords (db_file env).
Proof.
  intros r.
  pose proof (process_tweet_notification_spec World bot_send_message datetime_now
                md5_hexdigest request env) as H.
  destruct (tweet_id_for request) as [tweet_id|] eqn:Hid.
  - destruct (Database.is_tweet_processed tweet_id (db_file env)) eqn:Hnew.
    + unfold r. rewrite H. split_and!; [|done..].
      exists []. rewrite app_nil_r. split; [done|]. by intros e ?%elem_of_nil.
    + destruct H as (tweet_link & tweet_text & _ & now & Hl & Ht & _ & _ & _ & _ & Hdb).
      fold r in Hdb. rewrite Hdb. split_and!; [|done..].
      destruct (process_fresh_unfold request tweet_id tweet_link tweet_text env
                  Hl Ht Hid Hnew) as [_ Hlog].
      destruct (fan_out_spec World bot_send_message
                  (Database.find_users_by_keywords tweet_text (db_file env))
                  tweet_text tweet_link 0 ∅ env)
        as (new & _ & Hlog' & _ & _ & _ & _ & Hev).
      exists new. unfold r. rewrite Hlog. split; [done|].
      intros e He. destruct (Hev e He) as (g & ok & u & -> & Hu & Hg).
      by exists tweet_link, tweet_text, u, g, ok.
  - unfold r. rewrite H. split_and!; [|done..].
    exists []. rewrite app_nil_r. split; [done|]. by intros e ?%elem_of_nil.
Qed.

(** X13.  For a well-formed notification of a tweet not yet in the ledger,
    the group of every user the matcher returns is sent the message at least
    once, whether or not earlier sends failed. *)
Theorem process_attempts_every_matched_group request tweet_id tweet_link
    tweet_text env :
  form_link request = Some tweet_link →
  form_text request = Some tweet_text →
  tweet_id_for request = Some tweet_id →
  Database.is_tweet_processed tweet_id (db_file env) = false →
  ∃ new,
    api_log (process request env).2 = api_log env ++ new
    ∧ ∀ u, u ∈ Database.find_users_by_keywords tweet_text (db_file env) →
        ∃ g ok, u_group_id u = Some g
                ∧ SendMessage g (MESSAGES_new_tweet tweet_text tweet_link) ok ∈ new.
Proof.
  intros Hl Ht Hid Hnew.
  destruct (process_fresh_unfold request tweet_id tweet_link tweet_text env
              Hl Ht Hid Hnew) as [_ Hlog].
  destruct (fan_out_attempts_every_group World bot_send_message
              (Database.find_users_by_keywords tweet_text (db_file env))
              tweet_text tweet_link 0 ∅ env) as (new & Hlog' & Hall).
  exists new. rewrite Hlog. split; [done|]. intros u Hu.
  pose proof Hu as Hm. apply find_users_by_keywords_elem in Hm as (_ & Hg & _).
  unfold null_or_empty in Hg. apply negb_false_iff in Hg.
  destruct (u_group_id u) as [g|] eqn:Hug; [|done]. cbn in Hg.
  destruct (Hall u g Hu Hug Hg) as [Hin|[ok Hok]]; [set_solver|].
  by exists g, ok.
Qed.

(** X14.  With a transport that never fails, a well-formed notification of a
    tweet not yet in the ledger is delivered to exactly the groups of the
    users the matcher returns, once each, and [delivery_count] and
    [unique_groups] are the number of these groups. *)
Theorem process_delivers_to_every_matched_group request tweet_id tweet_link
    tweet_text env :
  (∀ chat_id text w, (bot_send_message chat_id text w).1 = true) →
  form_link request = Some tweet_link →
  form_text request = Some tweet_text →
  tweet_id_for request = Some tweet_id →
  Database.is_tweet_processed tweet_id (db_file env) = false →
  let users := Database.find_users_by_keywords tweet_text (db_file env) in
  let n := size (list_to_set (bound_groups users) : gset string) in
  (process request env).1 = Processed n (length users) n
  ∧ ∃ new,
      api_log (process request env).2 = api_log env ++ new
      ∧ NoDup (delivered new)
      ∧ (list_to_set (delivered new) : gset string) = list_to_set (bound_groups users).
Proof.
  intros Hrel Hl Ht Hid Hnew users n.
  destruct (process_fresh_unfold request tweet_id tweet_link tweet_text env
              Hl Ht Hid Hnew) as [Hresp Hlog]. fold users in Hresp, Hlog.
  destruct (fan_out_spec World bot_send_message users tweet_text tweet_link 0 ∅ env)
    as (new & _ & Hlog1 & Hnd & _ & Hpg & Hdc & Hev).
  destruct (fan_out_attempts_every_group World bot_send_message users tweet_text
              tweet_link 0 ∅ env) as (new2 & Hlog2 & Hall).
  destruct (fan_out_all_delivered World bot_send_message users tweet_text
              tweet_link 0 ∅ env Hrel) as (new3 & Hlog3 & Hdel).
  cbn in Hlog1, Hpg, Hdc.
  assert (new2 = new) as -> by (rewrite Hlog1 in Hlog2; by apply app_inv_head in Hlog2).
  assert (new3 = new) as -> by (rewrite Hlog1 in Hlog3; by apply app_inv_head in Hlog3).
  assert (Hset : (list_to_set (delivered new) : gset string)
                 = list_to_set (bound_groups users)).
  { apply set_eq. intros g. rewrite !elem_of_list_to_set. split.
    - intros Hg. apply list_elem_of_omap in Hg as (e & He & Hsome).
      destruct (Hev e He) as (g' & ok & u & -> & Hu & Hgu). cbn in Hsome.
      destruct ok; [|done]. injection Hsome as ->.
      unfold bound_groups. apply list_elem_of_filter. split.
      + apply find_users_by_keywords_elem in Hu as (_ & Hne & _).
        unfold null_or_empty in Hne. rewrite Hgu in Hne. by apply negb_false_iff in Hne.
      + apply list_elem_of_omap. by exists u.
    - unfold bound_groups. intros [Htr (u & Hu & Hgu)%list_elem_of_omap]%list_elem_of_filter.
      destruct (Hall u g Hu Hgu Htr) as [Hin|[ok Hok]]; [set_solver|].
      by eapply Hdel. }
  split.
  - rewrite Hresp, Hpg, Hdc, (left_id_L ∅ (∪)). unfold n. rewrite <- Hset.
    by rewrite size_list_to_set.
  - exists new. by rewrite Hlog.
Qed.

End WebhookMore.

(** * One user per group *)

Lemma NoDup_fmap_elem_inj {A B} (f : A → B) (l : list A) (x y : A) :
  NoDup (f <$> l) → x ∈ l → y ∈ l → f x = f y → x = y.
Proof.
  induction l as [|a l IH]; [by intros _ ?%elem_of_nil|]. rewrite fmap_cons.
  intros [Ha Hnd]%NoDup_cons [->|Hx]%elem_of_cons [->|Hy]%elem_of_cons Heq.
  - done.
  - destruct Ha. rewrite Heq. by apply list_elem_of_fmap_2.
  - destruct Ha. rewrite <- Heq. by apply list_elem_of_fmap_2.
  - by apply IH.
Qed.

Lemma binding_invariant_frame s s' :
  users s' = users s → groups s' = groups s →
  store_constraints s' → binding_invariant s → binding_invariant s'.
Proof.
  intros Hu Hg Hc [_ H1 H2 H3]. split; [done|..]; rewrite ?Hu.
  - done.
  - intros u g Hin Hgr. destruct (H2 u g Hin Hgr) as (row & ? & ? & ?).
    exists row. by rewrite Hg.
  - done.
Qed.

Lemma insert_keyword_groups user_id keyword now conn r conn' :
  insert_keyword user_id keyword now conn = (r, conn') →
  groups (txn conn') = groups (txn conn).
Proof.
  unfold insert_keyword. case_bool_decide; [by intros [= <- <-]|].
  destruct (_ && _); intros [= <- <-]; done.
Qed.

Lemma insert_keywords_groups user_id l now conn r conn' :
  Database.insert_keywords user_id l now conn = (r, conn') →
  groups (txn conn') = groups (txn conn).
Proof.
  revert conn. induction l as [|k l IH]; intros conn; simpl.
  - by intros [= <- <-].
  - unfold mbind, SQL_bind.
    destruct (insert_keyword _ _ _ conn) as [[e|id] conn1] eqn:H1;
      apply insert_keyword_groups in H1.
    + by intros [= <- <-].
    + intros ->%IH. done.
Qed.

Lemma add_user_users_groups chat_id name email intention kws now s :
  let s' := (Database.add_user chat_id name email intention kws now s).2 in
  groups s' = groups s
  ∧ (users s' = users s
     ∨ users s' = users s ++ [new_user_row s chat_id name email intention now]).
Proof.
  cbn. rewrite add_user_unfold. unfold insert_user. cbn.
  case_bool_decide; [by split; [|left]|].
  destruct (Database.insert_keywords _ _ _ _) as [[e|[]] conn2] eqn:H2;
    [by split; [|left]|].
  cbn. pose proof (insert_keywords_groups _ _ _ _ _ _ H2) as Hg.
  apply insert_keywords_file in H2 as (_ & _ & Hu). cbn in Hg, Hu.
  split; [done | by right].
Qed.

Lemma binding_invariant_add_user chat_id name email intention kws now s :
  binding_invariant s →
  binding_invariant (Database.add_user chat_id name email intention kws now s).2.
Proof.
  intros Hinv.
  pose proof (database_methods_keep_constraints_aux
                (Call_add_user chat_id name email intention kws now) s
                (inv_constraints _ Hinv)) as Hc. cbn in Hc.
  destruct (add_user_users_groups chat_id name email intention kws now s)
    as [Hg [Hu|Hu]]; cbn in Hg, Hu.
  { by apply (binding_invariant_frame s). }
  destruct Hinv as [_ H1 H2 H3]. split; [done|..]; rewrite ?Hu.
  - intros u [Hin| ->%list_elem_of_singleton]%elem_of_app; [by apply H1|].
    left. done.
  - intros u g [Hin| ->%list_elem_of_singleton]%elem_of_app Hgr; [|done].
    destruct (H2 u g Hin Hgr) as (row & ? & ? & ?). exists row. by rewrite Hg.
  - intros u u' g [Hin| ->%list_elem_of_singleton]%elem_of_app
      [Hin'| ->%list_elem_of_singleton]%elem_of_app Hgr Hgr'; try done.
    by eapply H3.
Qed.

Lemma binding_invariant_remove_user chat_id s :
  binding_invariant s → binding_invariant (Database.remove_user chat_id s).2.
Proof.
  intros Hinv.
  pose proof (database_methods_keep_constraints_aux (Call_remove_user chat_id) s
                (inv_constraints _ Hinv)) as Hc. cbn in Hc.
  pose proof (remove_user_users chat_id s) as [_ Hu].
  destruct (remove_user_then_get_user_by_chat_id_aux chat_id s) as (_ & _ & _ & Hg & _).
  destruct Hinv as [_ H1 H2 H3]. split; [done|..]; rewrite ?Hu.
  - intros u [_ Hin]%list_elem_of_filter. by apply H1.
  - intros u g [_ Hin]%list_elem_of_filter Hgr.
    destruct (H2 u g Hin Hgr) as (row & ? & ? & ?). exists row. by rewrite Hg.
  - intros u u' g [_ Hin]%list_elem_of_filter [_ Hin']%list_elem_of_filter.
    by apply H3.
Qed.

Lemma add_group_users_groups group_id group_name invite_link now s :
  let s' := (Database.add_group group_id group_name invite_link now s).2 in
  users s' = users s
  ∧ ∃ more, groups s' = groups s ++ more.
Proof.
  cbn. unfold Database.add_group, with_connection, mbind, SQL_bind, insert_group.
  cbn. case_bool_decide; cbn.
  - split; [done|]. exists []. by rewrite app_nil_r.
  - split; [done|]. by eexists.
Qed.

Lemma binding_invariant_add_group group_id group_name invite_link now s :
  binding_invariant s →
  binding_invariant (Database.add_group group_id group_name invite_link now s).2.
Proof.
  intros Hinv.
  pose proof (database_methods_keep_constraints_aux
                (Call_add_group group_id group_name invite_link now) s
                (inv_constraints _ Hinv)) as Hc. cbn in Hc.
  destruct (add_group_users_groups group_id group_name invite_link now s)
    as [Hu [more Hg]]. cbn in Hu, Hg.
  destruct Hinv as [_ H1 H2 H3]. split; [done|..]; rewrite ?Hu; [done| |done].
  intros u g Hin Hgr. destruct (H2 u g Hin Hgr) as (row & ? & ? & ?).
  exists row. rewrite Hg, elem_of_app. auto.
Qed.

Lemma update_group_effect group_id group_name invite_link now s :
  let r := Database.update_group group_id group_name invite_link now s in
  users r.2 = users s
  ∧ (∀ row, row ∈ groups r.2 → g_group_id row ≠ group_id → row ∈ groups s)
  ∧ (∀ row, row ∈ groups s → g_group_id row ≠ group_id → row ∈ groups r.2)
  ∧ (∀ row, row ∈ groups r.2 → g_group_id row = group_id →
       g_group_name row = group_name ∧ g_invite_link row = invite_link)
  ∧ ((∃ row, row ∈ groups s ∧ g_group_id row = group_id) →
       r.1 = true ∧ ∃ row, row ∈ groups r.2 ∧ g_group_id row = group_id)
  ∧ (r.1 = true → ∃ row, row ∈ groups s ∧ g_group_id row = group_id).
Proof.
  cbn. unfold Database.update_group, update_groups_where_group_id. cbn.
  set (f := λ g : group_row, if bool_decide (g_group_id g = group_id) then _ else g).
  assert (Hid : ∀ g, g_group_id (f g) = g_group_id g).
  { intros g. unfold f. by case_bool_decide. }
  split_and!; [done|..].
  - intros row (g & -> & Hg)%list_elem_of_fmap Hne. rewrite Hid in Hne.
    unfold f. by rewrite bool_decide_eq_false_2.
  - intros row Hrow Hne. apply list_elem_of_fmap. exists row. split; [|done].
    unfold f. by rewrite bool_decide_eq_false_2.
  - intros row (g & -> & Hg)%list_elem_of_fmap Heq. rewrite Hid in Heq.
    unfold f. by rewrite bool_decide_eq_true_2.
  - intros (row & Hrow & Heq). split.
    + apply bool_decide_eq_true. apply filter_length_pos. exists row.
      split; [done|]. by apply bool_decide_eq_true.
    + exists (f row). split; [by apply list_elem_of_fmap_2 | by rewrite Hid].
  - intros Hpos%bool_decide_eq_true. apply filter_length_pos in Hpos as (row & ? & Hc).
    apply bool_decide_eq_true in Hc. by exists row.
Qed.

Lemma binding_invariant_update_group group_id group_name invite_link now s :
  binding_invariant s →
  ((∃ u, u ∈ users s ∧ u_group_id u = Some group_id) →
   Py.truthy_opt group_name && Py.truthy_opt invite_link = true) →
  binding_invariant (Database.update_group group_id group_name invite_link now s).2.
Proof.
  intros Hinv Hvals.
  pose proof (database_methods_keep_constraints_aux
                (Call_update_group group_id group_name invite_link now) s
                (inv_constraints _ Hinv)) as Hc. cbn in Hc.
  destruct (update_group_effect group_id group_name invite_link now s)
    as (Hu & Hold & Hkeep & Hnew & Hex & _). cbn in Hu, Hold, Hkeep, Hnew, Hex.
  destruct Hinv as [_ H1 H2 H3]. split; [done|..]; rewrite ?Hu; [done| |done].
  intros u g Hin Hgr. destruct (H2 u g Hin Hgr) as (row & Hrow & Hid & Hcomp).
  destruct (decide (g = group_id)) as [->|Hne].
  - destruct Hex as [_ (row' & Hrow' & Hid')]; [by exists row|].
    exists row'. split_and!; [done..|].
    unfold group_complete. destruct (Hnew row' Hrow' Hid') as [-> ->].
    apply Hvals. by exists u.
  - exists row. split_and!; [|done..]. apply Hkeep; congruence.
Qed.

Lemma update_user_group_effect chat_id group_id group_name invite_link now s :
  let r := Database.update_user_group chat_id group_id group_name invite_link now s in
  groups r.2 = groups s
  ∧ ∀ u', u' ∈ users r.2 ↔
      ∃ u, u ∈ users s
           ∧ u' = if bool_decide (u_chat_id u = chat_id)
                  then bound_user_row u group_id group_name invite_link now
                  else u.
Proof.
  cbn. unfold Database.update_user_group, update_users_where_chat_id. cbn.
  split; [done|]. intros u'. rewrite list_elem_of_fmap. naive_solver.
Qed.

Lemma binding_invariant_update_user_group chat_id group_id group_name invite_link
    now s :
  binding_invariant s →
  group_is_complete_in s group_id →
  (∀ u, u ∈ users s → u_group_id u = Some group_id → u_chat_id u = chat_id) →
  Py.truthy group_name = true → Py.truthy invite_link = true →
  binding_invariant
    (Database.update_user_group chat_id group_id group_name invite_link now s).2.
Proof.
  intros Hinv Hcomp Honly Hname Hlink.
  pose proof (database_methods_keep_constraints_aux
                (Call_update_user_group chat_id group_id group_name invite_link now)
                s (inv_constraints _ Hinv)) as Hc. cbn in Hc.
  destruct (update_user_group_effect chat_id group_id group_name invite_link now s)
    as [Hg Hu]. cbn in Hg, Hu.
  destruct Hinv as [Hcs H1 H2 H3]. split; [done|..].
  - intros u' (u & Hin & ->)%Hu. case_bool_decide; [|by apply H1].
    right. by exists group_id, group_name, invite_link.
  - intros u' g (u & Hin & ->)%Hu Hgr. change (group_is_complete_in s g).
    case_bool_decide.
    + cbn in Hgr. by injection Hgr as <-.
    + by apply (H2 u).
  - intros u1' u2' g (u1 & Hin1 & ->)%Hu (u2 & Hin2 & ->)%Hu.
    do 2 case_bool_decide; cbn; intros Hg1 Hg2.
    + assert (u1 = u2) as ->; [|done].
      apply (NoDup_fmap_elem_inj u_chat_id (users s));
        [apply Hcs | done | done | congruence].
    + injection Hg1 as <-. by destruct (Honly u2 Hin2 Hg2).
    + injection Hg2 as <-. by destruct (Honly u1 Hin1 Hg1).
    + by eapply H3.
Qed.

Section BindingInvariant.

Variable World : Type.
Variable bot_send_message : string → string → World → bool * World.
Variable bot_create_chat_invite_link : string → World → option string * World.
Variable datetime_now : World → string * World.
Variable md5_hexdigest : string → string.

Local Abbreviation reconcile_each :=
  (process_each_group World bot_send_message bot_create_chat_invite_link datetime_now).
Local Abbreviation reconcile :=
  (_process_groups World bot_send_message bot_create_chat_invite_link datetime_now).
Local Abbreviation handle :=
  (handle_event World bot_send_message bot_create_chat_invite_link datetime_now
     md5_hexdigest).
Local Abbreviation handle_all :=
  (handle_events World bot_send_message bot_create_chat_invite_link datetime_now
     md5_hexdigest).

Lemma db_call_db_file {A} (f : string → Store → A * Store) (env : Env World) :
  let now := (datetime_now (world env)).1 in
  (db_call World datetime_now f env).1 = (f now (db_file env)).1
  ∧ db_file (db_call World datetime_now f env).2 = (f now (db_file env)).2.
Proof.
  unfold db_call. destruct (datetime_now (world env)) as [now w]. cbn.
  by destruct (f now (db_file env)).
Qed.

(** The loop of a cycle keeps the invariant, given that the groups still to
    come have pairwise different ids and none of them is complete yet. *)
Lemma process_each_group_invariant incomplete_groups env :
  binding_invariant (db_file env) →
  NoDup (g_group_id <$> incomplete_groups) →
  (∀ g, g ∈ incomplete_groups → ¬ group_is_complete_in (db_file env) (g_group_id g)) →
  binding_invariant (db_file (reconcile_each incomplete_groups env).2).
Proof.
  revert env. induction incomplete_groups as [|group rest IH]; intros env Hinv Hnd Hinc;
    [done|].
  rewrite fmap_cons in Hnd. apply NoDup_cons in Hnd as [Hhead Hnd].
  assert (Hrest : ∀ g, g ∈ rest → ¬ group_is_complete_in (db_file env) (g_group_id g))
    by (intros g Hg; apply Hinc; by right).
  cbn [process_each_group].
  destruct (_ && _); [by apply IH|].
  unfold mbind at 1, M_bind at 1, db_read at 1.
  pose proof (get_user_without_group_oldest_aux (db_file env)) as Huser.
  destruct (Database.get_user_without_group (db_file env)) as [[user kws]|]; [|done].
  destruct Huser as (Huin & _ & _ & _).
  unfold mbind at 1, M_bind at 1, generate_invite_link, api_create_chat_invite_link.
  destruct (bot_create_chat_invite_link (g_group_id group) (world env)) as [link w].
  set (env1 := {| db_file := db_file env; world := w; api_log := _ |}).
  destruct link as [invite_link|]; [|by apply IH].
  destruct (Py.truthy invite_link) eqn:Hlink; cbn [negb]; [|by apply IH].
  set (group_name := "Grupo de " +:+ u_name user +:+ " - " +:+ _).
  unfold mbind at 1, M_bind at 1.
  destruct (db_call_db_file
              (Database.update_group (g_group_id group) (Some group_name)
                 (Some invite_link)) env1) as [Hret2 Hdb2].
  destruct (db_call World datetime_now _ env1) as [updated env2].
  cbn [fst snd] in Hret2, Hdb2. set (now2 := (datetime_now (world env1)).1) in *.
  destruct (update_group_effect (g_group_id group) (Some group_name)
              (Some invite_link) now2 (db_file env))
    as (Hu2 & Hold2 & _ & Hnew2 & _ & Hrow2).
  change (db_file env1) with (db_file env) in Hdb2, Hret2.
  rewrite <- Hdb2 in Hu2, Hold2, Hnew2. rewrite <- Hret2 in Hrow2.
  assert (Hinv2 : binding_invariant (db_file env2)).
  { rewrite Hdb2. apply binding_invariant_update_group; [done|].
    intros _. cbn. by rewrite Hlink. }
  assert (Hrest2 : ∀ g, g ∈ rest →
            ¬ group_is_complete_in (db_file env2) (g_group_id g)).
  { intros g Hg (row & Hrow & Hid & Hcomp). apply (Hrest g Hg).
    exists row. split_and!; [|done..]. apply Hold2; [done|].
    intros Heq. apply Hhead. rewrite <- Heq, Hid. by apply list_elem_of_fmap_2. }
  destruct updated; [|by apply IH].
  unfold mbind at 1, M_bind at 1.
  destruct (db_call_db_file
              (Database.update_user_group (u_chat_id user) (g_group_id group)
                 group_name invite_link) env2) as [_ Hdb3].
  destruct (db_call World datetime_now _ env2) as [assigned env3].
  cbn [snd] in Hdb3. set (now3 := (datetime_now (world env2)).1) in *.
  destruct (update_user_group_effect (u_chat_id user) (g_group_id group)
              group_name invite_link now3 (db_file env2)) as [Hg3 _].
  rewrite <- Hdb3 in Hg3.
  assert (Hinv3 : binding_invariant (db_file env3)).
  { rewrite Hdb3. apply binding_invariant_update_user_group; [done| | |done..].
    - destruct (Hrow2 eq_refl) as (row0 & Hrow0 & Hid0).
      destruct (update_group_effect (g_group_id group) (Some group_name)
                  (Some invite_link) now2 (db_file env))
        as (_ & _ & _ & _ & Hex & _).
      destruct Hex as [_ (row & Hrow & Hid)]; [by exists row0|].
      rewrite <- Hdb2 in Hrow. exists row. split_and!; [done..|].
      destruct (Hnew2 row Hrow Hid) as [Hn Hl]. unfold group_complete.
      rewrite Hn, Hl. cbn. by rewrite Hlink.
    - intros u Hu Hgr. rewrite Hu2 in Hu. destruct (Hinc group); [left|].
      by apply (inv_bound_complete _ Hinv u). }
  assert (Hrest3 : ∀ g, g ∈ rest →
            ¬ group_is_complete_in (db_file env3) (g_group_id g)).
  { intros g Hg. unfold group_is_complete_in. rewrite Hg3. by apply Hrest2. }
  destruct assigned; [|by apply IH].
  unfold mbind at 1, M_bind at 1, send_invite, api_send_message.
  destruct (bot_send_message _ _ (world env3)) as [ok w4]. by apply IH.
Qed.

Lemma _process_groups_invariant env :
  binding_invariant (db_file env) → binding_invariant (db_file (reconcile env).2).
Proof.
  intros Hinv. unfold _process_groups, mbind, M_bind, db_read.
  destruct (Database.get_incomplete_groups (db_file env)) as [|g0 l] eqn:Hsnap; [done|].
  rewrite <- Hsnap. unfold Database.get_incomplete_groups. cbn.
  apply process_each_group_invariant; [done| |].
  - apply NoDup_fmap_filter. apply Hinv.
  - intros g [Hg Hin]%list_elem_of_filter (row & Hrow & Hid & Hcomp).
    assert (row = g) as ->.
    { apply (NoDup_fmap_elem_inj g_group_id (groups (db_file env))); [apply Hinv|done..]. }
    unfold group_complete, null_or_empty in *.
    destruct (Py.truthy_opt (g_group_name g)), (Py.truthy_opt (g_invite_link g)); done.
Qed.

Lemma process_group_invariant group_id force_update env :
  binding_invariant (db_file env) →
  binding_invariant
    (db_file (process_group World bot_create_chat_invite_link datetime_now
                group_id force_update env).2).
Proof.
  intros Hinv. unfold process_group.
  unfold mbind at 1, M_bind at 1, db_read at 1, select_group_by_group_id. cbn [txn get_connection sqlite3_connect].
  destruct (head _) as [group|] eqn:Hhead.
  - destruct (_ || _); [|done].
    unfold mbind at 1, M_bind at 1, generate_invite_link, api_create_chat_invite_link.
    destruct (bot_create_chat_invite_link group_id (world env)) as [link w].
    set (env1 := {| db_file := db_file env; world := w; api_log := _ |}).
    destruct link as [invite_link|]; [|done].
    destruct (Py.truthy invite_link) eqn:Hlink; [|done].
    unfold mbind, M_bind.
    destruct (db_call_db_file
                (Database.update_group group_id (g_group_name group)
                   (Some invite_link)) env1) as [_ Hdb].
    destruct (db_call World datetime_now _ env1) as [updated env2].
    cbn [snd] in Hdb. cbn. rewrite Hdb.
    apply binding_invariant_update_group; [done|].
    intros (u & Hu & Hgr). cbn. rewrite Hlink, andb_true_r.
    destruct (inv_bound_complete _ Hinv u group_id Hu Hgr) as (row & Hrow & Hid & Hc).
    apply head_Some_elem_of, list_elem_of_filter in Hhead as [Hgid Hgin].
    assert (row = group) as ->.
    { apply (NoDup_fmap_elem_inj g_group_id (groups (db_file env)));
        [apply Hinv | done | done | congruence]. }
    unfold group_complete in Hc. by apply andb_true_iff in Hc as [? _].
  - unfold mbind, M_bind.
    destruct (db_call_db_file (Database.add_group group_id None None) env) as [_ Hdb].
    destruct (db_call World datetime_now _ env) as [added env1].
    cbn [snd] in Hdb. cbn. rewrite Hdb. by apply binding_invariant_add_group.
Qed.

Lemma process_tweet_notification_invariant request env :
  binding_invariant (db_file env) →
  binding_invariant
    (db_file (process_tweet_notification World bot_send_message datetime_now
                md5_hexdigest request env).2).
Proof.
  intros Hinv.
  pose proof (process_tweet_notification_spec World bot_send_message datetime_now
                md5_hexdigest request env) as H.
  destruct (request_tweet_id md5_hexdigest request) as [tweet_id|]; [|by rewrite H].
  destruct (Database.is_tweet_processed tweet_id (db_file env)) eqn:Hnew;
    [by rewrite H|].
  destruct H as (tweet_link & tweet_text & _ & now & _ & _ & _ & _ & _ & _ & Hdb).
  rewrite Hdb. apply (binding_invariant_frame (db_file env)); [done..| |done].
  pose proof (database_methods_keep_constraints_aux
                (Call_add_tweet tweet_id tweet_text tweet_link now) (db_file env)
                (inv_constraints _ Hinv)) as Hc.
  cbn in Hc. by rewrite add_tweet_fresh in Hc.
Qed.

Lemma handle_event_invariant e env :
  binding_invariant (db_file env) → binding_invariant (db_file (handle e env).2).
Proof.
  intros Hinv.
  destruct e as [chat_id name email intention kws|chat_id|group_id
                |group_id force_update|request|];
    cbn [handle_event]; unfold mbind, M_bind.
  - destruct (db_call_db_file
                (Database.add_user chat_id name email intention kws) env)
      as [_ Hdb].
    destruct (db_call World datetime_now _ env) as [r env1]. cbn in *.
    rewrite Hdb. by apply binding_invariant_add_user.
  - unfold db_write.
    pose proof (binding_invariant_remove_user chat_id (db_file env) Hinv) as H.
    by destruct (Database.remove_user chat_id (db_file env)).
  - destruct (db_call_db_file (Database.add_group group_id None None) env)
      as [_ Hdb].
    destruct (db_call World datetime_now _ env) as [r env1]. cbn in *.
    rewrite Hdb. by apply binding_invariant_add_group.
  - pose proof (process_group_invariant group_id force_update env Hinv) as H.
    by destruct (process_group _ _ _ _ _ env).
  - pose proof (process_tweet_notification_invariant request env Hinv) as H.
    by destruct (process_tweet_notification _ _ _ _ _ env).
  - by apply _process_groups_invariant.
Qed.

(** X15.  Start from a store in which: the PRIMARY KEY and UNIQUE constraints
    hold; every user has its three binding fields all NULL or all set, with
    a non-empty name and link; every bound user's group has a complete row;
    and no two users are bound to one group.  Then all of this holds again
    after any sequence of registrations, removals, group additions, manual
    group processings, tweet notifications and monitor cycles, whatever the
    Telegram API and the clock answer. *)
Theorem bindings_stay_one_user_per_group events env :
  binding_invariant (db_file env) →
  binding_invariant (db_file (handle_all events env)).
Proof.
  revert env. induction events as [|e rest IH]; intros env Hinv; [done|].
  cbn [handle_events]. apply IH. by apply handle_event_invariant.
Qed.

End BindingInvariant.

Lemma empty_store_binding_invariant : binding_invariant empty_store.
Proof.
  split; [apply empty_store_constraints|..]; cbn.
  - by intros u ?%elem_of_nil.
  - by intros u g ?%elem_of_nil.
  - by intros u u' g ?%elem_of_nil.
Qed.


(** * Further properties of the monitor *)

Section MonitorMore.

Variable World : Type.
Variable bot_send_message : string → string → World → bool * World.
Variable bot_create_chat_invite_link : string → World → option string * World.
Variable datetime_now : World → string * World.

Local Abbreviation reconcile_each :=
  (process_each_group World bot_send_message bot_create_chat_invite_link datetime_now).
Local Abbreviation reconcile :=
  (_process_groups World bot_send_message bot_create_chat_invite_link datetime_now).
Local Abbreviation manual :=
  (process_group World bot_create_chat_invite_link datetime_now).

(** X16.  While some user is without a group and no invitation link can be
    created, a cycle asks for a link once for every incomplete group, in
    their order, and does nothing else: a group without link is skipped,
    the cycle goes on, and the store is as it was. *)
Theorem cycle_without_links_only_asks env :
  (∀ group_id w, (bot_create_chat_invite_link group_id w).1 = None) →
  is_Some (Database.get_user_without_group (db_file env)) →
  let r := reconcile env in
  db_file r.2 = db_file env
  ∧ api_log r.2
    = api_log env
      ++ ((λ g, CreateChatInviteLink (g_group_id g) None)
            <$> Database.get_incomplete_groups (db_file env)).
Proof.
  intros Hnone Huser.
  assert (Hloop : ∀ gs env,
    is_Some (Database.get_user_without_group (db_file env)) →
    Forall (λ g, group_complete g = false) gs →
    db_file (reconcile_each gs env).2 = db_file env
    ∧ api_log (reconcile_each gs env).2
      = api_log env ++ ((λ g, CreateChatInviteLink (g_group_id g) None) <$> gs)).
  { clear env Huser. induction gs as [|g gs IH]; intros env Huser Hinc.
    - cbn. by rewrite app_nil_r.
    - apply Forall_cons in Hinc as [Hg Hinc].
      destruct Huser as [[user kws] Hu].
      pose proof (Hnone (g_group_id g) (world env)) as Hlink.
      assert (Hstep : reconcile_each (g :: gs) env
                = reconcile_each gs
                    {| db_file := db_file env;
                       world := (bot_create_chat_invite_link (g_group_id g)
                                   (world env)).2;
                       api_log := api_log env
                                  ++ [CreateChatInviteLink (g_group_id g) None] |}).
      { cbn [process_each_group]. unfold group_complete in Hg. rewrite Hg.
        unfold mbind at 1, M_bind at 1, db_read at 1. rewrite Hu.
        unfold mbind at 1, M_bind at 1, generate_invite_link,
          api_create_chat_invite_link.
        destruct (bot_create_chat_invite_link (g_group_id g) (world env)) as [link w].
        cbn in Hlink. by subst link. }
      rewrite Hstep.
      set (env1 := {| db_file := db_file env; world := _; api_log := _ |}).
      destruct (IH env1) as [Hdb Hlog]; [by (cbn; rewrite Hu) | done |].
      split; [by rewrite Hdb|]. rewrite Hlog. cbn. by rewrite <- app_assoc. }
  intros r. unfold r, _process_groups, mbind, M_bind, db_read.
  assert (Hinc : Forall (λ g, group_complete g = false)
                   (Database.get_incomplete_groups (db_file env))).
  { apply Forall_forall. intros g [Hg _]%list_elem_of_filter.
    unfold group_complete, null_or_empty in *.
    destruct (Py.truthy_opt (g_group_name g)), (Py.truthy_opt (g_invite_link g)); done. }
  destruct (Database.get_incomplete_groups (db_file env)) as [|g0 l] eqn:Hsnap.
  - cbn. by rewrite app_nil_r.
  - by apply Hloop.
Qed.

Lemma process_group_unfold group_id force_update env :
  manual group_id force_update env =
  match select_group_by_group_id group_id (db_file env) with
  | None =>
      let '(now, w) := datetime_now (world env) in
      (true, {| db_file := (Database.add_group group_id None None now (db_file env)).2;
                world := w; api_log := api_log env |})
  | Some group =>
      if force_update || negb (Py.truthy_opt (g_invite_link group))
      then
        let '(link, w) := bot_create_chat_invite_link group_id (world env) in
        let log := api_log env ++ [CreateChatInviteLink group_id link] in
        match link with
        | Some invite_link =>
            if Py.truthy invite_link
            then
              let '(now, w2) := datetime_now w in
              (true, {| db_file := (Database.update_group group_id
                                      (g_group_name group) (Some invite_link) now
                                      (db_file env)).2;
                        world := w2; api_log := log |})
            else (true, {| db_file := db_file env; world := w; api_log := log |})
        | None => (true, {| db_file := db_file env; world := w; api_log := log |})
        end
      else (true, env)
  end.
Proof.
  unfold process_group. unfold mbind at 1, M_bind at 1, db_read at 1.
  destruct (select_group_by_group_id group_id (db_file env)) as [group|].
  - destruct (_ || _); [|done].
    unfold mbind at 1, M_bind at 1, generate_invite_link, api_create_chat_invite_link.
    destruct (bot_create_chat_invite_link group_id (world env)) as [[l|] w]; [|done].
    destruct (Py.truthy l); [|done]. unfold mbind, M_bind, db_call. cbn.
    destruct (datetime_now w) as [now w2].
    by destruct (Database.update_group group_id (g_group_name group) (Some l) now
                   (db_file env)).
  - unfold mbind, M_bind, db_call. destruct (datetime_now (world env)) as [now w].
    by destruct (Database.add_group group_id None None now (db_file env)).
Qed.

(** X17.  [process_group] answers [True].  For a group id that is not
    stored it adds an incomplete group and calls nothing outside.  For a
    stored group that has a link, without [force_update], it does nothing at
    all.  In every case it leaves users, keywords and ledger alone; and where
    the group ids are unique it removes no group row, changes the name of no
    group and changes no field of a group with another id. *)
Theorem process_group_effect group_id force_update env :
  let r := manual group_id force_update env in
  r.1 = true
  ∧ users (db_file r.2) = users (db_file env)
  ∧ keywords (db_file r.2) = keywords (db_file env)
  ∧ tweets (db_file r.2) = tweets (db_file env)
  ∧ (group_id ∉ g_group_id <$> groups (db_file env) →
       api_log r.2 = api_log env
       ∧ ∃ row, groups (db_file r.2) = groups (db_file env) ++ [row]
                ∧ g_group_id row = group_id
                ∧ g_group_name row = None ∧ g_invite_link row = None)
  ∧ (∀ group, select_group_by_group_id group_id (db_file env) = Some group →
       force_update = false → Py.truthy_opt (g_invite_link group) = true →
       r.2 = env)
  ∧ (NoDup (g_group_id <$> groups (db_file env)) →
     ∀ row, row ∈ groups (db_file env) →
       ∃ row', row' ∈ groups (db_file r.2)
               ∧ g_id row' = g_id row ∧ g_group_id row' = g_group_id row
               ∧ g_group_name row' = g_group_name row
               ∧ (g_group_id row ≠ group_id → row' = row)).
Proof.
  intros r. unfold r. rewrite process_group_unfold.
  assert (Hsame : ∀ row : group_row, row ∈ groups (db_file env) →
            ∃ row', row' ∈ groups (db_file env)
                    ∧ g_id row' = g_id row ∧ g_group_id row' = g_group_id row
                    ∧ g_group_name row' = g_group_name row
                    ∧ (g_group_id row ≠ group_id → row' = row))
    by (intros row Hrow; by exists row).
  destruct (select_group_by_group_id group_id (db_file env)) as [group|] eqn:Hsel.
  - assert (Hin : group_id ∈ g_group_id <$> groups (db_file env)).
    { apply head_Some_elem_of, list_elem_of_filter in Hsel as [<- Hg].
      by apply list_elem_of_fmap_2. }
    destruct (force_update || negb (Py.truthy_opt (g_invite_link group))) eqn:Hcond.
    + destruct (bot_create_chat_invite_link group_id (world env)) as [link w].
      assert (Hskip : ∀ P : Prop, force_update = false →
                Py.truthy_opt (g_invite_link group) = true → P).
      { intros P -> Hl. rewrite Hl in Hcond. done. }
      destruct link as [invite_link|].
      2:{ cbn. split_and!; [done|done|done|done|by intros ?| |by intros _].
          intros g [= <-]. apply Hskip. }
      destruct (Py.truthy invite_link).
      2:{ cbn. split_and!; [done|done|done|done|by intros ?| |by intros _].
          intros g [= <-]. apply Hskip. }
      destruct (datetime_now w) as [now w2].
      unfold Database.update_group, update_groups_where_group_id. cbn.
      split_and!; [done|done|done|done|by intros ?| |].
      * intros g [= <-]. apply Hskip.
      * intros Hnd row Hrow.
        eexists. split; [by apply list_elem_of_fmap_2|]. case_bool_decide as Hid.
        -- cbn. split_and!; [done..| |congruence].
           apply head_Some_elem_of, list_elem_of_filter in Hsel as [Hgid Hg].
           assert (row = group) as ->; [|done].
           apply (NoDup_fmap_elem_inj g_group_id (groups (db_file env)));
             [done..|congruence].
        -- done.
    + cbn. split_and!; [done|done|done|done|by intros ?| |by intros _].
      by intros g _ _ _.
  - assert (Hno : group_id ∉ g_group_id <$> groups (db_file env)).
    { intros (g & -> & Hg)%list_elem_of_fmap.
      unfold select_group_by_group_id in Hsel. apply head_None in Hsel.
      by apply (filter_is_nil _ _ g Hsel). }
    destruct (datetime_now (world env)) as [now w].
    unfold Database.add_group, with_connection, mbind, SQL_bind, insert_group. cbn.
    rewrite bool_decide_eq_false_2 by done. cbn.
    split_and!; [done|done|done|done| |by intros g ?|].
    + intros _. split; [done|]. by eexists.
    + intros _ row Hrow. exists row. rewrite elem_of_app. auto.
Qed.

Lemma get_incomplete_groups_elem s g :
  g ∈ Database.get_incomplete_groups s ↔ g ∈ groups s ∧ group_complete g = false.
Proof.
  unfold Database.get_incomplete_groups. cbn. rewrite list_elem_of_filter.
  unfold group_complete, null_or_empty.
  destruct (Py.truthy_opt (g_group_name g)), (Py.truthy_opt (g_invite_link g));
    cbn; naive_solver.
Qed.

(** A cycle over one incomplete group, with a user to assign and a link
    created: what it returns. *)
Lemma cycle_single_group_unfold env group user kws link w1 :
  Database.get_incomplete_groups (db_file env) = [group] →
  Database.get_user_without_group (db_file env) = Some (user, kws) →
  bot_create_chat_invite_link (g_group_id group) (world env) = (Some link, w1) →
  Py.truthy link = true →
  let name := "Grupo de " +:+ u_name user +:+ " - "
              +:+ match kws with
                  | [] => "Geral"
                  | _ :: _ => Py.join ", " (take 3 kws)
                  end in
  let now2 := (datetime_now w1).1 in
  let w2 := (datetime_now w1).2 in
  let now3 := (datetime_now w2).1 in
  let w3 := (datetime_now w2).2 in
  let sent := bot_send_message (u_chat_id user) (MESSAGES_group_invitation link) w3 in
  reconcile env
  = ((), {| db_file :=
              (Database.update_user_group (u_chat_id user) (g_group_id group) name
                 link now3
                 (Database.update_group (g_group_id group) (Some name) (Some link)
                    now2 (db_file env)).2).2;
            world := sent.2;
            api_log := api_log env
                       ++ [CreateChatInviteLink (g_group_id group) (Some link);
                           SendMessage (u_chat_id user)
                             (MESSAGES_group_invitation link) sent.1] |}).
Proof.
  intros Hsnap Huser Hcreate Hlink name now2 w2 now3 w3 sent.
  subst now2 w2 now3 w3 sent.
  assert (Hg : group ∈ Database.get_incomplete_groups (db_file env))
    by (rewrite Hsnap; left).
  apply get_incomplete_groups_elem in Hg as [Hgin Hginc].
  pose proof (get_user_without_group_oldest_aux (db_file env)) as Hu.
  rewrite Huser in Hu. destruct Hu as (Huin & _ & _ & _).
  unfold _process_groups. unfold mbind at 1, M_bind at 1, db_read at 1.
  rewrite Hsnap. cbn [process_each_group]. unfold group_complete in Hginc.
  rewrite Hginc. unfold mbind at 1, M_bind at 1, db_read at 1. rewrite Huser.
  unfold mbind at 1, M_bind at 1, generate_invite_link, api_create_chat_invite_link.
  rewrite Hcreate, Hlink. cbn [negb]. fold name.
  unfold mbind at 1, M_bind at 1, db_call at 1. cbn [world db_file api_log].
  destruct (datetime_now w1) as [now2 w2]. cbn [fst snd].
  destruct (update_group_effect (g_group_id group) (Some name) (Some link) now2
              (db_file env)) as (Hu2 & _ & _ & _ & Hex & _).
  destruct Hex as [Hret2 _]; [by exists group|].
  destruct (Database.update_group (g_group_id group) (Some name) (Some link) now2
              (db_file env)) as [updated s2] eqn:Hupd.
  cbn in Hret2, Hu2. subst updated. cbn [snd].
  unfold mbind at 1, M_bind at 1, db_call at 1. cbn [world db_file api_log].
  destruct (datetime_now w2) as [now3 w3]. cbn [fst snd].
  destruct (update_user_group_binds_aux (u_chat_id user) (g_group_id group) name link
              now3 s2) as (Hret3 & _).
  rewrite bool_decide_eq_true_2 in Hret3
    by (rewrite Hu2; by apply list_elem_of_fmap_2).
  destruct (Database.update_user_group (u_chat_id user) (g_group_id group) name
              link now3 s2) as [assigned s3] eqn:Hbind.
  cbn in Hret3. subst assigned. cbn [snd].
  unfold mbind, M_bind, send_invite, api_send_message. cbn [world db_file api_log].
  destruct (bot_send_message _ _ w3) as [ok w4]. cbn [fst snd mret M_ret].
  by rewrite <- app_assoc.
Qed.

(** X18.  A cycle that finds one incomplete group, a user without a group
    and gets a non-empty invitation link: the group is complete afterwards,
    named after the user and the user's first three keywords ("Geral" when
    there are none) and holding the link; the user's row carries the group
    id, that name and that link; one link was created and one invitation
    sent, to that user, whether or not the send succeeded. *)
Theorem cycle_completes_group_and_binds_user env group user kws link w1 :
  Database.get_incomplete_groups (db_file env) = [group] →
  Database.get_user_without_group (db_file env) = Some (user, kws) →
  bot_create_chat_invite_link (g_group_id group) (world env) = (Some link, w1) →
  Py.truthy link = true →
  let name := "Grupo de " +:+ u_name user +:+ " - "
              +:+ match kws with
                  | [] => "Geral"
                  | _ :: _ => Py.join ", " (take 3 kws)
                  end in
  let r := reconcile env in
  Database.get_incomplete_groups (db_file r.2) = []
  ∧ (∀ row, row ∈ groups (db_file r.2) → g_group_id row = g_group_id group →
       g_group_name row = Some name ∧ g_invite_link row = Some link)
  ∧ (∃ now, bound_user_row user (g_group_id group) name link now
            ∈ users (db_file r.2))
  ∧ (∃ ok, api_log r.2
           = api_log env
             ++ [CreateChatInviteLink (g_group_id group) (Some link);
                 SendMessage (u_chat_id user) (MESSAGES_group_invitation link) ok]).
Proof.
  intros Hsnap Huser Hcreate Hlink name r.
  unfold r. rewrite (cycle_single_group_unfold env group user kws link w1) by done.
  cbn [snd db_file api_log]. fold name.
  set (now2 := (datetime_now w1).1). set (now3 := (datetime_now _).1).
  pose proof (get_user_without_group_oldest_aux (db_file env)) as Hu.
  rewrite Huser in Hu. destruct Hu as (Huin & _ & _ & _).
  destruct (update_group_completes_aux (g_group_id group) name link now2 (db_file env))
    as (_ & _ & Hinc & Hu2 & _).
  destruct (update_group_effect (g_group_id group) (Some name) (Some link) now2
              (db_file env)) as (_ & _ & _ & Hnew & _).
  set (s2 := (Database.update_group _ _ _ now2 _).2) in *.
  destruct (update_user_group_effect (u_chat_id user) (g_group_id group) name link
              now3 s2) as [Hg3 Hu3].
  set (s3 := (Database.update_user_group _ _ _ _ now3 s2).2) in *.
  split_and!.
  - change (Database.get_incomplete_groups s3)
      with (Database.get_incomplete_groups s2).
    rewrite Hinc by done. rewrite Hsnap. by rewrite filter_cons_False by (by intros ?).
  - intros row Hrow Hid. rewrite Hg3 in Hrow. by apply Hnew.
  - exists now3. apply Hu3. exists user. rewrite Hu2. split; [done|].
    by rewrite bool_decide_eq_true_2.
  - by eexists.
Qed.

End MonitorMore.

(** * Backups *)

Lemma lookup_remove_all (names : list string) (dir : gmap string Store) (n : string) :
  remove_all names dir !! n = if decide (n ∈ names) then None else dir !! n.
Proof.
  revert dir. induction names as [|x names IH]; intros dir; cbn [remove_all].
  - by rewrite decide_False by (by intros ?%elem_of_nil).
  - rewrite IH. destruct (decide (n ∈ names)) as [Hin|Hin].
    + by rewrite decide_True by (by right).
    + destruct (decide (n = x)) as [->|Hne].
      * rewrite decide_True by left. apply lookup_delete_eq.
      * rewrite decide_False by (intros [?|?]%elem_of_cons; done).
        by apply lookup_delete_ne.
Qed.

Lemma strip_prefix_app (p s : string) : strip_prefix p (p +:+ s) = Some s.
Proof.
  induction p as [|a p IH]; [by destruct s|].
  change (String a p +:+ s) with (String a (p +:+ s)). cbn [strip_prefix].
  by rewrite Ascii.eqb_refl.
Qed.

Lemma listdir_backups_elem (d : Disk) (n : string) :
  n ∈ listdir_backups d ↔ startswith "backup_" n = true ∧ is_Some (backups d !! n).
Proof.
  unfold listdir_backups. rewrite list_elem_of_filter, elem_of_elements, elem_of_dom.
  done.
Qed.

Lemma listdir_backups_NoDup (d : Disk) : NoDup (listdir_backups d).
Proof. unfold listdir_backups. apply NoDup_filter, NoDup_elements. Qed.

Lemma sorted_spec (l : list string) :
  sorted l ≡ₚ l ∧ StronglySorted String.le (sorted l).
Proof.
  split; [apply merge_sort_Permutation | apply StronglySorted_merge_sort; apply _].
Qed.

Lemma backup_name_startswith timestamp :
  startswith "backup_" ("backup_" +:+ timestamp +:+ ".db") = true.
Proof. apply prefix_spec. by eexists. Qed.

(** The directory after [backup_database], name by name. *)
Lemma backup_database_lookup timestamp d (n : string) :
  let name := "backup_" +:+ timestamp +:+ ".db" in
  let dir := <[name := database d]> (backups d) in
  let l := sorted (listdir_backups {| database := database d; backups := dir |}) in
  backups (Database.backup_database timestamp d).2 !! n
  = if decide (5 < length l ∧ n ∈ take (length l - 5) l) then None else dir !! n.
Proof.
  intros name dir l. unfold Database.backup_database. fold name. cbn [snd].
  fold dir. cbn [database backups]. fold l. case_bool_decide as Hlen.
  - cbn [backups]. rewrite lookup_remove_all.
    destruct (decide (n ∈ take (length l - 5) l)).
    + by rewrite decide_True.
    + by rewrite decide_False by (by intros [_ ?]).
  - cbn [backups]. by rewrite decide_False by (by intros [? _]).
Qed.

Section backup_facts.

Context (timestamp : string) (d : Disk).

Let name : string := "backup_" +:+ timestamp +:+ ".db".
Let dir : gmap string Store := <[name := database d]> (backups d).
Let listed : list string :=
  sorted (listdir_backups {| database := database d; backups := dir |}).
Let after : Disk := (Database.backup_database timestamp d).2.

Lemma listed_elem (n : string) :
  n ∈ listed ↔ n = name ∨ n ∈ listdir_backups d.
Proof using Type.
  unfold listed. rewrite (proj1 (sorted_spec _)).
  rewrite !listdir_backups_elem. cbn [backups]. unfold dir.
  destruct (decide (n = name)) as [->|Hne].
  - rewrite lookup_insert_eq. split; [by left|]. intros _.
    split; [apply backup_name_startswith | by eexists].
  - rewrite lookup_insert_ne by done. naive_solver.
Qed.

Lemma listed_NoDup : NoDup listed.
Proof using Type.
  unfold listed. rewrite (proj1 (sorted_spec _)). apply listdir_backups_NoDup.
Qed.

Lemma listed_sorted : StronglySorted String.le listed.
Proof using Type. apply sorted_spec. Qed.

(** The names listed after the backup: the last five of the sorted list,
    or all of it when it has at most five. *)
Lemma after_elem (n : string) :
  n ∈ listdir_backups after ↔
  n ∈ (if bool_decide (5 < length listed)
       then drop (length listed - 5) listed else listed).
Proof using Type.
  rewrite listdir_backups_elem. unfold after.
  rewrite (backup_database_lookup timestamp d n). fold name dir listed.
  pose proof (listed_elem n) as Hl. rewrite !listdir_backups_elem in Hl.
  assert (Hdir : n ∈ listed ↔ startswith "backup_" n = true ∧ is_Some (dir !! n)).
  { unfold listed. rewrite (proj1 (sorted_spec _)). by rewrite listdir_backups_elem. }
  pose proof listed_NoDup as Hnd. pose proof Hdir as Hdir0.
  rewrite <- (take_drop (length listed - 5) listed) in Hnd, Hdir.
  apply NoDup_app in Hnd as (_ & Hdisj & _). rewrite elem_of_app in Hdir.
  case_bool_decide as Hlen.
  - destruct (decide (_ ∧ _)) as [[_ Hin]|Hno].
    + split; [by intros [_ [? ?]] | by intros ?%Hdisj].
    + rewrite <- Hdir. split; [intros [Hin|Hin]; [destruct Hno|]; done | by right].
  - rewrite decide_False by (by intros [? _]). by rewrite Hdir0.
Qed.

Lemma after_length : length (listdir_backups after) ≤ 5.
Proof using Type.
  set (kept := if bool_decide (5 < length listed)
               then drop (length listed - 5) listed else listed).
  assert (Hk : length kept ≤ 5).
  { unfold kept. case_bool_decide; [rewrite length_drop|]; lia. }
  etrans; [|exact Hk]. apply submseteq_length, NoDup_submseteq.
  - apply listdir_backups_NoDup.
  - intros n. by rewrite after_elem.
Qed.

End backup_facts.

(** X19.  [backup_database] returns the path of the backup named after the
    timestamp and leaves the database as it is.  Afterwards at most five
    files named [backup_...] are in the directory; each of them is older
    backups' content unchanged or, under the new name, the database; every
    backup that was removed has a name not after the names that stay; and
    files not named [backup_...] are untouched. *)
Theorem backup_database_keeps_five timestamp d :
  let name := "backup_" +:+ timestamp +:+ ".db" in
  let r := Database.backup_database timestamp d in
  r.1 = Some ("backups/" +:+ name)
  ∧ database r.2 = database d
  ∧ length (listdir_backups r.2) ≤ 5
  ∧ (∀ n, n ∈ listdir_backups r.2 →
       backups r.2 !! n = <[name := database d]> (backups d) !! n)
  ∧ (∀ kept gone,
       kept ∈ listdir_backups r.2 →
       gone = name ∨ gone ∈ listdir_backups d →
       gone ∉ listdir_backups r.2 →
       String.le gone kept)
  ∧ (∀ n, startswith "backup_" n = false → backups r.2 !! n = backups d !! n).
Proof.
  intros name r. split_and!.
  - done.
  - unfold r, Database.backup_database. cbn [snd]. by case_bool_decide.
  - apply after_length.
  - intros n Hn. pose proof Hn as Hn'. apply listdir_backups_elem in Hn as [_ [c Hc]].
    unfold r in *. rewrite (backup_database_lookup timestamp d n) in Hc |- *.
    by destruct (decide (_ ∧ _)).
  - intros kept gone Hkept Hgone Hnot. unfold r in *.
    apply after_elem in Hkept. rewrite after_elem in Hnot.
    apply listed_elem in Hgone. case_bool_decide as Hlen; [|done].
    pose proof (listed_sorted timestamp d) as Hs. cbv zeta in Hs.
    set (l := sorted _) in *.
    rewrite <- (take_drop (length l - 5) l) in Hs, Hgone.
    apply elem_of_app in Hgone as [Hgone|Hgone]; [|done].
    by eapply (StronglySorted_app_1_elem_of String.le).
  - intros n Hn. unfold r. rewrite (backup_database_lookup timestamp d n).
    destruct (decide (_ ∧ _)) as [[_ Hin]|_].
    + apply elem_of_take in Hin as (i & Hin & _).
      apply list_elem_of_lookup_2, listed_elem in Hin as [->|Hin].
      * by rewrite backup_name_startswith in Hn.
      * apply listdir_backups_elem in Hin as [Hp _]. congruence.
    + rewrite lookup_insert_ne; [done|]. intros <-.
      by rewrite backup_name_startswith in Hn.
Qed.

(** X20.  When fewer than five backups in the directory have a name after
    the new one, the new backup is kept, and restoring from the returned
    path brings back the database as it was at the backup, whatever was
    written to it in between; the directory is not changed by the restore. *)
Theorem backup_then_restore timestamp d later :
  let name := "backup_" +:+ timestamp +:+ ".db" in
  let r := Database.backup_database timestamp d in
  length (later_backups name d) < 5 →
  backups r.2 !! name = Some (database d)
  ∧ Database.restore_database ("backups/" +:+ name)
      {| database := later; backups := backups r.2 |}
    = (true, {| database := database d; backups := backups r.2 |}).
Proof.
  intros name r Hfew.
  assert (Hkept : backups r.2 !! name = Some (database d)).
  { unfold r. rewrite (backup_database_lookup timestamp d name). fold name.
    destruct (decide (_ ∧ _)) as [[Hlen Hin]|_]; [|apply lookup_insert_eq].
    exfalso. set (l := sorted _) in *.
    pose proof (listed_NoDup timestamp d) as Hnd.
    pose proof (listed_sorted timestamp d) as Hs. cbv zeta in Hnd, Hs.
    fold name in Hnd, Hs. fold l in Hnd, Hs.
    rewrite <- (take_drop (length l - 5) l) in Hnd, Hs.
    apply NoDup_app in Hnd as (_ & Hdisj & Hnd).
    assert (Hsub : drop (length l - 5) l ⊆+ later_backups name d).
    { apply NoDup_submseteq; [done|]. intros n Hn.
      unfold later_backups. apply list_elem_of_filter. split_and!.
      - by eapply (StronglySorted_app_1_elem_of String.le).
      - intros ->. by apply (Hdisj name).
      - assert (Hl : n ∈ l).
        { rewrite <- (take_drop (length l - 5) l), elem_of_app. by right. }
        apply (listed_elem timestamp d) in Hl as [->|Hl]; [|done].
        by destruct (Hdisj name). }
    apply submseteq_length in Hsub. rewrite length_drop in Hsub. lia. }
  split; [done|].
  unfold Database.restore_database, read_path. rewrite strip_prefix_app.
  cbn [backups]. by rewrite Hkept.
Qed.

(** X21.  When five or more backups in the directory have a name after the
    new one (the clock was set back, or such files were put there), the
    path [backup_database] returns is of a file it has already removed:
    restoring from it fails and changes nothing. *)
Theorem backup_database_may_remove_its_own_file timestamp d :
  let name := "backup_" +:+ timestamp +:+ ".db" in
  let r := Database.backup_database timestamp d in
  5 ≤ length (later_backups name d) →
  r.1 = Some ("backups/" +:+ name)
  ∧ backups r.2 !! name = None
  ∧ Database.restore_database ("backups/" +:+ name) r.2 = (false, r.2).
Proof.
  intros name r Hmany.
  assert (Hgone : backups r.2 !! name = None).
  { unfold r. rewrite (backup_database_lookup timestamp d name). fold name.
    set (l := sorted _) in *.
    pose proof (listed_NoDup timestamp d) as Hnd.
    pose proof (listed_sorted timestamp d) as Hs. cbv zeta in Hnd, Hs.
    fold name in Hnd, Hs. fold l in Hnd, Hs.
    assert (Hname : name ∈ l) by (apply (listed_elem timestamp d); by left).
    assert (Hlater : ∀ n, n ∈ later_backups name d →
              n ∈ l ∧ String.le name n ∧ n ≠ name).
    { intros n [[? ?] Hn]%list_elem_of_filter. split_and!; [|done..].
      apply (listed_elem timestamp d). by right. }
    assert (Hnd_later : NoDup (later_backups name d))
      by apply NoDup_filter, listdir_backups_NoDup.
    assert (Hlen : 5 < length l).
    { assert (Hsub : name :: later_backups name d ⊆+ l).
      { apply NoDup_submseteq.
        - apply NoDup_cons. split; [|done]. by intros (_ & _ & ?)%Hlater.
        - intros n [->|Hn]%elem_of_cons; [done | by apply Hlater]. }
      apply submseteq_length in Hsub. cbn in Hsub. lia. }
    destruct (decide (_ ∧ _)) as [_|Hno]; [done|]. exfalso.
    assert (Hdrop : name ∈ drop (length l - 5) l).
    { rewrite <- (take_drop (length l - 5) l), elem_of_app in Hname.
      destruct Hname as [?|?]; [destruct Hno|]; done. }
    rewrite <- (take_drop (length l - 5) l) in Hnd, Hs.
    apply NoDup_app in Hnd as (_ & _ & Hndd).
    assert (Hsub : name :: later_backups name d ⊆+ drop (length l - 5) l).
    { apply NoDup_submseteq.
      - apply NoDup_cons. split; [|done]. by intros (_ & _ & ?)%Hlater.
      - intros n [->|Hn]%elem_of_cons; [done|].
        destruct (Hlater n Hn) as (Hl & Hle & Hne).
        rewrite <- (take_drop (length l - 5) l), elem_of_app in Hl.
        destruct Hl as [Hl|Hl]; [|done].
        destruct Hne. apply (anti_symm String.le); [|done].
        by eapply (StronglySorted_app_1_elem_of String.le). }
    apply submseteq_length in Hsub. rewrite length_drop in Hsub. cbn in Hsub. lia. }
  split_and!; [done..|].
  unfold Database.restore_database, read_path. rewrite strip_prefix_app.
  by rewrite Hgone.
Qed.

(** ** The registration conversation *)

Section ConversationProperties.

Variable World : Type.
Variable bot_send_message : string → string → World → bool * World.
Variable datetime_now : World → string * World.
Variable handle_admin_conversation : Message → ConversationData → Handler World.

Local Abbreviation handle_start := (handle_start World bot_send_message).
Local Abbreviation handle_update := (handle_update World bot_send_message).
Local Abbreviation handle_conversation :=
  (handle_conversation World bot_send_message datetime_now handle_admin_conversation).

Local Ltac send_step :=
  unfold send_then, api_send_message; cbn;
  destruct (bot_send_message _ _ _) as [[] ?]; cbn; try done.

(** X22.  An [/update] conversation of a registered chat changes nothing in the
    database: once [handle_update] has returned, [handle_conversation] on the
    reply leaves the file as it was, so the stored keywords are the old
    ones; when it returns it has sent the text that says the interests were
    updated to the reply, and the chat's conversation state is gone. *)
Theorem update_conversation_keeps_database (m1 m2 : Message) h user kws :
  m_chat_id m2 = m_chat_id m1 →
  Database.get_user_by_chat_id (pretty (m_chat_id m1)) (db_file (h_env h))
  = Some (user, kws) →
  let r1 := handle_update m1 h in
  let r2 := handle_conversation m2 r1.2 in
  r1.1 = Returned →
  db_file (h_env r2.2) = db_file (h_env h)
  ∧ Database.get_user_by_chat_id (pretty (m_chat_id m1)) (db_file (h_env r2.2))
    = Some (user, kws)
  ∧ (r2.1 = Returned →
     user_states r2.2 = delete (m_chat_id m1) (user_states h)
     ∧ last (api_log (h_env r2.2))
       = Some (SendMessage (pretty (m_chat_id m1))
                 (interests_updated_text (Py.strip (m_text m2))) true)).
Proof.
  intros Hc Huser r1 r2. subst r1 r2. unfold handle_update.
  rewrite Huser. cbn zeta. send_step. intros _.
  unfold handle_conversation. cbn. rewrite Hc, lookup_insert_eq. cbn.
  send_step.
  split_and!; [done..|]. intros _. split; [|by rewrite last_snoc].
  by rewrite insert_insert_eq, delete_insert_eq.
Qed.

Lemma handle_start_returned (m : Message) h :
  Database.get_user_by_chat_id (pretty (m_chat_id m)) (db_file (h_env h)) = None →
  let r := handle_start m h in
  r.1 = Returned →
  db_file (h_env r.2) = db_file (h_env h)
  ∧ user_states r.2
    = <[m_chat_id m := {| st_state := AWAITING_NAME; st_data := no_data |}]>
        (user_states h).
Proof.
  intros Hnew r. subst r. unfold handle_start. rewrite Hnew. cbn zeta.
  send_step. send_step.
Qed.

Lemma handle_conversation_name (m : Message) h data :
  user_states h !! m_chat_id m
  = Some {| st_state := AWAITING_NAME; st_data := data |} →
  let r := handle_conversation m h in
  r.1 = Returned →
  db_file (h_env r.2) = db_file (h_env h)
  ∧ user_states r.2
    = <[m_chat_id m :=
          {| st_state := AWAITING_EMAIL;
             st_data := {| d_name := Some (Py.strip (m_text m));
                           d_email := d_email data;
                           d_intention := d_intention data;
                           d_keywords := d_keywords data;
                           d_update_mode := d_update_mode data;
                           d_user_id := d_user_id data |} |}]>
        (user_states h).
Proof.
  intros Hstate r. subst r. unfold handle_conversation. rewrite Hstate.
  cbn. send_step.
Qed.

Lemma handle_conversation_email (m : Message) h data :
  user_states h !! m_chat_id m
  = Some {| st_state := AWAITING_EMAIL; st_data := data |} →
  let r := handle_conversation m h in
  r.1 = Returned →
  db_file (h_env r.2) = db_file (h_env h)
  ∧ user_states r.2
    = <[m_chat_id m :=
          {| st_state := AWAITING_INTENTION;
             st_data := {| d_name := d_name data;
                           d_email := Some (Py.strip (m_text m));
                           d_intention := d_intention data;
                           d_keywords := d_keywords data;
                           d_update_mode := d_update_mode data;
                           d_user_id := d_user_id data |} |}]>
        (user_states h).
Proof.
  intros Hstate r. subst r. unfold handle_conversation. rewrite Hstate.
  cbn. send_step.
Qed.

Lemma handle_conversation_intention (m : Message) h data :
  user_states h !! m_chat_id m
  = Some {| st_state := AWAITING_INTENTION; st_data := data |} →
  let r := handle_conversation m h in
  r.1 = Returned →
  db_file (h_env r.2) = db_file (h_env h)
  ∧ user_states r.2
    = <[m_chat_id m :=
          {| st_state := AWAITING_INTERESTS;
             st_data := {| d_name := d_name data;
                           d_email := d_email data;
                           d_intention := Some (Py.strip (m_text m));
                           d_keywords := d_keywords data;
                           d_update_mode := d_update_mode data;
                           d_user_id := d_user_id data |} |}]>
        (user_states h).
Proof.
  intros Hstate r. subst r. unfold handle_conversation. rewrite Hstate.
  cbn. send_step.
Qed.

Lemma handle_conversation_interests (m : Message) h name email intention kws uid :
  user_states h !! m_chat_id m
  = Some {| st_state := AWAITING_INTERESTS;
            st_data := {| d_name := Some name; d_email := Some email;
                          d_intention := Some intention; d_keywords := kws;
                          d_update_mode := false; d_user_id := uid |} |} →
  let r := handle_conversation m h in
  let now := (datetime_now (world (h_env h))).1 in
  let a := Database.add_user (pretty (m_chat_id m)) name email intention
             (Py.strip (m_text m)) now (db_file (h_env h)) in
  let reply :=
    match a.1 with
    | Some _ => MESSAGES_registration_complete name email intention
                  (Py.strip (m_text m))
    | None => registration_failed_text
    end in
  db_file (h_env r.2) = a.2
  ∧ last (api_log (h_env r.2))
    = Some (SendMessage (pretty (m_chat_id m)) reply (bool_decide (r.1 = Returned)))
  ∧ (r.1 = Returned → user_states r.2 = delete (m_chat_id m) (user_states h))
  ∧ (r.1 = Raised →
     user_states r.2
     = <[m_chat_id m :=
           {| st_state := AWAITING_INTERESTS;
              st_data := {| d_name := Some name; d_email := Some email;
                            d_intention := Some intention;
                            d_keywords := Some (Py.strip (m_text m));
                            d_update_mode := false; d_user_id := uid |} |}]>
         (user_states h)).
Proof.
  intros Hstate r. subst r. unfold handle_conversation. rewrite Hstate.
  cbn -[MESSAGES_registration_complete registration_failed_text].
  unfold db_call. cbn -[MESSAGES_registration_complete registration_failed_text].
  destruct (datetime_now _) as [now' w'].
  cbn -[MESSAGES_registration_complete registration_failed_text].
  destruct (Database.add_user _ _ _ _ _ _ _) as [user_id s].
  cbn -[MESSAGES_registration_complete registration_failed_text].
  unfold send_then, api_send_message.
  cbn -[MESSAGES_registration_complete registration_failed_text].
  destruct (bot_send_message _ _ _) as [[] ?];
    cbn -[MESSAGES_registration_complete registration_failed_text].
  - split_and!; [done|by rewrite last_snoc|..|done]. intros _.
    by rewrite delete_insert_eq.
  - split_and!; [done|by rewrite last_snoc|done|done].
Qed.

(** X23.  A registration conversation stores what was typed, trimmed.  For a
    chat that is not registered, [handle_start] followed by
    [handle_conversation] on four texts (each call returning) ends with one
    [add_user] of the chat id and the four texts with surrounding white
    space removed, run on the database as it was at the start; the last
    message sent is the summary when [add_user] returned an id and the
    failure text when it did not, and the conversation state of the chat
    is removed when that send returns and kept, still awaiting the
    interests, when it raises. *)
Theorem registration_conversation_adds_user c t0 name email intention interests h :
  Database.get_user_by_chat_id (pretty c) (db_file (h_env h)) = None →
  let msg t := {| m_chat_id := c; m_text := t |} in
  let r1 := handle_start (msg t0) h in
  let r2 := handle_conversation (msg name) r1.2 in
  let r3 := handle_conversation (msg email) r2.2 in
  let r4 := handle_conversation (msg intention) r3.2 in
  let r5 := handle_conversation (msg interests) r4.2 in
  r1.1 = Returned → r2.1 = Returned → r3.1 = Returned → r4.1 = Returned →
  let now := (datetime_now (world (h_env r4.2))).1 in
  let a := Database.add_user (pretty c) (Py.strip name) (Py.strip email)
             (Py.strip intention) (Py.strip interests) now (db_file (h_env h)) in
  let reply :=
    match a.1 with
    | Some _ => MESSAGES_registration_complete (Py.strip name) (Py.strip email)
                  (Py.strip intention) (Py.strip interests)
    | None => registration_failed_text
    end in
  db_file (h_env r5.2) = a.2
  ∧ last (api_log (h_env r5.2))
    = Some (SendMessage (pretty c) reply (bool_decide (r5.1 = Returned)))
  ∧ (r5.1 = Returned → user_states r5.2 = delete c (user_states h))
  ∧ (r5.1 = Raised →
     user_states r5.2 !! c
     = Some {| st_state := AWAITING_INTERESTS;
               st_data := {| d_name := Some (Py.strip name);
                             d_email := Some (Py.strip email);
                             d_intention := Some (Py.strip intention);
                             d_keywords := Some (Py.strip interests);
                             d_update_mode := false;
                             d_user_id := None |} |}).
Proof.
  intros Hnew msg r1 r2 r3 r4 r5 H1 H2 H3 H4.
  destruct (handle_start_returned (msg t0) h Hnew H1) as [Hd1 Hs1].
  fold r1 in Hd1, Hs1. cbn [msg m_chat_id] in Hs1.
  assert (user_states r1.2 !! m_chat_id (msg name) = Some _) as Hl1
    by (rewrite Hs1; apply lookup_insert_eq).
  destruct (handle_conversation_name (msg name) r1.2 _ Hl1 H2) as [Hd2 Hs2].
  fold r2 in Hd2, Hs2. cbn [msg m_chat_id m_text no_data d_name d_email
    d_intention d_keywords d_update_mode d_user_id] in Hs2.
  assert (user_states r2.2 !! m_chat_id (msg email) = Some _) as Hl2
    by (rewrite Hs2; apply lookup_insert_eq).
  destruct (handle_conversation_email (msg email) r2.2 _ Hl2 H3) as [Hd3 Hs3].
  fold r3 in Hd3, Hs3. cbn [msg m_chat_id m_text no_data d_name d_email
    d_intention d_keywords d_update_mode d_user_id] in Hs3.
  assert (user_states r3.2 !! m_chat_id (msg intention) = Some _) as Hl3
    by (rewrite Hs3; apply lookup_insert_eq).
  destruct (handle_conversation_intention (msg intention) r3.2 _ Hl3 H4)
    as [Hd4 Hs4].
  fold r4 in Hd4, Hs4. cbn [msg m_chat_id m_text no_data d_name d_email
    d_intention d_keywords d_update_mode d_user_id] in Hs4.
  assert (user_states r4.2 !! m_chat_id (msg interests) = Some _) as Hl4
    by (rewrite Hs4; apply lookup_insert_eq).
  destruct (handle_conversation_interests (msg interests) r4.2 _ _ _ _ _ Hl4)
    as (Hd5 & Hlog & Hret & Hraise).
  fold r5 in Hd5, Hlog, Hret, Hraise.
  cbn [msg m_chat_id m_text] in Hd5, Hlog, Hret, Hraise.
  intros now a reply. subst now a reply.
  rewrite Hd4, Hd3, Hd2, Hd1 in Hd5. rewrite Hd4, Hd3, Hd2, Hd1 in Hlog.
  split_and!; [done|done|..].
  - intros Hr. rewrite (Hret Hr), Hs4, Hs3, Hs2, Hs1.
    by rewrite !insert_insert_eq, delete_insert_eq.
  - intros Hr. rewrite (Hraise Hr). apply lookup_insert_eq.
Qed.

(** X24.  A chat that is already in the users table and whose conversation
    still awaits the interests of a registration is told that saving
    failed, whatever it sends: [add_user] is tried again, rejects the chat
    id, and the database stays as it is. *)
Theorem registration_retry_fails (m : Message) h name email intention kws uid :
  user_states h !! m_chat_id m
  = Some {| st_state := AWAITING_INTERESTS;
            st_data := {| d_name := Some name; d_email := Some email;
                          d_intention := Some intention; d_keywords := kws;
                          d_update_mode := false; d_user_id := uid |} |} →
  pretty (m_chat_id m) ∈ u_chat_id <$> users (db_file (h_env h)) →
  let r := handle_conversation m h in
  db_file (h_env r.2) = db_file (h_env h)
  ∧ last (api_log (h_env r.2))
    = Some (SendMessage (pretty (m_chat_id m)) registration_failed_text
              (bool_decide (r.1 = Returned))).
Proof.
  intros Hstate Hin r. subst r. unfold handle_conversation. rewrite Hstate. cbn.
  unfold db_call. cbn. destruct (datetime_now _) as [now' w']. cbn.
  rewrite add_user_unfold. unfold insert_user.
  cbn [get_connection sqlite3_connect txn].
  rewrite bool_decide_eq_true_2 by done. cbn.
  send_step; by rewrite last_snoc.
Qed.

End ConversationProperties.

(** ** The construction of a Database object *)

Section Construction.

Import Locking.

Lemma init_db_stuck_step db i j st st' :
  init_db_stuck db i st → step j st = Some st' → init_db_stuck db i st'.
Proof.
  intros [(k & Hk & Hi & Hheld) Hothers] Hstep. unfold step in Hstep.
  destruct (threads st !! j) as [[|a rest]|] eqn:Hj; [done| |done].
  destruct (decide (j = i)) as [->|Hne].
  - rewrite Hi in Hj. injection Hj as Hj.
    assert (Hlen : i < length (threads st)) by (by eapply lookup_lt_Some).
    assert (Hothers' : ∀ h j t, j ≠ i →
              threads {| held := h; threads := <[i := rest]> (threads st) |} !! j
              = Some t → Release (db_lock db) ∉ t).
    { intros h j t Hji. cbn. rewrite list_lookup_insert_ne by done.
      by apply Hothers. }
    destruct k as [|[|[|[|k]]]]; [| | | |lia]; cbn in Hj;
      injection Hj as <- <-.
    + case_bool_decide; [done|]. injection Hstep as <-. split; [|by apply Hothers'].
      exists 1. split_and!; [lia| |by left]. cbn.
      by rewrite list_lookup_insert_eq.
    + injection Hstep as <-. split; [|by apply Hothers'].
      exists 2. split_and!; [lia| |intros _; apply Hheld; lia]. cbn.
      by rewrite list_lookup_insert_eq.
    + injection Hstep as <-. split; [|by apply Hothers'].
      exists 3. split_and!; [lia| |intros _; apply Hheld; lia]. cbn.
      by rewrite list_lookup_insert_eq.
    + rewrite bool_decide_eq_true_2 in Hstep by (apply Hheld; lia). done.
  - assert (Hrel : Release (db_lock db) ∉ a :: rest) by (by eapply Hothers).
    assert (Hi' : ∀ h, threads {| held := h; threads := <[j := rest]> (threads st) |} !! i
                  = Some (drop k (init_db db))).
    { intros h. cbn. by rewrite list_lookup_insert_ne. }
    assert (Hothers' : ∀ h j' t, j' ≠ i →
              threads {| held := h; threads := <[j := rest]> (threads st) |} !! j'
              = Some t → Release (db_lock db) ∉ t).
    { intros h j' t Hji. cbn. destruct (decide (j' = j)) as [->|Hjj].
      - rewrite list_lookup_insert_eq by (by eapply lookup_lt_Some).
        intros [= <-] Hin. apply Hrel. by right.
      - rewrite list_lookup_insert_ne by done. by apply Hothers. }
    destruct a as [l|l|f|f|f].
    + case_bool_decide; [done|]. injection Hstep as <-.
      split; [|by apply Hothers']. exists k. split_and!; [done|apply Hi'|].
      intros Hk1. right. by apply Hheld.
    + injection Hstep as <-.
      split; [|by apply Hothers']. exists k. split_and!; [done|apply Hi'|].
      intros Hk1. cbn. apply list_elem_of_filter. split; [|by apply Hheld].
      intros Heq. apply Hrel. rewrite Heq. by left.
    + injection Hstep as <-.
      split; [|by apply Hothers']. by exists k.
    + injection Hstep as <-.
      split; [|by apply Hothers']. by exists k.
    + injection Hstep as <-.
      split; [|by apply Hothers']. by exists k.
Qed.

(** X25.  [Database.__init__] never returns.  [init_db] calls
    [add_admin_if_not_exists] inside its own [with self.get_connection()],
    and that method enters [self.get_connection()] again: whatever the other
    threads do and however the threads are scheduled, as long as no other
    thread releases the lock of the object under construction, the thread
    that runs [init_db] still has that second acquisition of the lock
    before it. *)
Theorem init_db_never_returns db i schedule st st' :
  threads st !! i = Some (init_db db) →
  (∀ j t, j ≠ i → threads st !! j = Some t → Release (db_lock db) ∉ t) →
  run schedule st = Some st' →
  ∃ t, threads st' !! i = Some t ∧ Acquire (db_lock db) ∈ t.
Proof.
  intros Hi Hothers Hrun.
  assert (Hinv : init_db_stuck db i st).
  { split; [|done]. exists 0. split_and!; [lia|done|lia]. }
  clear Hi Hothers. revert st Hinv Hrun.
  induction schedule as [|j rest IH]; intros st Hinv; cbn.
  - intros [= <-]. destruct Hinv as [(k & Hk & Hi & _) _].
    eexists. split; [done|].
    destruct k as [|[|[|[|k]]]]; [| | | |lia]; cbn; set_solver.
  - destruct (step j st) as [st1|] eqn:Hstep; [|done]. intros Hrun.
    apply (IH st1); [|done]. by eapply init_db_stuck_step.
Qed.

Lemma init_db_never_returns_witness :
  let db := main_db import_main in
  let schedule := [0; 1; 0; 1; 0; 1; 1] in
  ∃ st', run schedule database_construction = Some st'
         ∧ threads st' !! 1 = Some []
         ∧ step 0 st' = None
         ∧ ∃ t, threads st' !! 0 = Some t ∧ Acquire (db_lock db) ∈ t.
Proof.
  intros db schedule.
  assert (H1 : threads database_construction !! 0 = Some (init_db db)) by reflexivity.
  assert (H2 : ∀ j t, j ≠ 0 → threads database_construction !! j = Some t →
               Release (db_lock db) ∉ t).
  { intros [|[|j]] t Hj Ht; [done| |done]. injection Ht as <-.
    apply (bool_decide_unpack _). by vm_compute. }
  destruct (run schedule database_construction) as [st'|] eqn:Hrun; [|by vm_compute in Hrun].
  exists st'. split; [done|].
  split; [by vm_compute in Hrun; injection Hrun as <-|].
  split; [by vm_compute in Hrun; injection Hrun as <-|].
  exact (init_db_never_returns db 0 schedule database_construction st' H1 H2 Hrun).
Defined.

End Construction.

(** ** Sample runs *)

Lemma process_attempts_every_matched_group_witness :
  let env := Sample.env [false; true] in
  let link := "https://x.com/i/status/1790" in
  let text := "New Rust backend release!" in
  form_link Sample.notification = Some link
  ∧ form_text Sample.notification = Some text
  ∧ request_tweet_id Sample.digest Sample.notification = Some "1790"
  ∧ Database.is_tweet_processed "1790" (db_file env) = false
  ∧ ∃ new,
      api_log (Sample.process Sample.notification env).2 = api_log env ++ new
      ∧ ∀ u, u ∈ Database.find_users_by_keywords text (db_file env) →
          ∃ g ok, u_group_id u = Some g
                  ∧ SendMessage g (MESSAGES_new_tweet text link) ok ∈ new.
Proof.
  intros env link text.
  assert (H1 : form_link Sample.notification = Some link) by reflexivity.
  assert (H2 : form_text Sample.notification = Some text) by reflexivity.
  assert (H3 : request_tweet_id Sample.digest Sample.notification = Some "1790")
    by reflexivity.
  assert (H4 : Database.is_tweet_processed "1790" (db_file env) = false)
    by reflexivity.
  split_and!; [done..|].
  exact (process_attempts_every_matched_group Sample.World Sample.bot_send_message
           Sample.datetime_now Sample.digest Sample.notification "1790" link text
           env H1 H2 H3 H4).
Defined.

Lemma process_delivers_to_every_matched_group_witness :
  let env := Sample.env [] in
  let link := "https://x.com/i/status/1790" in
  let text := "New Rust backend release!" in
  let process := process_tweet_notification Sample.World Sample.reliable_send_message
                   Sample.datetime_now Sample.digest in
  (∀ chat_id text w, (Sample.reliable_send_message chat_id text w).1 = true)
  ∧ form_link Sample.notification = Some link
  ∧ form_text Sample.notification = Some text
  ∧ request_tweet_id Sample.digest Sample.notification = Some "1790"
  ∧ Database.is_tweet_processed "1790" (db_file env) = false
  ∧ (process Sample.notification env).1 = Processed 1 2 1
  ∧ delivered (api_log (process Sample.notification env).2) = ["-1001"].
Proof.
  intros env link text process.
  assert (H0 : ∀ chat_id text w, (Sample.reliable_send_message chat_id text w).1 = true)
    by done.
  assert (H1 : form_link Sample.notification = Some link) by reflexivity.
  assert (H2 : form_text Sample.notification = Some text) by reflexivity.
  assert (H3 : request_tweet_id Sample.digest Sample.notification = Some "1790")
    by reflexivity.
  assert (H4 : Database.is_tweet_processed "1790" (db_file env) = false)
    by reflexivity.
  split_and!; [done..| |by vm_compute].
  destruct (process_delivers_to_every_matched_group Sample.World
              Sample.reliable_send_message Sample.datetime_now Sample.digest
              Sample.notification "1790" link text env H0 H1 H2 H3 H4) as [Hr _].
  exact Hr.
Defined.

Lemma bindings_stay_one_user_per_group_witness :
  let final := handle_events Sample.World Sample.bot_send_message
                 Sample.bot_create_chat_invite_link Sample.datetime_now
                 Sample.digest Sample.events (Sample.env_empty [true; false]) in
  binding_invariant (db_file (Sample.env_empty [true; false]))
  ∧ binding_invariant (db_file final)
  ∧ u_group_id <$> users (db_file final) = [Some "-2002"].
Proof.
  intros final.
  assert (H0 : binding_invariant (db_file (Sample.env_empty [true; false])))
    by exact empty_store_binding_invariant.
  split_and!; [done| |by vm_compute].
  exact (bindings_stay_one_user_per_group Sample.World Sample.bot_send_message
           Sample.bot_create_chat_invite_link Sample.datetime_now Sample.digest
           Sample.events (Sample.env_empty [true; false]) H0).
Defined.

Lemma cycle_without_links_only_asks_witness :
  let env := Sample.env_waiting [] in
  let r := _process_groups Sample.World Sample.bot_send_message Sample.no_invite_link
             Sample.datetime_now env in
  (∀ group_id w, (Sample.no_invite_link group_id w).1 = None)
  ∧ is_Some (Database.get_user_without_group (db_file env))
  ∧ db_file r.2 = Sample.store_waiting
  ∧ api_log r.2 = [CreateChatInviteLink "-1002" None].
Proof.
  intros env r.
  assert (H1 : ∀ group_id w, (Sample.no_invite_link group_id w).1 = None) by done.
  assert (H2 : is_Some (Database.get_user_without_group (db_file env)))
    by (by eexists).
  destruct (cycle_without_links_only_asks Sample.World Sample.bot_send_message
              Sample.no_invite_link Sample.datetime_now env H1 H2) as [Hdb Hlog].
  split_and!; [done..|exact Hdb|exact Hlog].
Defined.

Lemma cycle_completes_group_and_binds_user_witness :
  let env := Sample.env_waiting [] in
  let group := {| g_id := 1; g_group_id := "-1002"; g_group_name := None;
                  g_invite_link := None; g_created_at := "2024-04-05T09:00:00";
                  g_updated_at := "2024-04-05T09:00:00" |} in
  let link := "https://t.me/+-1002" in
  let r := _process_groups Sample.World Sample.bot_send_message
             Sample.bot_create_chat_invite_link Sample.datetime_now env in
  Database.get_incomplete_groups (db_file env) = [group]
  ∧ Database.get_user_without_group (db_file env) = Some (Sample.cara, ["go"])
  ∧ Sample.bot_create_chat_invite_link "-1002" (world env) = (Some link, [])
  ∧ Py.truthy link = true
  ∧ Database.get_incomplete_groups (db_file r.2) = []
  ∧ ∃ now, bound_user_row Sample.cara "-1002" "Grupo de Cara - go" link now
           ∈ users (db_file r.2).
Proof.
  intros env group link r.
  assert (H1 : Database.get_incomplete_groups (db_file env) = [group]) by reflexivity.
  assert (H2 : Database.get_user_without_group (db_file env) = Some (Sample.cara, ["go"]))
    by reflexivity.
  assert (H3 : Sample.bot_create_chat_invite_link (g_group_id group) (world env)
               = (Some link, [])) by reflexivity.
  assert (H4 : Py.truthy link = true) by reflexivity.
  destruct (cycle_completes_group_and_binds_user Sample.World Sample.bot_send_message
              Sample.bot_create_chat_invite_link Sample.datetime_now env group
              Sample.cara ["go"] link [] H1 H2 H3 H4) as (Hdone & _ & Huser & _).
  split_and!; [done..|exact Hdone|exact Huser].
Defined.

Lemma backup_then_restore_witness :
  let d := Sample.disk ["backup_20240101_000000.db"; "backup_20250101_000000.db"; "notes.txt"] in
  let name := "backup_20240501_100000.db" in
  let r := Database.backup_database "20240501_100000" d in
  length (later_backups name d) < 5
  ∧ backups r.2 !! name = Some Sample.store
  ∧ Database.restore_database ("backups/" +:+ name)
      {| database := empty_store; backups := backups r.2 |}
    = (true, {| database := Sample.store; backups := backups r.2 |}).
Proof.
  intros d name r.
  assert (H1 : length (later_backups name d) < 5)
    by (apply (bool_decide_unpack _); by vm_compute).
  split; [exact H1|].
  exact (backup_then_restore "20240501_100000" d empty_store H1).
Defined.

Lemma backup_database_may_remove_its_own_file_witness :
  let d := Sample.disk ["backup_20250101_000000.db"; "backup_20250102_000000.db";
                 "backup_20250103_000000.db"; "backup_20250104_000000.db";
                 "backup_20250105_000000.db"] in
  let name := "backup_20240501_100000.db" in
  let r := Database.backup_database "20240501_100000" d in
  5 ≤ length (later_backups name d)
  ∧ r.1 = Some ("backups/" +:+ name)
  ∧ backups r.2 !! name = None
  ∧ Database.restore_database ("backups/" +:+ name) r.2 = (false, r.2).
Proof.
  intros d name r.
  assert (H1 : 5 ≤ length (later_backups name d))
    by (apply (bool_decide_unpack _); by vm_compute).
  split; [exact H1|].
  exact (backup_database_may_remove_its_own_file "20240501_100000" d H1).
Defined.

Lemma update_conversation_keeps_database_witness :
  let h := Sample.handlers ∅ [] in
  let m1 := {| m_chat_id := 501; m_text := "/update" |} in
  let m2 := {| m_chat_id := 501; m_text := " python , ai  　" |} in
  let r1 := handle_update Sample.World Sample.bot_send_message m1 h in
  let r2 := handle_conversation Sample.World Sample.bot_send_message
              Sample.datetime_now Sample.handle_admin_conversation m2 r1.2 in
  m_chat_id m2 = m_chat_id m1
  ∧ Database.get_user_by_chat_id (pretty (m_chat_id m1)) (db_file (h_env h))
    = Some (Sample.ana, ["rust"])
  ∧ r1.1 = Returned
  ∧ r2.1 = Returned
  ∧ Database.get_user_by_chat_id "501" (db_file (h_env r2.2))
    = Some (Sample.ana, ["rust"])
  ∧ last (api_log (h_env r2.2))
    = Some (SendMessage "501" (interests_updated_text "python , ai") true).
Proof.
  intros h m1 m2 r1 r2.
  assert (H1 : m_chat_id m2 = m_chat_id m1) by reflexivity.
  assert (H2 : Database.get_user_by_chat_id (pretty (m_chat_id m1)) (db_file (h_env h))
               = Some (Sample.ana, ["rust"])) by (by vm_compute).
  assert (H3 : r1.1 = Returned) by (by vm_compute).
  assert (H4 : r2.1 = Returned) by (by vm_compute).
  destruct (update_conversation_keeps_database Sample.World Sample.bot_send_message
              Sample.datetime_now Sample.handle_admin_conversation m1 m2 h Sample.ana
              ["rust"] H1 H2 H3) as (_ & Hget & Hret).
  destruct (Hret H4) as [_ Hlast].
  split_and!; [done..|exact Hget|exact Hlast].
Defined.

Lemma registration_conversation_adds_user_witness :
  let h := Sample.handlers ∅ [] in
  let msg t := {| m_chat_id := 777; m_text := t |} in
  let talk := handle_conversation Sample.World Sample.bot_send_message
                Sample.datetime_now Sample.handle_admin_conversation in
  let r1 := handle_start Sample.World Sample.bot_send_message (msg "/start") h in
  let r2 := talk (msg " Dan ") r1.2 in
  let r3 := talk (msg "dan@example.org ") r2.2 in
  let r4 := talk (msg "news") r3.2 in
  let r5 := talk (msg "　Rust, Go ") r4.2 in
  Database.get_user_by_chat_id (pretty 777%Z) (db_file (h_env h)) = None
  ∧ r1.1 = Returned ∧ r2.1 = Returned ∧ r3.1 = Returned ∧ r4.1 = Returned
  ∧ db_file (h_env r5.2)
    = (Database.add_user "777" "Dan" "dan@example.org" "news" "Rust, Go"
         "2024-05-01T10:00:00" Sample.store).2
  ∧ snd <$> Database.get_user_by_chat_id "777" (db_file (h_env r5.2))
    = Some ["go"; "rust"].
Proof.
  intros h msg talk r1 r2 r3 r4 r5.
  assert (H0 : Database.get_user_by_chat_id (pretty 777%Z) (db_file (h_env h)) = None)
    by (by vm_compute).
  assert (H1 : r1.1 = Returned) by (by vm_compute).
  assert (H2 : r2.1 = Returned) by (by vm_compute).
  assert (H3 : r3.1 = Returned) by (by vm_compute).
  assert (H4 : r4.1 = Returned) by (by vm_compute).
  destruct (registration_conversation_adds_user Sample.World Sample.bot_send_message
              Sample.datetime_now Sample.handle_admin_conversation 777 "/start"
              " Dan " "dan@example.org " "news" "　Rust, Go " h H0 H1 H2 H3 H4)
    as (Hdb & _).
  split_and!; [done..| |].
  - exact Hdb.
  - by vm_compute.
Defined.

Lemma registration_retry_fails_witness :
  let waiting := {| st_state := AWAITING_INTERESTS;
                    st_data := {| d_name := Some "Ana"; d_email := Some "a@example.org";
                                  d_intention := Some "news"; d_keywords := Some "rust";
                                  d_update_mode := false; d_user_id := None |} |} in
  let h := Sample.handlers {[ 501%Z := waiting ]} [false] in
  let m := {| m_chat_id := 501; m_text := "rust" |} in
  let r := handle_conversation Sample.World Sample.bot_send_message
             Sample.datetime_now Sample.handle_admin_conversation m h in
  user_states h !! m_chat_id m = Some waiting
  ∧ pretty (m_chat_id m) ∈ u_chat_id <$> users (db_file (h_env h))
  ∧ db_file (h_env r.2) = Sample.store
  ∧ last (api_log (h_env r.2))
    = Some (SendMessage "501" registration_failed_text false).
Proof.
  intros waiting h m r.
  assert (H1 : user_states h !! m_chat_id m = Some waiting) by (by vm_compute).
  assert (H2 : pretty (m_chat_id m) ∈ u_chat_id <$> users (db_file (h_env h)))
    by (apply (bool_decide_unpack _); by vm_compute).
  destruct (registration_retry_fails Sample.World Sample.bot_send_message
              Sample.datetime_now Sample.handle_admin_conversation m h "Ana"
              "a@example.org" "news" (Some "rust") None H1 H2) as [Hdb Hlast].
  split_and!; [done..|exact Hdb|].
  fold r in Hlast. rewrite Hlast. by vm_compute.
Defined.
